(** * Hypergeometric probability calculator: a model of [script.js]

    The script computes hypergeometric draw probabilities for a card game.
    Its arithmetic core is three functions, [logFactorial],
    [binomialCoefficient] and [hypergeometric]; [renderChart] builds the
    distribution vector and [calculateAll] validates the inputs and derives
    the five summary statistics.

    JavaScript has one numeric type.  The script uses it in two roles that
    the model keeps apart:
    - the integers typed by the user and the loop counters ([N], [K], [n],
      [k], [i]) are modelled as [Z];
    - the quantities that come out of [Math.log], [Math.exp], [Math.round],
      [*], [/] and [-] are modelled by a type [num] with the operations of
      the class [Number].

    This integer reading is the script as long as the integers involved
    are safe integers (below 2^53 in magnitude, far above any deck size).
    Beyond, [N - K], [turn*2] and the like are rounded, so a statement
    about what the running script does carries that bound.  A second
    reading, [Machine], has nothing but binary64 Numbers: it shows that
    the two readings agree on safe inputs, and it runs the script beyond
    them.

    Two instances of [Number] are given: IEEE 754 binary64 (what a
    JavaScript engine computes, with the engine's [Math.log] and [Math.exp]
    as parameters, since ECMA-262 leaves them implementation-approximated),
    and exact real arithmetic (what the formulas mean mathematically).
    Statements about control flow are proved for every [Number]; statements
    that depend on rounding are proved in binary64; statements about the
    mathematics of the formulas are proved over the reals.

    Around the core the script reads four fields ([parseInt(...) || 0]),
    formats the statistics ([formatPercent]), colours and sizes the bars
    of the chart ([getProbabilityColor], the second half of [renderChart])
    and writes all of it into the document.  These parts are modelled after
    the core: the page as a function of the inputs ([screen]), the
    document as the script mutates it ([calculateAll_in]), and the reading
    of a field ([Field.read]).  The built-ins they use ([Math.min],
    [Math.max], [toFixed], the conversion of a Number to a string,
    [parseInt]) follow their descriptions in ECMA-262.  The page is
    modelled by what the script writes to it: the texts it sets and the
    strings it assigns to the style of each bar.  What an element makes of
    an assigned style value is CSS's business (it keeps none that is not
    valid CSS) and is not modelled. *)

From Stdlib Require Import ZArith List Bool String Lia.
From Stdlib Require Import Ascii.
From Stdlib Require Import Floats.
From Stdlib Require Import Reals Lra.
Import ListNotations.

(* Decimal literals denote the nearest binary64 value, as in JavaScript. *)
#[local] Set Warnings "-inexact-float".

Local Open Scope Z_scope.

(** ** The numeric operations the script relies on *)

Class Number (num : Type) : Type := {
  of_int : Z -> num;                 (* an integer used as a Number *)
  add : num -> num -> num;           (* a + b *)
  sub : num -> num -> num;           (* a - b *)
  mul : num -> num -> num;           (* a * b *)
  div : num -> num -> num;           (* a / b *)
  lt : num -> num -> bool;           (* a < b;  a > b  is  lt b a *)
  strict_eq : num -> num -> bool;    (* a === b *)
  Math_log : num -> num;
  Math_exp : num -> num;
  Math_round : num -> num
}.

(** ** Call traces

    Some statements of the specification are about what is _not_ computed
    (a short-circuit before any binomial coefficient, a base case that
    bypasses the logarithms, a validation failure that never reaches the
    core).  Every core function therefore records its own invocation, and
    the division records itself, in a writer monad. *)

Inductive event : Type :=
| Call_logFactorial (n : Z)
| Call_binomialCoefficient (n k : Z)
| Call_hypergeometric (N K n k : Z)
| Op_divide.

Definition traced (A : Type) : Type := (A * list event)%type.

Definition ret {A : Type} (a : A) : traced A := (a, []).

Definition bind {A B : Type} (m : traced A) (f : A -> traced B) : traced B :=
  let (a, t1) := m in
  let (b, t2) := f a in
  (b, t1 ++ t2).

Definition emit (e : event) : traced unit := (tt, [e]).

Definition value {A : Type} (m : traced A) : A := fst m.
Definition trace {A : Type} (m : traced A) : list event := snd m.

Declare Scope traced_scope.
Delimit Scope traced_scope with traced.
Notation "x <- m ;; k" := (bind m (fun x => k))
  (at level 61, m at next level, right associativity) : traced_scope.
Notation "m ;;; k" := (bind m (fun _ => k))
  (at level 61, right associativity) : traced_scope.

(** The events of a binomial-coefficient computation or of the division. *)
Definition is_binomial_or_division (e : event) : bool :=
  match e with
  | Call_binomialCoefficient _ _ | Call_logFactorial _ | Op_divide => true
  | Call_hypergeometric _ _ _ _ => false
  end.

(** ** The script *)

(** The four integers read from the page ([parseInt(...) || 0]). *)
Record Inputs : Type := {
  deckSize : Z;
  turn : Z;
  sampleSize : Z;
  targets : Z
}.

Section Script.

Context {num : Type} {NUM : Number num}.

Local Open Scope traced_scope.

(** [for (let i = 2; i <= n; i++) result += Math.log(i);]
    The counter only grows, so [n] iterations of fuel always reach the
    exit test. *)
Fixpoint logFactorial_loop (fuel : nat) (n i : Z) (result : num) : num :=
  match fuel with
  | O => result
  | S fuel' =>
      if i <=? n
      then logFactorial_loop fuel' n (i + 1) (add result (Math_log (of_int i)))
      else result
  end.

Definition logFactorial (n : Z) : traced num :=
  emit (Call_logFactorial n) ;;;
  if n <=? 1 then ret (of_int 0)
  else ret (logFactorial_loop (Z.to_nat n) n 2 (of_int 0)).

Definition binomialCoefficient (n k : Z) : traced num :=
  emit (Call_binomialCoefficient n k) ;;;
  if (k <? 0) || (n <? k) then ret (of_int 0)
  else if (k =? 0) || (k =? n) then ret (of_int 1)
  else
    ln <- logFactorial n ;;
    lk <- logFactorial k ;;
    lnk <- logFactorial (n - k) ;;
    let logResult := sub (sub ln lk) lnk in
    ret (Math_round (Math_exp logResult)).

Definition hypergeometric (N K n k : Z) : traced num :=
  emit (Call_hypergeometric N K n k) ;;;
  if (k <? 0) || (Z.min K n <? k) || (k <? Z.max 0 (n - (N - K)))
  then ret (of_int 0)
  else
    a <- binomialCoefficient K k ;;
    b <- binomialCoefficient (N - K) (n - k) ;;
    let numerator := mul a b in
    denominator <- binomialCoefficient N n ;;
    if strict_eq denominator (of_int 0) then ret (of_int 0)
    else emit Op_divide ;;; ret (div numerator denominator).

(** The computing part of [renderChart]: the loop
    [for (let k = 0; k <= maxK; k++)] that fills [probabilities] and
    tracks [maxProb].  The bars are drawn from these two values. *)
Fixpoint renderChart_loop (fuel : nat) (N K n maxK k : Z)
         (probabilities : list num) (maxProb : num)
  : traced (list num * num) :=
  match fuel with
  | O => ret (probabilities, maxProb)
  | S fuel' =>
      if k <=? maxK then
        p <- hypergeometric N K n k ;;
        renderChart_loop fuel' N K n maxK (k + 1)
          (probabilities ++ [p])
          (if lt maxProb p then p else maxProb)
      else ret (probabilities, maxProb)
  end.

Definition renderChart (N K n : Z) : traced (list num * num) :=
  let maxK := Z.min K n in
  renderChart_loop (Z.to_nat (maxK + 1)) N K n maxK 0 [] (of_int 0).

Record Summary : Type := {
  pWhiff : num;
  pExactlyOne : num;
  pAtLeastOne : num;
  pTwoOrMore : num;
  pWhiffTwice : num
}.

(** What [calculateAll] writes to the page: the remaining deck size, and
    either the error messages or the five statistics and the chart. *)
Inductive Page : Type :=
| Errors (remainingDeck : Z) (errors : list string)
| Results (remainingDeck : Z) (s : Summary) (chart : list num * num).

Definition effectiveDeck (i : Inputs) : Z := deckSize i - turn i * 2.

Definition validate (i : Inputs) : list string :=
  let N := effectiveDeck i in
  (if deckSize i <? 1 then ["Deck size must be at least 1"%string] else []) ++
  (if N <? 1 then ["Deck size minus turn must be at least 1"%string] else []) ++
  (if N <? sampleSize i then ["Sample size cannot exceed remaining deck"%string] else []) ++
  (if deckSize i <? targets i then ["Targets cannot exceed deck size"%string] else []) ++
  (if N <? targets i then ["Targets cannot exceed remaining deck"%string] else []).

Definition calculateAll (i : Inputs) : traced Page :=
  let N := effectiveDeck i in
  let errors := validate i in
  if (0 <? List.length errors)%nat then ret (Errors N errors)
  else
    whiff <- hypergeometric N (targets i) (sampleSize i) 0 ;;
    exactlyOne <- hypergeometric N (targets i) (sampleSize i) 1 ;;
    let atLeastOne := sub (of_int 1) whiff in
    let twoOrMore := sub (sub (of_int 1) whiff) exactlyOne in
    let whiffTwice := mul whiff whiff in
    chart <- renderChart N (targets i) (sampleSize i) ;;
    ret (Results N
           {| pWhiff := whiff;
              pExactlyOne := exactlyOne;
              pAtLeastOne := atLeastOne;
              pTwoOrMore := twoOrMore;
              pWhiffTwice := whiffTwice |}
           chart).

End Script.

(** The guard of [hypergeometric], as the script writes it. *)
Definition out_of_support (N K n k : Z) : bool :=
  (k <? 0) || (Z.min K n <? k) || (k <? Z.max 0 (n - (N - K))).

(** Which of the five validation tests of [calculateAll] fail. *)
Definition validation_fails (i : Inputs) : Prop :=
  deckSize i < 1 \/ effectiveDeck i < 1 \/ effectiveDeck i < sampleSize i \/
  deckSize i < targets i \/ effectiveDeck i < targets i.

Arguments Summary : clear implicits.
Arguments Page : clear implicits.

(** The factorial, as an integer. *)
Fixpoint Zfact (n : nat) : Z :=
  match n with
  | O => 1
  | S m => Z.of_nat (S m) * Zfact m
  end.

(** ** IEEE 754 binary64 Numbers

    The arithmetic a JavaScript engine performs.  [+ - * /], [<] and [===]
    are the binary64 operations of the kernel's primitive floats;
    [Math.round] is defined below from its ECMA-262 description; [Math.log]
    and [Math.exp] are parameters of the instance, because the standard
    only asks them to approximate the real functions. *)

Module Float64.

(** An integer as a Number: the nearest binary64 value (exact below 2^53). *)
Definition of_Z (z : Z) : float :=
  SF2Prim (binary_normalize prec emax z 0 false).

(** ECMA-262 [Math.round]: a value that is not finite or already integral
    is returned as is; otherwise the nearest integer, the larger one in a
    tie, keeping the sign of [x] when the result is zero. *)
Definition round (x : float) : float :=
  match Prim2SF x with
  | S754_finite s m e =>
      if 0 <=? e then x
      else
        let d := 2 ^ (- e) in
        let sm := if s then Z.neg m else Z.pos m in
        let r := (2 * sm + d) / (2 * d) in
        if r =? 0 then (if s then neg_zero else zero) else of_Z r
  | _ => x
  end.

Definition number (log exp : float -> float) : Number float := {|
  of_int := of_Z;
  add := PrimFloat.add;
  sub := PrimFloat.sub;
  mul := PrimFloat.mul;
  div := PrimFloat.div;
  lt := PrimFloat.ltb;
  strict_eq := PrimFloat.eqb;
  Math_log := log;
  Math_exp := exp;
  Math_round := round
|}.

(** [a <= x <= b] as the engine tests it (false as soon as [x] is NaN). *)
Definition between (a b x : float) : bool :=
  PrimFloat.leb a x && PrimFloat.leb x b.

(** [|x - c| <= eps], again as the engine would test it. *)
Definition within (eps c x : float) : bool :=
  PrimFloat.leb (PrimFloat.abs (PrimFloat.sub x c)) eps.

End Float64.

(** ** A reference platform

    One admissible pair [Math.log], [Math.exp], accurate to about one unit
    in the last place, used to run the script on concrete inputs.  Both
    follow the textbook scheme: reduce the argument with [ln 2] split in a
    high and a low part, then sum a short power series. *)

Module Reference.

Local Open Scope float_scope.

Definition ln2_hi : float := 0x1.62e42fee00000p-1.
Definition ln2_lo : float := 0x1.a39ef35793c76p-33.
Definition inv_ln2 : float := 0x1.71547652b82fep+0.
Definition sqrt_half : float := 0x1.6a09e667f3bcdp-1.

(** [c0 + z (c1 + z (c2 + ...))] *)
Definition horner (coefficients : list float) (z : float) : float :=
  fold_right (fun c acc => c + z * acc) 0 coefficients.

(** The integer a finite integral float stands for (0 otherwise). *)
Definition to_Z (x : float) : Z :=
  match Prim2SF x with
  | S754_finite s m e =>
      let a := (if 0 <=? e then Z.pos m * 2 ^ e else Z.pos m / 2 ^ (- e))%Z in
      if s then (- a)%Z else a
  | _ => 0%Z
  end.

(** [1 / (2 j + 1)] for [j = 0 .. 13]: the series of [atanh]. *)
Definition atanh_coefficients : list float :=
  map (fun j => 1 / Float64.of_Z (2 * Z.of_nat j + 1)) (seq 0 14).

(** [1 / j!] for [j = 0 .. 14]: the series of [exp]. *)
Definition exp_coefficients : list float :=
  map (fun j => 1 / Float64.of_Z (Zfact j)) (seq 0 15).

Definition log (x : float) : float :=
  if is_nan x || (x <? 0) then nan
  else if x =? 0 then neg_infinity
  else if x =? infinity then infinity
  else
    let (m, e) := Z.frexp x in
    let '(m, e) := if m <? sqrt_half then (m * 2, (e - 1)%Z) else (m, e) in
    let s := (m - 1) / (m + 1) in
    let t := 2 * s * horner atanh_coefficients (s * s) in
    let k := Float64.of_Z e in
    k * ln2_hi + (k * ln2_lo + t).

Definition exp (x : float) : float :=
  if is_nan x then nan
  else if 0x1.62e42fefa39efp+9 <? x then infinity
  else if x <? -746 then 0
  else
    let k := Float64.round (x * inv_ln2) in
    let r := (x - k * ln2_hi) - k * ln2_lo in
    Z.ldexp (horner exp_coefficients r) (to_Z k).

Definition number : Number float := Float64.number log exp.

End Reference.

(** ** Exact Numbers

    The same script read over the real numbers: [Math.log] is the natural
    logarithm, [Math.exp] the exponential, and no operation rounds.  This
    is the arithmetic in which the formulas of the script are the textbook
    ones. *)

Module Exact.

Local Open Scope R_scope.

(** [Math.round]: the nearest integer, the larger one in a tie. *)
Definition round (x : R) : R := IZR (Int_part (x + / 2)).

Definition ltb (a b : R) : bool := if Rlt_dec a b then true else false.
Definition eqb (a b : R) : bool := if Req_dec_T a b then true else false.

Definition number : Number R := {|
  of_int := IZR;
  add := Rplus;
  sub := Rminus;
  mul := Rmult;
  div := Rdiv;
  lt := ltb;
  strict_eq := eqb;
  Math_log := ln;
  Math_exp := exp;
  Math_round := round
|}.

End Exact.

(** ** Mathematical yardsticks

    Definitions that belong to the statements, not to the script: the
    binomial coefficient by Pascal's rule, the factorial, integer ranges
    and sums over them. *)

Fixpoint choose (n k : nat) : Z :=
  match n, k with
  | _, O => 1
  | O, S _ => 0
  | S n', S k' => choose n' k' + choose n' k
  end.

(** [C(n, k)] for integers, zero outside [0 <= k <= n]. *)
Definition binomial (n k : Z) : Z :=
  if (k <? 0) || (n <? k) then 0 else choose (Z.to_nat n) (Z.to_nat k).

(** [f 0 + f 1 + ... + f n]. *)
Fixpoint sum_to (f : nat -> Z) (n : nat) : Z :=
  match n with
  | O => f O
  | S m => sum_to f m + f (S m)
  end.

(** The sum of a list of integers. *)
Definition Zsum (l : list Z) : Z := fold_right Z.add 0 l.

(** The integers [start, start + 1, ..., start + len - 1]. *)
Fixpoint Zrange (start : Z) (len : nat) : list Z :=
  match len with
  | O => []
  | S len' => start :: Zrange (start + 1) len'
  end.

(** [k = 0 .. min(K, n)], the indices of the distribution vector. *)
Definition support_indices (K n : Z) : list Z :=
  Zrange 0 (Z.to_nat (Z.min K n + 1)).

(** The sum of a list of Numbers, added left to right from 0. *)
Definition total {num : Type} {NUM : Number num} (l : list num) : num :=
  fold_left add l (of_int 0).

(** One step of the maximum tracking of [renderChart]:
    [if (p > maxProb) maxProb = p]. *)
Definition track_max {num : Type} {NUM : Number num} (maxProb p : num) : num :=
  if lt maxProb p then p else maxProb.

(** The five statistics a page shows, when it shows any. *)
Definition statistics {num : Type} (p : Page num) : option (Summary num) :=
  match p with
  | Results _ s _ => Some s
  | Errors _ _ => None
  end.

(** Is [binomialCoefficient n k] on the reference platform the binomial
    coefficient, and equal to [binomialCoefficient n (n - k)], for every
    [0 <= k <= n <= bound]?  ([C(n, k)] is computed from factorials.) *)
Definition reference_binomials_exact (bound : nat) : bool :=
  forallb
    (fun n =>
       forallb
         (fun k =>
            PrimFloat.eqb
              (value (binomialCoefficient (NUM := Reference.number) n k))
              (Float64.of_Z
                 (Zfact (Z.to_nat n) /
                  (Zfact (Z.to_nat k) * Zfact (Z.to_nat (n - k))))) &&
            PrimFloat.eqb
              (value (binomialCoefficient (NUM := Reference.number) n k))
              (value (binomialCoefficient (NUM := Reference.number) n (n - k))))
         (Zrange 0 (Z.to_nat n + 1)))
    (Zrange 0 (bound + 1)).

(** ** Presentation

    The rest of the script turns Numbers into what the page shows: a
    percentage with two decimals for each statistic ([formatPercent]), and
    for each entry of the distribution a bar with a height, a colour
    ([getProbabilityColor]) and two labels (the second half of
    [renderChart]).

    This code uses a few more built-ins.  [Math.min], [Math.max] and the
    literal [0.5] are numeric and join the operations of [Number] in the
    class [Presentation]; [isNaN], [isFinite], [toFixed] and the conversion
    of a Number to a string, which only make sense for the engine's
    Numbers, form the class [Text]. *)

Class Presentation (num : Type) : Type := {
  half : num;                          (* the literal 0.5 *)
  Math_min : num -> num -> num;
  Math_max : num -> num -> num
}.

Class Text (num : Type) : Type := {
  isNaN : num -> bool;
  isFinite : num -> bool;
  toFixed : nat -> num -> string;      (* x.toFixed(fractionDigits) *)
  toString : num -> string             (* x + '...' and `${x}` *)
}.

(** The decimal digits of a non-negative integer, as JavaScript prints an
    array index or a count. *)
Definition digit (d : Z) : ascii := ascii_of_nat (48 + Z.to_nat d).

Fixpoint decimal_loop (fuel : nat) (n : Z) (acc : string) : string :=
  match fuel with
  | O => acc
  | S fuel' =>
      let acc' := String (digit (n mod 10)) acc in
      if n / 10 =? 0 then acc' else decimal_loop fuel' (n / 10) acc'
  end.

(** A number below [2^(b+1)] has at most [b + 1] decimal digits. *)
Definition decimal (n : Z) : string :=
  decimal_loop (S (Z.to_nat (Z.log2 n))) n EmptyString.

(** An integer as text, with its sign: what the conversion of a Number to
    a string gives for a safe integer. *)
Definition integer_text (z : Z) : string :=
  if z <? 0 then ("-" ++ decimal (- z))%string else decimal z.

(** The three channels of a colour. *)
Module Color.

Record t (num : Type) : Type := { r : num; g : num; b : num }.

Arguments r {num} _.
Arguments g {num} _.
Arguments b {num} _.

End Color.

(** One bar of the chart: the two texts [renderChart] sets and the two
    strings it assigns to the style of the fill.  The assigned strings are
    recorded as they are; an element keeps one only if it is valid CSS
    ([rgb(NaN, NaN, NaN)] and [NaN%] are not). *)
Record Bar : Type := {
  valueLabel : string;                 (* valueLabel.textContent = ... *)
  barFill_height : string;             (* barFill.style.height = ... *)
  barFill_backgroundColor : string;    (* barFill.style.backgroundColor = ... *)
  label : string                       (* label.textContent = ... *)
}.

(** The elements of the page that [calculateAll] writes. *)
Module Screen.

Record t : Type := {
  remainingDeck : string;
  turnDisplay : string;
  error : string;
  error_visible : bool;
  pWhiff : string;
  pExactlyOne : string;
  pAtLeastOne : string;
  pTwoOrMore : string;
  pWhiffTwice : string;
  chart : list Bar
}.

End Screen.

Section Showing.

Context {num : Type} {NUM : Number num} {PRES : Presentation num}.

(** The channels [r], [g], [b] that [getProbabilityColor] computes. *)
Definition probabilityColor (probability : num) : Color.t num :=
  let p := Math_max (of_int 0) (Math_min (of_int 1) probability) in
  if lt p half then
    let t := mul p (of_int 2) in
    {| Color.r := of_int 255;
       Color.g := Math_round (mul (of_int 200) t);
       Color.b := of_int 50 |}
  else
    let t := mul (sub p half) (of_int 2) in
    {| Color.r := Math_round (mul (of_int 255) (sub (of_int 1) t));
       Color.g := Math_round (add (of_int 200) (mul (of_int 55) t));
       Color.b := Math_round (add (of_int 50) (mul (of_int 50) t)) |}.

(** [maxProb > 0 ? (p / maxProb) * 100 : 0] *)
Definition heightPercent (maxProb p : num) : num :=
  if lt (of_int 0) maxProb then mul (div p maxProb) (of_int 100)
  else of_int 0.

Context {TXT : Text num}.

Local Open Scope string_scope.

Definition formatPercent (v : num) : string :=
  if isNaN v || negb (isFinite v) then "-"
  else toFixed 2 (mul v (of_int 100)) ++ "%".

(** [`rgb(${r}, ${g}, ${b})`] *)
Definition getProbabilityColor (probability : num) : string :=
  let c := probabilityColor probability in
  "rgb(" ++ toString (Color.r c) ++ ", " ++ toString (Color.g c) ++ ", "
         ++ toString (Color.b c) ++ ")".

(** [probabilities.forEach((p, k) => ...)], from index [k] on. *)
Fixpoint renderBars (maxProb : num) (k : nat) (probabilities : list num)
  : list Bar :=
  match probabilities with
  | [] => []
  | p :: rest =>
      {| valueLabel := toFixed 1 (mul p (of_int 100)) ++ "%";
         barFill_height := toString (heightPercent maxProb p) ++ "%";
         barFill_backgroundColor := getProbabilityColor p;
         label := decimal (Z.of_nat k) |}
      :: renderBars maxProb (S k) rest
  end.

(** What [calculateAll] writes to the page once it has produced [page]:
    the texts it sets and, for each bar, the style values it assigns.
    The remaining deck and the turn are Numbers converted to text; for
    safe integers these are their decimal digits. *)
Definition display (i : Inputs) (page : Page num) : Screen.t :=
  match page with
  | Errors N errors =>
      {| Screen.remainingDeck := integer_text N;
         Screen.turnDisplay := integer_text (turn i);
         Screen.error := String.concat ". " errors;
         Screen.error_visible := true;
         Screen.pWhiff := "-";
         Screen.pExactlyOne := "-";
         Screen.pAtLeastOne := "-";
         Screen.pTwoOrMore := "-";
         Screen.pWhiffTwice := "-";
         Screen.chart := [] |}
  | Results N s (probabilities, maxProb) =>
      {| Screen.remainingDeck := integer_text N;
         Screen.turnDisplay := integer_text (turn i);
         Screen.error := "";
         Screen.error_visible := false;
         Screen.pWhiff := formatPercent (pWhiff s);
         Screen.pExactlyOne := formatPercent (pExactlyOne s);
         Screen.pAtLeastOne := formatPercent (pAtLeastOne s);
         Screen.pTwoOrMore := formatPercent (pTwoOrMore s);
         Screen.pWhiffTwice := formatPercent (pWhiffTwice s);
         Screen.chart := renderBars maxProb 0 probabilities |}
  end.

(** The page after [calculateAll] has run on the inputs [i]. *)
Definition screen (i : Inputs) : Screen.t := display i (value (calculateAll i)).

End Showing.

(** ** The presentation built-ins in binary64 *)

Module Float64Text.

(** Is [x] the value [-0] (resp. [+0])? *)
Definition is_neg_zero (x : float) : bool :=
  match Prim2SF x with S754_zero true => true | _ => false end.

Definition is_pos_zero (x : float) : bool :=
  match Prim2SF x with S754_zero false => true | _ => false end.

(** ECMA-262 [Math.min]: starting from [+Infinity], a NaN argument makes
    the result NaN; otherwise an argument replaces the lowest value so far
    when it is smaller, [-0] counting as smaller than [+0]. *)
Definition min_step (lowest number : float) : float :=
  if is_neg_zero number && is_pos_zero lowest then number
  else if PrimFloat.ltb number lowest then number
  else lowest.

Definition min (a b : float) : float :=
  if is_nan a then nan
  else if is_nan b then nan
  else min_step (min_step infinity a) b.

(** ECMA-262 [Math.max], the mirror image, starting from [-Infinity]. *)
Definition max_step (highest number : float) : float :=
  if is_pos_zero number && is_neg_zero highest then number
  else if PrimFloat.ltb highest number then number
  else highest.

Definition max (a b : float) : float :=
  if is_nan a then nan
  else if is_nan b then nan
  else max_step (max_step neg_infinity a) b.

Definition presentation : Presentation float := {|
  half := 0.5%float;
  Math_min := min;
  Math_max := max
|}.

(** A finite nonzero float is [m * 2^e] up to sign.  Is it an integer
    below [2^53] in magnitude? *)
Definition is_small_integer (m : positive) (e : Z) : bool :=
  if 0 <=? e then Z.pos m * 2 ^ e <? 2 ^ 53
  else Z.pos m mod 2 ^ (- e) =? 0.

Definition integer_magnitude (m : positive) (e : Z) : Z :=
  if 0 <=? e then Z.pos m * 2 ^ e else Z.pos m / 2 ^ (- e).

(** ECMA-262 [Number::toString] in radix 10.  An integer below [2^53] is
    printed digit by digit.  The other finite values are printed with the
    shortest digit string that reads back as the same Number; that
    algorithm is the parameter [shortest], applied to the magnitude. *)
Definition Number_toString (shortest : float -> string) (x : float) : string :=
  match Prim2SF x with
  | S754_nan => "NaN"
  | S754_zero _ => "0"
  | S754_infinity s => if s then "-Infinity" else "Infinity"
  | S754_finite s m e =>
      ((if s then "-" else "") ++
       (if is_small_integer m e then decimal (integer_magnitude m e)
        else shortest (PrimFloat.abs x)))%string
  end.

(** Is [m * 2^e >= 10^21]? *)
Definition at_least_1e21 (m : positive) (e : Z) : bool :=
  if 0 <=? e then 10 ^ 21 <=? Z.pos m * 2 ^ e
  else 10 ^ 21 * 2 ^ (- e) <=? Z.pos m.

(** The integer [n] for which [n / 10^f - m * 2^e] is as close to zero as
    possible, the larger one if there are two. *)
Definition nearest_scaled (f : nat) (m : positive) (e : Z) : Z :=
  let scaled := Z.pos m * 10 ^ Z.of_nat f in
  if 0 <=? e then scaled * 2 ^ e
  else (2 * scaled + 2 ^ (- e)) / (2 * 2 ^ (- e)).

Fixpoint zeros (count : nat) : string :=
  match count with
  | O => EmptyString
  | S count' => String "0" (zeros count')
  end.

(** The digits of [n] with a decimal point before the last [f] of them,
    padded with zeros on the left to [f + 1] digits. *)
Definition fixed_notation (f : nat) (n : Z) : string :=
  let m := decimal n in
  if (f =? 0)%nat then m
  else
    let k := String.length m in
    let m := if (k <=? f)%nat then (zeros (f + 1 - k) ++ m)%string else m in
    let k := if (k <=? f)%nat then (f + 1)%nat else k in
    (substring 0 (k - f) m ++ "." ++ substring (k - f) f m)%string.

(** ECMA-262 [Number.prototype.toFixed]. *)
Definition Number_toFixed (shortest : float -> string) (fractionDigits : nat)
           (x : float) : string :=
  match Prim2SF x with
  | S754_nan | S754_infinity _ => Number_toString shortest x
  | S754_zero _ => fixed_notation fractionDigits 0
  | S754_finite s m e =>
      ((if s then "-" else "") ++
       (if at_least_1e21 m e then Number_toString shortest (PrimFloat.abs x)
        else fixed_notation fractionDigits (nearest_scaled fractionDigits m e)))%string
  end.

Definition text (shortest : float -> string) : Text float := {|
  isNaN := PrimFloat.is_nan;
  isFinite := PrimFloat.is_finite;
  toFixed := Number_toFixed shortest;
  toString := Number_toString shortest
|}.

End Float64Text.

(** ** The presentation in exact arithmetic *)

Module ExactPresentation.

Definition presentation : Presentation R := {|
  half := (/ 2)%R;
  Math_min := Rmin;
  Math_max := Rmax
|}.

End ExactPresentation.

(** ** Yardsticks for the presentation *)

(** The last [f] decimal digits of [n], with leading zeros. *)
Fixpoint last_digits (f : nat) (n : Z) : string :=
  match f with
  | O => EmptyString
  | S f' => (last_digits f' (n / 10) ++ String (digit (n mod 10)) EmptyString)%string
  end.

(** The real number a finite binary64 value stands for (0 for the others). *)
Definition real_value (x : float) : R :=
  match Prim2SF x with
  | S754_finite s m e =>
      ((if s then - IZR (Z.pos m) else IZR (Z.pos m)) * powerRZ 2 e)%R
  | _ => 0%R
  end.

(** [Math.max(0, Math.min(1, p))] over the reals. *)
Definition clamp (p : R) : R := Rmax 0 (Rmin 1 p).

(** ** The document as the script changes it

    [screen] above describes the page as a function of the inputs.  The
    script itself does not build a page: it assigns to properties of
    elements that already hold whatever an earlier run left there.  The
    model below follows these assignments one by one on a record with one
    field for each property the script writes, holding the value last
    assigned to it. *)

Module Document.

(** A [div.chart-bar]: the text of its value label and the two values
    last assigned to the style of its fill. *)
Record bar : Type := {
  valueLabel_textContent : string;
  barFill_style_height : string;
  barFill_style_backgroundColor : string
}.

Record t : Type := {
  error : string;                      (* #error, textContent *)
  error_visible : bool;                (* #error has the class [visible] *)
  remainingDeck : string;
  turnDisplay : string;
  pWhiff : string;
  pExactlyOne : string;
  pAtLeastOne : string;
  pTwoOrMore : string;
  pWhiffTwice : string;
  chart : list bar;                    (* the children of #chart *)
  chartLabels : list string            (* the children of #chartLabels *)
}.















End Document.

Section Mutation.

Context {num : Type} {NUM : Number num} {PRES : Presentation num}
        {TXT : Text num}.

Local Open Scope traced_scope.
Local Open Scope string_scope.





End Mutation.

(** ** Reading the fields

    [calculateAll] reads each of its four inputs with
    [parseInt(element.value) || 0].  A JavaScript string is a sequence of
    16-bit code units, modelled as a list of integers.  [parseInt] follows
    its description in ECMA-262 for an undefined radix; for more than 20
    significant digits the standard lets an engine replace the digits
    after the 20th by zeros, and the model keeps them.

    The rest of the model works with integers.  A field is therefore read
    as an integer only when the Number that [parseInt(...) || 0] yields is
    an integer below [2^53] in magnitude; outside that range the model
    says nothing. *)

Module Field.

(** White space and line terminators, as [TrimString] removes them. *)
Definition is_white_space (c : Z) : bool :=
  (c =? 9) || (c =? 10) || (c =? 11) || (c =? 12) || (c =? 13) ||
  (c =? 32) || (c =? 160) || (c =? 5760) ||
  ((8192 <=? c) && (c <=? 8202)) ||
  (c =? 8232) || (c =? 8233) || (c =? 8239) || (c =? 8287) ||
  (c =? 12288) || (c =? 65279).

Fixpoint trim_start (S : list Z) : list Z :=
  match S with
  | c :: rest => if is_white_space c then trim_start rest else S
  | [] => []
  end.

(** A leading [+] or [-] is removed. *)
Definition strip_sign (S : list Z) : list Z :=
  match S with
  | c :: rest => if (c =? 43) || (c =? 45) then rest else S
  | [] => S
  end.

(** Does [S] begin with [0x] or [0X]? *)
Definition hex_prefix (S : list Z) : bool :=
  match S with
  | c :: x :: _ => (c =? 48) && ((x =? 120) || (x =? 88))
  | _ => false
  end.

(** The value of a code unit as a digit in radix [R], if it is one. *)
Definition digit_value (R c : Z) : option Z :=
  let v :=
    if (48 <=? c) && (c <=? 57) then Some (c - 48)
    else if (97 <=? c) && (c <=? 122) then Some (c - 87)
    else if (65 <=? c) && (c <=? 90) then Some (c - 55)
    else None in
  match v with
  | Some d => if d <? R then Some d else None
  | None => None
  end.

(** The digits of [S] up to the first code unit that is not a radix-[R]
    digit. *)
Fixpoint radix_prefix (R : Z) (S : list Z) : list Z :=
  match S with
  | c :: rest =>
      match digit_value R c with
      | Some d => d :: radix_prefix R rest
      | None => []
      end
  | [] => []
  end.

(** The integer that a list of digits represents in radix [R]. *)
Definition radix_value (R : Z) (digits : list Z) : Z :=
  fold_left (fun a d => R * a + d) digits 0.

Definition parseInt (string : list Z) : float :=
  let S := trim_start string in
  let sign := match S with c :: _ => if c =? 45 then -1 else 1 | [] => 1 end in
  let S := strip_sign S in
  let stripPrefix := hex_prefix S in
  let S := if stripPrefix then skipn 2 S else S in
  let R := if stripPrefix then 16 else 10 in
  match radix_prefix R S with
  | [] => nan
  | digits =>
      let mathInt := radix_value R digits in
      if mathInt =? 0 then (if sign =? -1 then neg_zero else zero)
      else Float64.of_Z (sign * mathInt)
  end.

(** [x || 0]: NaN, [+0] and [-0] are falsy. *)
Definition or_0 (x : float) : float :=
  if is_nan x || is_zero x then 0%float else x.

(** The integer a Number stands for, when it is one below [2^53]. *)
Definition as_integer (x : float) : option Z :=
  match Prim2SF x with
  | S754_zero _ => Some 0
  | S754_finite s m e =>
      if Float64Text.is_small_integer m e
      then Some (if s then - Float64Text.integer_magnitude m e
                 else Float64Text.integer_magnitude m e)
      else None
  | _ => None
  end.

(** [parseInt(value) || 0] *)
Definition read (value : list Z) : option Z :=
  as_integer (or_0 (parseInt value)).

(** The code units of a text of the model. *)
Definition code_units (s : string) : list Z :=
  map (fun c => Z.of_nat (nat_of_ascii c)) (list_ascii_of_string s).

(** Does [S] begin with a decimal digit? *)
Definition starts_with_digit (S : list Z) : bool :=
  match S with
  | c :: _ => (48 <=? c) && (c <=? 57)
  | [] => false
  end.

End Field.

(** The [value] of the four [input] elements. *)
Record Fields : Type := {
  deckSize_value : list Z;
  turn_value : list Z;
  sampleSize_value : list Z;
  targets_value : list Z
}.

Definition readInputs (f : Fields) : option Inputs :=
  match Field.read (deckSize_value f), Field.read (turn_value f),
        Field.read (sampleSize_value f), Field.read (targets_value f) with
  | Some d, Some t, Some s, Some k =>
      Some {| deckSize := d; turn := t; sampleSize := s; targets := k |}
  | _, _, _, _ => None
  end.

(** ** The script with nothing but Numbers

    The model above keeps the integers of the script in [Z].  The engine
    has only Numbers: [N - K], [n - k], [n - (N - K)], [turn*2], the loop
    counters and every comparison are binary64 operations as well, and the
    remaining deck is printed as a Number.  The definitions below read the
    script in that way, every value a binary64 Number.  The two readings
    agree as long as the integers involved are safe integers (below 2^53
    in magnitude); beyond, the integer reading is not the script any more,
    and what the script does is what this reading says.

    A loop whose counter is a Number need not end: [i++] leaves 2^53
    unchanged.  The loops therefore take fuel, and a function returns
    [None] when the fuel runs out before the exit test succeeds. *)

(** The integers that binary64 arithmetic treats exactly
    ([Number.isSafeInteger]). *)
Definition safe_integer (z : Z) : Prop := Z.abs z < 2 ^ 53.

(** The arguments of [hypergeometric] for which the test of line 28 is
    computed exactly. *)
Definition safe_arguments (N K n k : Z) : Prop :=
  safe_integer N /\ safe_integer K /\ safe_integer n /\ safe_integer k /\
  safe_integer (N - K) /\ safe_integer (n - (N - K)).

(** The inputs for which [turn*2] and [deckSize - turn*2] are computed
    exactly. *)
Definition safe_inputs (i : Inputs) : Prop :=
  safe_integer (deckSize i) /\ safe_integer (turn i) /\
  safe_integer (sampleSize i) /\ safe_integer (targets i) /\
  safe_integer (turn i * 2) /\ safe_integer (deckSize i - turn i * 2).

Module Machine.

Inductive event : Type :=
| Call_logFactorial (n : float)
| Call_binomialCoefficient (n k : float)
| Call_hypergeometric (N K n k : float)
| Op_divide.

(** A computation that records its calls and may run out of fuel. *)
Definition run (A : Type) : Type := option (A * list event).

Definition ret {A : Type} (a : A) : run A := Some (a, []).

Definition bind {A B : Type} (m : run A) (f : A -> run B) : run B :=
  match m with
  | None => None
  | Some (a, t1) =>
      match f a with
      | None => None
      | Some (b, t2) => Some (b, t1 ++ t2)
      end
  end.

Definition emit (e : event) : run unit := Some (tt, [e]).

Definition lift {A : Type} (o : option A) : run A :=
  match o with
  | Some a => ret a
  | None => None
  end.

Declare Scope run_scope.
Delimit Scope run_scope with run.
Notation "x <- m ;; k" := (bind m (fun x => k))
  (at level 61, m at next level, right associativity) : run_scope.
Notation "m ;;; k" := (bind m (fun _ => k))
  (at level 61, right associativity) : run_scope.

(** The four Numbers read from the page ([parseInt(...) || 0]). *)
Record Inputs : Type := {
  deckSize : float;
  turn : float;
  sampleSize : float;
  targets : float
}.

Inductive Page : Type :=
| Errors (remainingDeck : float) (errors : list string)
| Results (remainingDeck : float) (s : Summary float)
          (chart : list float * float).

Section Script.

Variables log exp : float -> float.

Local Open Scope float_scope.
Local Open Scope run_scope.

(** [for (let i = 2; i <= n; i++) result += Math.log(i);] *)
Fixpoint logFactorial_loop (fuel : nat) (n i result : float) : option float :=
  match fuel with
  | O => None
  | S fuel' =>
      if i <=? n
      then logFactorial_loop fuel' n (i + 1) (result + log i)
      else Some result
  end.

Definition logFactorial (fuel : nat) (n : float) : run float :=
  emit (Call_logFactorial n) ;;;
  if n <=? 1 then ret 0
  else lift (logFactorial_loop fuel n 2 0).

Definition binomialCoefficient (fuel : nat) (n k : float) : run float :=
  emit (Call_binomialCoefficient n k) ;;;
  if (k <? 0) || (n <? k) then ret 0
  else if (k =? 0) || (k =? n) then ret 1
  else
    ln <- logFactorial fuel n ;;
    lk <- logFactorial fuel k ;;
    lnk <- logFactorial fuel (n - k) ;;
    let logResult := ln - lk - lnk in
    ret (Float64.round (exp logResult)).

(** The test of line 28:
    [k < 0 || k > Math.min(K, n) || k < Math.max(0, n - (N - K))]. *)
Definition out_of_support (N K n k : float) : bool :=
  (k <? 0) || (Float64Text.min K n <? k) ||
  (k <? Float64Text.max 0 (n - (N - K))).

Definition hypergeometric (fuel : nat) (N K n k : float) : run float :=
  emit (Call_hypergeometric N K n k) ;;;
  if out_of_support N K n k then ret 0
  else
    a <- binomialCoefficient fuel K k ;;
    b <- binomialCoefficient fuel (N - K) (n - k) ;;
    let numerator := a * b in
    denominator <- binomialCoefficient fuel N n ;;
    if denominator =? 0 then ret 0
    else emit Op_divide ;;; ret (numerator / denominator).

(** [for (let k = 0; k <= maxK; k++)], with [rounds] of fuel for the loop
    itself and [fuel] for each call of [hypergeometric]. *)
Fixpoint renderChart_loop (fuel rounds : nat) (N K n maxK k : float)
         (probabilities : list float) (maxProb : float)
  : run (list float * float) :=
  match rounds with
  | O => None
  | S rounds' =>
      if k <=? maxK then
        p <- hypergeometric fuel N K n k ;;
        renderChart_loop fuel rounds' N K n maxK (k + 1)
          (probabilities ++ [p])
          (if maxProb <? p then p else maxProb)
      else ret (probabilities, maxProb)
  end.

Definition renderChart (fuel : nat) (N K n : float)
  : run (list float * float) :=
  let maxK := Float64Text.min K n in
  renderChart_loop fuel fuel N K n maxK 0 [] 0.

(** [const N = deckSize - turn*2;] *)
Definition effectiveDeck (i : Inputs) : float := deckSize i - turn i * 2.

Definition validate (i : Inputs) : list string :=
  let N := effectiveDeck i in
  (if deckSize i <? 1 then ["Deck size must be at least 1"%string] else []) ++
  (if N <? 1 then ["Deck size minus turn must be at least 1"%string] else []) ++
  (if N <? sampleSize i then ["Sample size cannot exceed remaining deck"%string] else []) ++
  (if deckSize i <? targets i then ["Targets cannot exceed deck size"%string] else []) ++
  (if N <? targets i then ["Targets cannot exceed remaining deck"%string] else []).

Definition calculateAll (fuel : nat) (i : Inputs) : run Page :=
  let N := effectiveDeck i in
  let errors := validate i in
  if (0 <? List.length errors)%nat then ret (Errors N errors)
  else
    whiff <- hypergeometric fuel N (targets i) (sampleSize i) 0 ;;
    exactlyOne <- hypergeometric fuel N (targets i) (sampleSize i) 1 ;;
    let atLeastOne := 1 - whiff in
    let twoOrMore := 1 - whiff - exactlyOne in
    let whiffTwice := whiff * whiff in
    chart <- renderChart fuel N (targets i) (sampleSize i) ;;
    ret (Results N
           {| pWhiff := whiff;
              pExactlyOne := exactlyOne;
              pAtLeastOne := atLeastOne;
              pTwoOrMore := twoOrMore;
              pWhiffTwice := whiffTwice |}
           chart).

(** What [calculateAll] writes to the page.  [textContent = N] and
    [textContent = turn] convert a Number to a string. *)
Variable shortest : float -> string.

Local Abbreviation toText := (Float64Text.Number_toString shortest).
Local Abbreviation percent :=
  (formatPercent (NUM := Float64.number log exp)
                 (TXT := Float64Text.text shortest)).

Definition display (i : Inputs) (page : Page) : Screen.t :=
  match page with
  | Errors N errors =>
      {| Screen.remainingDeck := toText N;
         Screen.turnDisplay := toText (turn i);
         Screen.error := String.concat ". " errors;
         Screen.error_visible := true;
         Screen.pWhiff := "-";
         Screen.pExactlyOne := "-";
         Screen.pAtLeastOne := "-";
         Screen.pTwoOrMore := "-";
         Screen.pWhiffTwice := "-";
         Screen.chart := [] |}
  | Results N s (probabilities, maxProb) =>
      {| Screen.remainingDeck := toText N;
         Screen.turnDisplay := toText (turn i);
         Screen.error := "";
         Screen.error_visible := false;
         Screen.pWhiff := percent (pWhiff s);
         Screen.pExactlyOne := percent (pExactlyOne s);
         Screen.pAtLeastOne := percent (pAtLeastOne s);
         Screen.pTwoOrMore := percent (pTwoOrMore s);
         Screen.pWhiffTwice := percent (pWhiffTwice s);
         Screen.chart :=
           renderBars (NUM := Float64.number log exp)
                      (PRES := Float64Text.presentation)
                      (TXT := Float64Text.text shortest)
                      maxProb 0 probabilities |}
  end.

Definition screen (fuel : nat) (i : Inputs) : option Screen.t :=
  match calculateAll fuel i with
  | Some (page, _) => Some (display i page)
  | None => None
  end.

End Script.

End Machine.

(** Integers, calls and pages of the integer reading, as Numbers. *)
Definition inputs_as_Numbers (i : Inputs) : Machine.Inputs :=
  {| Machine.deckSize := Float64.of_Z (deckSize i);
     Machine.turn := Float64.of_Z (turn i);
     Machine.sampleSize := Float64.of_Z (sampleSize i);
     Machine.targets := Float64.of_Z (targets i) |}.

Definition event_as_Numbers (e : event) : Machine.event :=
  match e with
  | Call_logFactorial n => Machine.Call_logFactorial (Float64.of_Z n)
  | Call_binomialCoefficient n k =>
      Machine.Call_binomialCoefficient (Float64.of_Z n) (Float64.of_Z k)
  | Call_hypergeometric N K n k =>
      Machine.Call_hypergeometric (Float64.of_Z N) (Float64.of_Z K)
        (Float64.of_Z n) (Float64.of_Z k)
  | Op_divide => Machine.Op_divide
  end.

Definition page_as_Numbers (p : Page float) : Machine.Page :=
  match p with
  | Errors N errors => Machine.Errors (Float64.of_Z N) errors
  | Results N s chart => Machine.Results (Float64.of_Z N) s chart
  end.

(** The integer reading [t] and the all-Numbers reading [m] give the same
    result after the same calls. *)
Definition agree {A B : Type} (as_Numbers : A -> B)
           (m : Machine.run B) (t : traced A) : Prop :=
  m = Some (as_Numbers (value t), map event_as_Numbers (trace t)).

(** The exponent and the 53-bit mantissa of a positive integer below 2^53
    as a binary64 value. *)
Definition normal_exponent (m : positive) : Z := Z.pos (digits2_pos m) - 53.

Definition normal_mantissa (m : positive) : positive :=
  fst (shl_align m 0 (normal_exponent m)).

(** * Properties *)

(** ** The writer monad *)

Lemma value_bind {A B : Type} (m : traced A) (f : A -> traced B) :
  value (bind m f) = value (f (value m)).
Proof.
  unfold value, bind. destruct m as [a t1]. simpl. now destruct (f a).
Qed.

Lemma trace_bind {A B : Type} (m : traced A) (f : A -> traced B) :
  trace (bind m f) = trace m ++ trace (f (value m)).
Proof.
  unfold value, trace, bind. destruct m as [a t1]. simpl. now destruct (f a).
Qed.

Create Rewrite HintDb traced.
#[global] Hint Rewrite @value_bind @trace_bind : traced.

(** Runs the script on a concrete input. *)
Ltac run_script := vm_compute; reflexivity.

(** ** Control flow that holds for every kind of Number *)

Section AnyNumber.

Context {num : Type} {NUM : Number num}.

Lemma out_of_support_true (N K n k : Z) :
  out_of_support N K n k = true <->
  k < 0 \/ Z.min K n < k \/ k < Z.max 0 (n - (N - K)).
Proof.
  unfold out_of_support.
  rewrite !orb_true_iff, !Z.ltb_lt. tauto.
Qed.

Lemma out_of_support_false (N K n k : Z) :
  out_of_support N K n k = false <->
  0 <= k /\ k <= K /\ k <= n /\ n - k <= N - K.
Proof.
  unfold out_of_support.
  rewrite !orb_false_iff, !Z.ltb_ge. lia.
Qed.

Lemma hypergeometric_unfold (N K n k : Z) :
  hypergeometric N K n k =
  bind (emit (Call_hypergeometric N K n k)) (fun _ =>
    if out_of_support N K n k then ret (of_int 0)
    else
      bind (binomialCoefficient K k) (fun a =>
      bind (binomialCoefficient (N - K) (n - k)) (fun b =>
      bind (binomialCoefficient N n) (fun denominator =>
        if strict_eq denominator (of_int 0) then ret (of_int 0)
        else bind (emit Op_divide)
               (fun _ => ret (div (mul a b) denominator)))))).
Proof. reflexivity. Qed.

Lemma hypergeometric_short_circuit (N K n k : Z) :
  out_of_support N K n k = true ->
  hypergeometric N K n k = (of_int 0, [Call_hypergeometric N K n k]).
Proof.
  intros H. rewrite hypergeometric_unfold, H. reflexivity.
Qed.

(** What [hypergeometric] returns once the guard is passed. *)
Lemma hypergeometric_value_in_support (N K n k : Z) :
  out_of_support N K n k = false ->
  value (hypergeometric N K n k) =
  let a := value (binomialCoefficient K k) in
  let b := value (binomialCoefficient (N - K) (n - k)) in
  let denominator := value (binomialCoefficient N n) in
  if strict_eq denominator (of_int 0) then of_int 0
  else div (mul a b) denominator.
Proof.
  intros H. rewrite hypergeometric_unfold, H.
  rewrite !value_bind. cbv zeta.
  destruct (strict_eq _ _); reflexivity.
Qed.

Lemma binomialCoefficient_outside (n k : Z) :
  k < 0 \/ n < k ->
  binomialCoefficient n k = (of_int 0, [Call_binomialCoefficient n k]).
Proof.
  intros H. unfold binomialCoefficient.
  assert (E : (k <? 0) || (n <? k) = true).
  { rewrite orb_true_iff, !Z.ltb_lt. exact H. }
  rewrite E. reflexivity.
Qed.

Lemma binomialCoefficient_base (n k : Z) :
  0 <= k <= n -> k = 0 \/ k = n ->
  binomialCoefficient n k = (of_int 1, [Call_binomialCoefficient n k]).
Proof.
  intros Hr H. unfold binomialCoefficient.
  assert (E1 : (k <? 0) || (n <? k) = false).
  { rewrite orb_false_iff, !Z.ltb_ge. lia. }
  assert (E2 : (k =? 0) || (k =? n) = true).
  { rewrite orb_true_iff, !Z.eqb_eq. exact H. }
  rewrite E1, E2. reflexivity.
Qed.

Lemma binomialCoefficient_value_inside (n k : Z) :
  0 < k < n ->
  value (binomialCoefficient n k) =
  Math_round (Math_exp
    (sub (sub (value (logFactorial n)) (value (logFactorial k)))
         (value (logFactorial (n - k))))).
Proof.
  intros H. unfold binomialCoefficient.
  assert (E1 : (k <? 0) || (n <? k) = false).
  { rewrite orb_false_iff, !Z.ltb_ge. lia. }
  assert (E2 : (k =? 0) || (k =? n) = false).
  { rewrite orb_false_iff, !Z.eqb_neq. lia. }
  rewrite value_bind, E1, E2, !value_bind. reflexivity.
Qed.

Lemma validate_nil (i : Inputs) :
  validate i = [] <-> ~ validation_fails i.
Proof.
  unfold validate, validation_fails. cbv zeta.
  destruct (Z.ltb_spec (deckSize i) 1);
    destruct (Z.ltb_spec (effectiveDeck i) 1);
    destruct (Z.ltb_spec (effectiveDeck i) (sampleSize i));
    destruct (Z.ltb_spec (deckSize i) (targets i));
    destruct (Z.ltb_spec (effectiveDeck i) (targets i));
    simpl; split; intros; try discriminate; try reflexivity; try lia.
Qed.

Lemma validate_length_pos (i : Inputs) :
  validation_fails i -> (0 <? List.length (validate i))%nat = true.
Proof.
  intros H. destruct (validate i) eqn:E.
  - apply validate_nil in E. contradiction.
  - reflexivity.
Qed.


(** Past the guard and with a nonzero denominator, the division happens. *)
Lemma hypergeometric_divides (N K n k : Z) :
  out_of_support N K n k = false ->
  strict_eq (value (binomialCoefficient N n)) (of_int 0) = false ->
  In Op_divide (trace (hypergeometric N K n k)).
Proof.
  intros S E. rewrite hypergeometric_unfold, S.
  autorewrite with traced. rewrite E.
  rewrite !in_app_iff. do 4 right. left. reflexivity.
Qed.

(** The loop of [renderChart] appends the values for [k, k+1, ...] and
    folds the maximum over them. *)
Lemma renderChart_loop_value (N K n maxK : Z) (fuel : nat) :
  forall (k : Z) (probabilities : list num) (maxProb : num),
    k + Z.of_nat fuel = maxK + 1 ->
    value (renderChart_loop fuel N K n maxK k probabilities maxProb) =
    (probabilities ++
       map (fun j => value (hypergeometric N K n j)) (Zrange k fuel),
     fold_left track_max
       (map (fun j => value (hypergeometric N K n j)) (Zrange k fuel))
       maxProb).
Proof.
  induction fuel as [|fuel IH]; intros k probabilities maxProb Hk.
  - simpl. now rewrite app_nil_r.
  - cbn [renderChart_loop].
    destruct (Z.leb_spec k maxK) as [_|Hgt]; [|lia].
    rewrite value_bind, IH by lia.
    cbn [Zrange map fold_left]. rewrite <- app_assoc. reflexivity.
Qed.

Lemma renderChart_value (N K n : Z) :
  value (renderChart N K n) =
  (map (fun k => value (hypergeometric N K n k)) (support_indices K n),
   fold_left track_max
     (map (fun k => value (hypergeometric N K n k)) (support_indices K n))
     (of_int 0)).
Proof.
  unfold renderChart, support_indices. cbv zeta.
  destruct (Z.lt_ge_cases (Z.min K n + 1) 0) as [H|H].
  - replace (Z.to_nat (Z.min K n + 1)) with 0%nat by lia. reflexivity.
  - rewrite renderChart_loop_value by lia. reflexivity.
Qed.

Lemma calculateAll_rejected (i : Inputs) :
  validation_fails i ->
  calculateAll i = (Errors (effectiveDeck i) (validate i), []).
Proof.
  intros H. unfold calculateAll. cbv zeta.
  rewrite validate_length_pos by exact H. reflexivity.
Qed.

Lemma calculateAll_accepted (i : Inputs) :
  ~ validation_fails i ->
  value (calculateAll i) =
  let N := effectiveDeck i in
  let whiff := value (hypergeometric N (targets i) (sampleSize i) 0) in
  let exactlyOne := value (hypergeometric N (targets i) (sampleSize i) 1) in
  Results N
    {| pWhiff := whiff;
       pExactlyOne := exactlyOne;
       pAtLeastOne := sub (of_int 1) whiff;
       pTwoOrMore := sub (sub (of_int 1) whiff) exactlyOne;
       pWhiffTwice := mul whiff whiff |}
    (value (renderChart N (targets i) (sampleSize i))).
Proof.
  intros H. apply validate_nil in H.
  unfold calculateAll. cbv zeta. rewrite H. cbn [List.length Nat.ltb Nat.leb].
  rewrite !value_bind. reflexivity.
Qed.

End AnyNumber.

(** ** Binomial coefficients *)

Lemma choose_gt (n k : nat) : (n < k)%nat -> choose n k = 0.
Proof.
  revert k. induction n as [|n IH]; intros k H.
  - destruct k; [lia | reflexivity].
  - destruct k as [|k]; [lia |]. simpl.
    rewrite (IH k), (IH (S k)) by lia. reflexivity.
Qed.

Lemma choose_diag (n : nat) : choose n n = 1.
Proof.
  induction n as [|n IH]; [reflexivity |].
  simpl. rewrite IH, choose_gt by lia. reflexivity.
Qed.

Lemma choose_0_r (n : nat) : choose n 0 = 1.
Proof. now destruct n. Qed.

Lemma Zfact_succ (n : nat) : Zfact (S n) = Z.of_nat (S n) * Zfact n.
Proof. reflexivity. Qed.

Lemma Zfact_pos (n : nat) : 0 < Zfact n.
Proof.
  induction n as [|n IH]; [reflexivity |].
  rewrite Zfact_succ. apply Z.mul_pos_pos; lia.
Qed.

(** The factorial formula: [C(n,k) * k! * (n-k)! = n!]. *)
Lemma choose_fact (n k : nat) :
  (k <= n)%nat -> choose n k * (Zfact k * Zfact (n - k)) = Zfact n.
Proof.
  revert k. induction n as [|n IH]; intros k H.
  - assert (k = 0%nat) by lia. subst. reflexivity.
  - destruct k as [|k].
    + rewrite choose_0_r, Nat.sub_0_r. change (Zfact 0) with 1. ring.
    + change (choose (S n) (S k)) with (choose n k + choose n (S k)).
      replace (S n - S k)%nat with (n - k)%nat by lia.
      destruct (Nat.eq_dec k n) as [->|Hne].
      * rewrite (choose_gt n (S n)) by lia. rewrite choose_diag, Nat.sub_diag.
        change (Zfact 0) with 1. lia.
      * assert (H1 := IH k ltac:(lia)).
        assert (H2 := IH (S k) ltac:(lia)).
        replace (n - k)%nat with (S (n - S k)) in * by lia.
        rewrite !Zfact_succ in *.
        replace (Z.of_nat (S (n - S k))) with (Z.of_nat n - Z.of_nat k) in * by lia.
        replace (Z.of_nat (S k)) with (Z.of_nat k + 1) in * by lia.
        replace (Z.of_nat (S n)) with (Z.of_nat n + 1) by lia.
        rewrite <- H1 at 1.
        nia.
Qed.

Lemma choose_pos (n k : nat) : (k <= n)%nat -> 0 < choose n k.
Proof.
  intros H. assert (F := choose_fact n k H).
  assert (P1 := Zfact_pos k). assert (P2 := Zfact_pos (n - k)).
  assert (P3 := Zfact_pos n). nia.
Qed.

Lemma choose_nonneg (n k : nat) : 0 <= choose n k.
Proof.
  destruct (le_lt_dec k n) as [H|H].
  - apply Z.lt_le_incl, choose_pos, H.
  - rewrite choose_gt by exact H. lia.
Qed.

(** [C(n,k)] as a quotient of factorials: the form that evaluates fast. *)
Lemma choose_quotient (n k : nat) :
  (k <= n)%nat -> choose n k = Zfact n / (Zfact k * Zfact (n - k)).
Proof.
  intros H. rewrite <- (choose_fact n k H).
  assert (P1 := Zfact_pos k). assert (P2 := Zfact_pos (n - k)).
  rewrite Z.div_mul by nia. reflexivity.
Qed.

Lemma binomial_inside (n k : Z) :
  0 <= k <= n -> binomial n k = choose (Z.to_nat n) (Z.to_nat k).
Proof.
  intros H. unfold binomial.
  destruct (Z.ltb_spec k 0); [lia |].
  destruct (Z.ltb_spec n k); [lia |]. reflexivity.
Qed.

Lemma binomial_outside (n k : Z) : k < 0 \/ n < k -> binomial n k = 0.
Proof.
  intros H. unfold binomial.
  destruct (Z.ltb_spec k 0); [reflexivity |].
  destruct (Z.ltb_spec n k); [reflexivity | lia].
Qed.

Lemma binomial_pos (n k : Z) : 0 <= k <= n -> 0 < binomial n k.
Proof.
  intros H. rewrite binomial_inside by exact H. apply choose_pos. lia.
Qed.

Lemma binomial_nonneg (n k : Z) : 0 <= binomial n k.
Proof.
  unfold binomial. destruct ((k <? 0) || (n <? k)); [lia | apply choose_nonneg].
Qed.

Lemma binomial_quotient (n k : Z) :
  0 <= k <= n ->
  binomial n k =
  Zfact (Z.to_nat n) / (Zfact (Z.to_nat k) * Zfact (Z.to_nat (n - k))).
Proof.
  intros H. rewrite binomial_inside by exact H.
  rewrite choose_quotient by lia.
  replace (Z.to_nat n - Z.to_nat k)%nat with (Z.to_nat (n - k)) by lia.
  reflexivity.
Qed.

Lemma binomial_symmetry (n k : Z) :
  0 <= k <= n -> binomial n k = binomial n (n - k).
Proof.
  intros H. rewrite !binomial_quotient by lia.
  replace (n - (n - k)) with k by lia.
  f_equal. apply Z.mul_comm.
Qed.

(** ** Vandermonde's identity *)

Lemma sum_to_ext (f g : nat -> Z) (n : nat) :
  (forall j, (j <= n)%nat -> f j = g j) -> sum_to f n = sum_to g n.
Proof.
  induction n as [|n IH]; intros H; simpl.
  - apply H. lia.
  - rewrite IH by (intros j Hj; apply H; lia). rewrite H by lia. reflexivity.
Qed.

Lemma sum_to_add (f g : nat -> Z) (n : nat) :
  sum_to (fun j => f j + g j) n = sum_to f n + sum_to g n.
Proof. induction n as [|n IH]; simpl; [|rewrite IH]; ring. Qed.

Lemma sum_to_shift (f : nat -> Z) (n : nat) :
  sum_to f (S n) = f O + sum_to (fun j => f (S j)) n.
Proof.
  induction n as [|n IH].
  - reflexivity.
  - change (sum_to f (S (S n))) with (sum_to f (S n) + f (S (S n))).
    rewrite IH. simpl. ring.
Qed.

(** Terms beyond [m] that vanish can be dropped. *)
Lemma sum_to_truncate (f : nat -> Z) (m n : nat) :
  (m <= n)%nat -> (forall j, (m < j <= n)%nat -> f j = 0) ->
  sum_to f n = sum_to f m.
Proof.
  induction n as [|n IH]; intros Hm Hz.
  - replace m with O by lia. reflexivity.
  - destruct (Nat.eq_dec m (S n)) as [->|Hne]; [reflexivity|].
    simpl. rewrite Hz by lia. rewrite IH by (try lia; intros; apply Hz; lia).
    ring.
Qed.

Lemma sum_to_nonneg (f : nat -> Z) (n : nat) :
  (forall j, (j <= n)%nat -> 0 <= f j) -> 0 <= sum_to f n.
Proof.
  induction n as [|n IH]; intros H; simpl.
  - apply H. lia.
  - assert (0 <= sum_to f n) by (apply IH; intros; apply H; lia).
    assert (0 <= f (S n)) by (apply H; lia). lia.
Qed.

(** A sum of non-negative terms is at least each of its terms. *)
Lemma sum_to_ge_term (f : nat -> Z) (n i : nat) :
  (forall j, (j <= n)%nat -> 0 <= f j) -> (i <= n)%nat -> f i <= sum_to f n.
Proof.
  induction n as [|n IH]; intros H Hi.
  - replace i with O by lia. simpl. lia.
  - simpl. assert (0 <= f (S n)) by (apply H; lia).
    assert (0 <= sum_to f n) by (apply sum_to_nonneg; intros; apply H; lia).
    destruct (Nat.eq_dec i (S n)) as [->|Hne]; [lia|].
    assert (f i <= sum_to f n) by (apply IH; [intros; apply H|]; lia). lia.
Qed.

(** ... and at least the sum of its first two. *)
Lemma sum_to_ge_two_terms (f : nat -> Z) (n : nat) :
  (forall j, (j <= n)%nat -> 0 <= f j) -> (1 <= n)%nat ->
  f 0%nat + f 1%nat <= sum_to f n.
Proof.
  induction n as [|n IH]; intros H Hn; [lia|].
  destruct n as [|n].
  - simpl. lia.
  - change (sum_to f (S (S n))) with (sum_to f (S n) + f (S (S n))).
    assert (0 <= f (S (S n))) by (apply H; lia).
    assert (f 0%nat + f 1%nat <= sum_to f (S n))
      by (apply IH; [intros; apply H|]; lia).
    lia.
Qed.

Lemma choose_succ (a j : nat) :
  choose (S a) j = choose a j + match j with O => 0 | S i => choose a i end.
Proof. destruct j; simpl; [rewrite choose_0_r|]; ring. Qed.

(** [sum_(j = 0 .. n) C(a, j) * C(b, n - j) = C(a + b, n)]. *)
Lemma vandermonde (a b : nat) :
  forall n : nat,
    sum_to (fun j => choose a j * choose b (n - j)) n = choose (a + b) n.
Proof.
  induction a as [|a IH]; intros n.
  - rewrite (sum_to_truncate _ 0 n);
      [| lia | intros [|j] Hj; [lia | reflexivity]].
    cbn [sum_to Nat.add]. rewrite Nat.sub_0_r.
    change (choose 0 0) with 1. ring.
  - rewrite (sum_to_ext _
       (fun j => choose a j * choose b (n - j) +
                 match j with O => 0 | S i => choose a i end * choose b (n - j)))
      by (intros j _; rewrite choose_succ; ring).
    rewrite sum_to_add, IH.
    destruct n as [|n].
    + simpl. rewrite !choose_0_r. reflexivity.
    + rewrite sum_to_shift.
      rewrite (sum_to_ext _ (fun j => choose a j * choose b (n - j)))
        by reflexivity.
      rewrite IH. simpl. ring.
Qed.

Lemma Zsum_Zrange (F : Z -> Z) (len : nat) :
  forall start : Z,
    Zsum (map F (Zrange start (S len))) =
    sum_to (fun j => F (start + Z.of_nat j)) len.
Proof.
  induction len as [|len IH]; intros start.
  - unfold Zsum. cbn [Zrange map fold_right sum_to Z.of_nat].
    rewrite !Z.add_0_r. reflexivity.
  - change (Zrange start (S (S len)))
      with (start :: Zrange (start + 1) (S len)).
    cbn [map Zsum fold_right]. fold (Zsum (map F (Zrange (start + 1) (S len)))).
    rewrite IH, sum_to_shift. rewrite Z.add_0_r. f_equal.
    apply sum_to_ext. intros j _. f_equal. lia.
Qed.

(** Vandermonde over the indices [k = 0 .. min(K, n)]. *)
Lemma binomial_products_sum_to (N K n : Z) :
  0 <= K <= N -> 0 <= n <= N ->
  sum_to (fun j => binomial K (Z.of_nat j) * binomial (N - K) (n - Z.of_nat j))
         (Z.to_nat (Z.min K n)) = binomial N n.
Proof.
  intros HK Hn.
  rewrite (sum_to_ext _
     (fun j => choose (Z.to_nat K) j * choose (Z.to_nat (N - K)) (Z.to_nat n - j))).
  - rewrite <- (sum_to_truncate _ (Z.to_nat (Z.min K n)) (Z.to_nat n)).
    + rewrite vandermonde, binomial_inside by lia.
      f_equal. lia.
    + lia.
    + intros j Hj. rewrite choose_gt by lia. ring.
  - intros j Hj.
    rewrite (binomial_inside K) by lia. rewrite Nat2Z.id.
    destruct (Z.lt_ge_cases (N - K) (n - Z.of_nat j)) as [Hout|Hin].
    + rewrite binomial_outside by lia. rewrite (choose_gt (Z.to_nat (N - K))) by lia.
      reflexivity.
    + rewrite binomial_inside by lia. do 2 f_equal. lia.
Qed.

Lemma binomial_products_add_up (N K n : Z) :
  0 <= K <= N -> 0 <= n <= N ->
  Zsum (map (fun k => binomial K k * binomial (N - K) (n - k))
            (support_indices K n)) = binomial N n.
Proof.
  intros HK Hn. unfold support_indices.
  replace (Z.to_nat (Z.min K n + 1)) with (S (Z.to_nat (Z.min K n))) by lia.
  rewrite Zsum_Zrange. rewrite <- (binomial_products_sum_to N K n HK Hn).
  apply sum_to_ext. intros j _. rewrite Z.add_0_l. reflexivity.
Qed.

Lemma binomial_product_nonneg (N K n k : Z) :
  0 <= binomial K k * binomial (N - K) (n - k).
Proof.
  apply Z.mul_nonneg_nonneg; apply binomial_nonneg.
Qed.

(** One term of Vandermonde's sum is at most the whole sum. *)
Lemma binomial_product_le (N K n k : Z) :
  0 <= K <= N -> 0 <= n <= N -> 0 <= k <= Z.min K n ->
  binomial K k * binomial (N - K) (n - k) <= binomial N n.
Proof.
  intros HK Hn Hk. rewrite <- (binomial_products_sum_to N K n HK Hn).
  replace k with (Z.of_nat (Z.to_nat k)) at 1 2 by lia.
  apply (sum_to_ge_term
           (fun j => binomial K (Z.of_nat j) * binomial (N - K) (n - Z.of_nat j))).
  - intros j _. apply binomial_product_nonneg.
  - lia.
Qed.

(** The terms for [k = 0] and [k = 1] together are at most the whole sum. *)
Lemma binomial_products_0_1_le (N K n : Z) :
  0 <= K <= N -> 0 <= n <= N -> 1 <= Z.min K n ->
  binomial K 0 * binomial (N - K) (n - 0) +
  binomial K 1 * binomial (N - K) (n - 1) <= binomial N n.
Proof.
  intros HK Hn Hk. rewrite <- (binomial_products_sum_to N K n HK Hn).
  apply (sum_to_ge_two_terms
           (fun j => binomial K (Z.of_nat j) * binomial (N - K) (n - Z.of_nat j))).
  - intros j _. apply binomial_product_nonneg.
  - lia.
Qed.

(** ** The script in exact arithmetic *)

Section ExactArithmetic.

Local Open Scope R_scope.
Local Existing Instance Exact.number.

Lemma IZR_Zfact_pos (n : nat) : 0 < IZR (Zfact n).
Proof. apply IZR_lt, Zfact_pos. Qed.

Lemma Zfact_to_nat_step (i : Z) :
  (1 <= i)%Z ->
  Zfact (Z.to_nat i) = (i * Zfact (Z.to_nat (i - 1)))%Z.
Proof.
  intros H. replace (Z.to_nat i) with (S (Z.to_nat (i - 1))) by lia.
  rewrite Zfact_succ. f_equal. lia.
Qed.

(** The loop adds the logarithms of [i, i+1, ..., n] to a running [ln (i-1)!]. *)
Lemma exact_logFactorial_loop (n : Z) (fuel : nat) :
  forall i : Z,
    (1 <= i <= n + 1)%Z -> (Z.to_nat (n + 1 - i) <= fuel)%nat ->
    logFactorial_loop fuel n i (ln (IZR (Zfact (Z.to_nat (i - 1))))) =
    ln (IZR (Zfact (Z.to_nat n))).
Proof.
  induction fuel as [|fuel IH]; intros i Hi Hf.
  - simpl. replace (i - 1)%Z with n by lia. reflexivity.
  - simpl. destruct (Z.leb_spec i n) as [Hle|Hgt].
    + rewrite <- (IH (i + 1)%Z) by lia.
      f_equal. replace (i + 1 - 1)%Z with i by lia.
      rewrite (Zfact_to_nat_step i) by lia.
      rewrite mult_IZR, ln_mult.
      * apply Rplus_comm.
      * apply IZR_lt. lia.
      * apply IZR_Zfact_pos.
    + replace (i - 1)%Z with n by lia. reflexivity.
Qed.

Lemma exact_logFactorial (n : Z) :
  value (logFactorial n) = ln (IZR (Zfact (Z.to_nat n))).
Proof.
  unfold logFactorial. rewrite value_bind.
  destruct (Z.leb_spec n 1) as [H|H].
  - assert (E : Zfact (Z.to_nat n) = 1%Z).
    { destruct (Z.to_nat n) as [|[|m]] eqn:En; try reflexivity. lia. }
    rewrite E, ln_1. reflexivity.
  - unfold value, ret, fst.
    rewrite <- (exact_logFactorial_loop n (Z.to_nat n) 2) by lia.
    f_equal. change (Zfact (Z.to_nat (2 - 1))) with 1%Z.
    rewrite ln_1. reflexivity.
Qed.

Lemma exact_round_integer (z : Z) : Exact.round (IZR z) = IZR z.
Proof.
  unfold Exact.round. f_equal. symmetry. apply Int_part_spec. lra.
Qed.

Lemma exact_eqb_false (x y : R) : x <> y -> Exact.eqb x y = false.
Proof. intros H. unfold Exact.eqb. destruct (Req_dec_T x y); [contradiction | reflexivity]. Qed.

(** In exact arithmetic [binomialCoefficient] is the binomial coefficient. *)
Lemma exact_binomialCoefficient (n k : Z) :
  value (binomialCoefficient n k) = IZR (binomial n k).
Proof.
  destruct (Z.lt_ge_cases k 0) as [Hk|Hk];
    [rewrite binomialCoefficient_outside, binomial_outside by lia; reflexivity|].
  destruct (Z.lt_ge_cases n k) as [Hn|Hn];
    [rewrite binomialCoefficient_outside, binomial_outside by lia; reflexivity|].
  rewrite binomial_inside by lia.
  destruct (Z.eq_dec k 0) as [->|H0].
  { rewrite binomialCoefficient_base by lia. now rewrite choose_0_r. }
  destruct (Z.eq_dec k n) as [->|H1].
  { rewrite binomialCoefficient_base by lia. now rewrite choose_diag. }
  rewrite binomialCoefficient_value_inside by lia.
  rewrite !exact_logFactorial.
  assert (F := choose_fact (Z.to_nat n) (Z.to_nat k) ltac:(lia)).
  replace (Z.to_nat n - Z.to_nat k)%nat with (Z.to_nat (n - k)) in F by lia.
  assert (Pc := choose_pos (Z.to_nat n) (Z.to_nat k) ltac:(lia)).
  set (c := choose (Z.to_nat n) (Z.to_nat k)) in *.
  assert (Rc : 0 < IZR c) by (apply IZR_lt; exact Pc).
  assert (Pk := IZR_Zfact_pos (Z.to_nat k)).
  assert (Pnk := IZR_Zfact_pos (Z.to_nat (n - k))).
  rewrite <- F, !mult_IZR.
  rewrite !ln_mult by (try apply Rmult_lt_0_compat; assumption).
  cbn [sub Math_round Math_exp Exact.number].
  replace (ln (IZR c) + (ln (IZR (Zfact (Z.to_nat k))) +
             ln (IZR (Zfact (Z.to_nat (n - k))))) -
           ln (IZR (Zfact (Z.to_nat k))) -
           ln (IZR (Zfact (Z.to_nat (n - k))))) with (ln (IZR c)) by ring.
  rewrite exp_ln by exact Rc. apply exact_round_integer.
Qed.

(** ... and [hypergeometric] is the textbook probability mass function. *)
Lemma exact_hypergeometric (N K n k : Z) :
  out_of_support N K n k = false ->
  value (hypergeometric N K n k) =
  IZR (binomial K k * binomial (N - K) (n - k)) / IZR (binomial N n).
Proof.
  intros H. rewrite hypergeometric_value_in_support by exact H.
  cbv zeta. rewrite !exact_binomialCoefficient.
  apply out_of_support_false in H.
  assert (P := binomial_pos N n ltac:(lia)).
  change (strict_eq ?a ?b) with (Exact.eqb a b).
  rewrite exact_eqb_false.
  - rewrite mult_IZR. reflexivity.
  - change (of_int 0) with (IZR 0). apply Rgt_not_eq, IZR_lt, P.
Qed.

Lemma exact_hypergeometric_outside (N K n k : Z) :
  out_of_support N K n k = true ->
  value (hypergeometric N K n k) = 0.
Proof.
  intros H. rewrite hypergeometric_short_circuit by exact H. reflexivity.
Qed.

Lemma In_Zrange (len : nat) :
  forall (start k : Z),
    In k (Zrange start len) <-> (start <= k < start + Z.of_nat len)%Z.
Proof.
  induction len as [|len IH]; intros start k.
  - simpl. lia.
  - cbn [Zrange In]. rewrite IH. lia.
Qed.

Lemma In_support_indices (K n k : Z) :
  In k (support_indices K n) <-> (0 <= k <= Z.min K n)%Z.
Proof. unfold support_indices. rewrite In_Zrange. lia. Qed.

(** On the indices of the distribution vector the value is the quotient of
    Vandermonde's term by its sum, also below the support, where the
    numerator vanishes. *)
Lemma exact_hypergeometric_on_indices (N K n k : Z) :
  (0 <= k <= Z.min K n)%Z ->
  value (hypergeometric N K n k) =
  IZR (binomial K k * binomial (N - K) (n - k)) / IZR (binomial N n).
Proof.
  intros Hk. destruct (out_of_support N K n k) eqn:S.
  - rewrite exact_hypergeometric_outside by exact S.
    apply out_of_support_true in S.
    rewrite (binomial_outside (N - K) (n - k)) by lia.
    rewrite Z.mul_0_r. unfold Rdiv. rewrite Rmult_0_l. reflexivity.
  - apply exact_hypergeometric. exact S.
Qed.

Lemma exact_total_quotients (F : Z -> Z) (d : R) (l : list Z) :
  forall a : R,
    fold_left Rplus (map (fun k => IZR (F k) / d) l) a =
    a + IZR (Zsum (map F l)) / d.
Proof.
  induction l as [|k l IH]; intros a.
  - simpl. unfold Rdiv. rewrite Rmult_0_l. ring.
  - cbn [map fold_left]. rewrite IH.
    unfold Zsum. cbn [fold_right]. fold (Zsum (map F l)).
    rewrite plus_IZR. unfold Rdiv. ring.
Qed.

(** In exact arithmetic the distribution of every valid triple adds up
    to exactly one. *)
Lemma exact_pmf_total (N K n : Z) :
  (0 <= K <= N)%Z -> (0 <= n <= N)%Z ->
  total (map (fun k => value (hypergeometric N K n k)) (support_indices K n)) = 1.
Proof.
  intros HK Hn. unfold total.
  rewrite (map_ext_in _
             (fun k => IZR (binomial K k * binomial (N - K) (n - k))
                       / IZR (binomial N n)))
    by (intros k Hk; apply exact_hypergeometric_on_indices,
                       In_support_indices, Hk).
  cbn [add of_int Exact.number].
  rewrite exact_total_quotients, binomial_products_add_up by assumption.
  assert (P : 0 < IZR (binomial N n)) by (apply IZR_lt, binomial_pos; lia).
  field. lra.
Qed.

(** In exact arithmetic every value of [hypergeometric] is a probability,
    whatever the four integers. *)
Lemma exact_hypergeometric_unit_interval (N K n k : Z) :
  0 <= value (hypergeometric N K n k) <= 1.
Proof.
  destruct (out_of_support N K n k) eqn:S.
  - rewrite exact_hypergeometric_outside by exact S. lra.
  - rewrite exact_hypergeometric by exact S.
    apply out_of_support_false in S.
    assert (P : 0 < IZR (binomial N n)) by (apply IZR_lt, binomial_pos; lia).
    assert (L := binomial_product_le N K n k ltac:(lia) ltac:(lia) ltac:(lia)).
    assert (G := binomial_product_nonneg N K n k).
    apply IZR_le in L. apply IZR_le in G.
    split.
    + apply Rmult_le_pos; [exact G | apply Rlt_le, Rinv_0_lt_compat, P].
    + apply Rmult_le_reg_r with (r := IZR (binomial N n)); [exact P|].
      unfold Rdiv. rewrite Rmult_assoc, Rinv_l by lra. lra.
Qed.

(** ... and the chances of no hit and of exactly one hit never exceed one
    together. *)
Lemma exact_whiff_plus_exactlyOne (N K n : Z) :
  value (hypergeometric N K n 0) + value (hypergeometric N K n 1) <= 1.
Proof.
  assert (U0 := exact_hypergeometric_unit_interval N K n 0).
  assert (U1 := exact_hypergeometric_unit_interval N K n 1).
  destruct (out_of_support N K n 0) eqn:S0.
  { rewrite (exact_hypergeometric_outside N K n 0 S0) in *. lra. }
  destruct (out_of_support N K n 1) eqn:S1.
  { rewrite (exact_hypergeometric_outside N K n 1 S1) in *. lra. }
  rewrite !exact_hypergeometric by assumption.
  apply out_of_support_false in S0. apply out_of_support_false in S1.
  assert (P : 0 < IZR (binomial N n)) by (apply IZR_lt, binomial_pos; lia).
  assert (L := binomial_products_0_1_le N K n ltac:(lia) ltac:(lia) ltac:(lia)).
  apply IZR_le in L. rewrite plus_IZR in L.
  apply Rmult_le_reg_r with (r := IZR (binomial N n)); [exact P|].
  unfold Rdiv. rewrite Rmult_plus_distr_r, !Rmult_assoc, Rinv_l by lra. lra.
Qed.

(** Tracking the maximum from [a]: the result is at least [a] and every
    element, and it is [a] or one of the elements. *)
Lemma exact_track_max_fold (l : list R) :
  forall a : R,
    a <= fold_left track_max l a /\
    Forall (fun p => p <= fold_left track_max l a) l /\
    (fold_left track_max l a = a \/ In (fold_left track_max l a) l).
Proof.
  induction l as [|p l IH]; intros a.
  - simpl. repeat split; [lra | constructor | now left].
  - cbn [fold_left].
    destruct (IH (track_max a p)) as (Ha & Hall & Hin).
    assert (Hm : a <= track_max a p /\ p <= track_max a p /\
                 (track_max a p = a \/ track_max a p = p)).
    { unfold track_max. cbn [lt Exact.number]. unfold Exact.ltb.
      destruct (Rlt_dec a p); repeat split; try lra; auto. }
    destruct Hm as (H1 & H2 & H3).
    repeat split.
    + lra.
    + constructor; [lra | exact Hall].
    + destruct Hin as [E|I].
      * rewrite E. destruct H3 as [->| ->]; [now left | right; now left].
      * right. right. exact I.
Qed.

End ExactArithmetic.

(** ** The script in binary64 arithmetic *)

Section Binary64.

Variables log exp : float -> float.

Local Abbreviation engine := (Float64.number log exp).

(** With no target card in the population the only term is
    [1 * C(N,n) / C(N,n)], whatever [binomialCoefficient N n] came out as. *)
Lemma float_hypergeometric_no_targets (N n : Z) :
  0 <= n <= N ->
  value (hypergeometric (NUM := engine) N 0 n 0) =
  let d := value (binomialCoefficient (NUM := engine) N n) in
  if PrimFloat.eqb d 0 then 0%float
  else PrimFloat.div (PrimFloat.mul 1 d) d.
Proof.
  intros H.
  rewrite hypergeometric_value_in_support
    by (apply out_of_support_false; lia).
  cbv zeta. rewrite (binomialCoefficient_base 0 0) by lia.
  rewrite !Z.sub_0_r. reflexivity.
Qed.

(** The overflow defect: once [Math.exp] overflows in
    [binomialCoefficient N n], the quotient is [Infinity / Infinity]. *)
Lemma float_hypergeometric_overflow (N n : Z) :
  0 <= n <= N ->
  value (binomialCoefficient (NUM := engine) N n) = infinity ->
  value (hypergeometric (NUM := engine) N 0 n 0) = nan.
Proof.
  intros H Hinf. rewrite float_hypergeometric_no_targets by exact H.
  rewrite Hinf. reflexivity.
Qed.

Lemma support_indices_no_targets (n : Z) : 0 <= n -> support_indices 0 n = [0].
Proof.
  intros H. unfold support_indices.
  replace (Z.min 0 n) with 0 by lia. reflexivity.
Qed.

Lemma float_renderChart_overflow (N n : Z) :
  0 <= n <= N ->
  value (binomialCoefficient (NUM := engine) N n) = infinity ->
  value (renderChart (NUM := engine) N 0 n) = ([nan], 0%float).
Proof.
  intros H Hinf. rewrite renderChart_value.
  rewrite support_indices_no_targets by lia.
  cbn [map fold_left]. rewrite float_hypergeometric_overflow by assumption.
  reflexivity.
Qed.

(** [hypergeometric] between the guard and the division, for the two
    calls of [calculateAll] on a deck of 5 with one target and one draw. *)
Lemma float_whiff_5_1_1 :
  value (binomialCoefficient (NUM := engine) 4 1) = 4%float ->
  value (binomialCoefficient (NUM := engine) 5 1) = 5%float ->
  value (hypergeometric (NUM := engine) 5 1 1 0) = (4 / 5)%float.
Proof.
  intros H4 H5.
  rewrite hypergeometric_value_in_support by reflexivity.
  cbv zeta. change (5 - 1) with 4. change (1 - 0) with 1.
  rewrite (binomialCoefficient_base 1 0) by lia.
  rewrite H4, H5. reflexivity.
Qed.

Lemma float_exactlyOne_5_1_1 :
  value (binomialCoefficient (NUM := engine) 5 1) = 5%float ->
  value (hypergeometric (NUM := engine) 5 1 1 1) = (1 / 5)%float.
Proof.
  intros H5.
  rewrite hypergeometric_value_in_support by reflexivity.
  cbv zeta. change (5 - 1) with 4. change (1 - 1) with 0.
  rewrite (binomialCoefficient_base 1 1), (binomialCoefficient_base 4 0) by lia.
  rewrite H5. reflexivity.
Qed.

End Binary64.

(** ** Facts about binary64 values *)

Lemma SFcompare_refl (x : spec_float) :
  x <> S754_nan -> SFcompare x x = Some Eq.
Proof.
  destruct x as [s|s| |s m e]; intros H; try congruence;
    destruct s; cbn; try reflexivity;
    now rewrite Z.compare_refl, Pos.compare_cont_refl.
Qed.

Lemma is_nan_Prim2SF (x : float) :
  is_nan x = match Prim2SF x with S754_nan => true | _ => false end.
Proof.
  unfold is_nan. rewrite eqb_spec. unfold SFeqb.
  destruct (Prim2SF x) as [s|s| |s m e] eqn:E; try reflexivity;
    rewrite SFcompare_refl by discriminate; reflexivity.
Qed.

Lemma is_finite_Prim2SF (x : float) :
  is_finite x =
  match Prim2SF x with S754_nan | S754_infinity _ => false | _ => true end.
Proof.
  unfold is_finite, is_infinity. rewrite is_nan_Prim2SF, eqb_spec, abs_spec.
  destruct (Prim2SF x) as [s|s| |s m e]; reflexivity.
Qed.

Lemma digits2_pos_bound (m : positive) :
  Z.pos m < 2 ^ Z.pos (digits2_pos m).
Proof.
  induction m as [m IH|m IH|]; cbn [digits2_pos];
    rewrite ?Pos2Z.inj_succ, ?Z.pow_succ_r by lia; lia.
Qed.

(** The mantissa of a binary64 value has at most 53 bits. *)
Lemma Prim2SF_finite_bound (x : float) (s : bool) (m : positive) (e : Z) :
  Prim2SF x = S754_finite s m e -> Z.pos m < 2 ^ 53 /\ -1074 <= e <= 971.
Proof.
  intros H. assert (V := Prim2SF_valid x). rewrite H in V.
  unfold valid_binary, bounded, canonical_mantissa in V.
  apply andb_prop in V. destruct V as [V1 V2].
  apply Z.eqb_eq in V1. apply Z.leb_le in V2.
  unfold SpecFloat.fexp, SpecFloat.emin in V1.
  change prec with 53 in *. change emax with 1024 in *.
  assert (B := digits2_pos_bound m).
  assert (D : Z.pos (digits2_pos m) <= 53) by lia.
  split; [|lia].
  eapply Z.lt_le_trans; [exact B|]. apply Z.pow_le_mono_r; lia.
Qed.

(** ** Integers as binary64 values *)

Lemma digits2_pos_lower (m : positive) :
  2 ^ (Z.pos (digits2_pos m) - 1) <= Z.pos m.
Proof.
  induction m as [m IH|m IH|]; cbn [digits2_pos];
    rewrite ?Pos2Z.inj_succ;
    try (replace (Z.succ (Z.pos (digits2_pos m)) - 1)
           with (Z.succ (Z.pos (digits2_pos m) - 1)) by lia;
         rewrite Z.pow_succ_r by lia);
    try lia.
Qed.

Lemma digits2_pos_iter_xO (m : positive) (n : positive) :
  digits2_pos (Pos.iter xO m n) = (digits2_pos m + n)%positive.
Proof.
  induction n as [|n IH] using Pos.peano_ind.
  - cbn. now rewrite Pos.add_1_r.
  - rewrite Pos.iter_succ. cbn [digits2_pos]. rewrite IH.
    now rewrite Pos.add_succ_r.
Qed.

Lemma Zpos_iter_xO (m : positive) (n : positive) :
  Z.pos (Pos.iter xO m n) = Z.pos m * 2 ^ Z.pos n.
Proof.
  induction n as [|n IH] using Pos.peano_ind.
  - cbn. lia.
  - rewrite Pos.iter_succ, Pos2Z.inj_xO, IH, Pos2Z.inj_succ.
    rewrite Z.pow_succ_r by lia. ring.
Qed.

(** A mantissa of exactly 53 bits is not rounded. *)
Lemma binary_round_aux_canonical (s : bool) (m : positive) (e : Z) :
  digits2_pos m = 53%positive -> -1074 <= e <= 971 ->
  binary_round_aux prec emax s (Z.pos m) e loc_Exact = S754_finite s m e.
Proof.
  intros D E.
  unfold binary_round_aux, shr_fexp, Zdigits2. rewrite D.
  unfold SpecFloat.fexp, SpecFloat.emin.
  change prec with 53. change emax with 1024.
  replace (Z.max (53 + e - 53) (3 - 1024 - 53) - e) with 0 by lia.
  cbn [shr shr_record_of_loc shr_m loc_of_shr_record round_nearest_even].
  unfold Zdigits2. rewrite D.
  replace (Z.max (53 + e - 53) (3 - 1024 - 53) - e) with 0 by lia.
  cbn [shr shr_record_of_loc shr_m].
  destruct (Z.leb_spec e (1024 - 53)); [reflexivity | lia].
Qed.

(** An integer below [2^53] is a binary64 value: the conversion does not
    round, and the value read back is the integer. *)
Lemma of_Z_exact (s : bool) (m : positive) :
  Z.pos m < 2 ^ 53 ->
  exists (mz : positive) (ez : Z),
    Prim2SF (Float64.of_Z (if s then Z.neg m else Z.pos m)) = S754_finite s mz ez /\
    Float64Text.is_small_integer mz ez = true /\
    Float64Text.integer_magnitude mz ez = Z.pos m.
Proof.
  intros B.
  assert (L := digits2_pos_lower m).
  assert (D : Z.pos (digits2_pos m) <= 53).
  { destruct (Z.le_gt_cases (Z.pos (digits2_pos m)) 53) as [H|H]; [exact H|].
    assert (P : 2 ^ 53 <= 2 ^ (Z.pos (digits2_pos m) - 1))
      by (apply Z.pow_le_mono_r; lia).
    lia. }
  assert (R : binary_normalize prec emax (if s then Z.neg m else Z.pos m) 0 false
              = binary_round prec emax s m 0) by (destruct s; reflexivity).
  unfold Float64.of_Z. rewrite R. clear R.
  unfold binary_round, shl_align, SpecFloat.fexp, SpecFloat.emin.
  change prec with 53. change emax with 1024.
  rewrite Z.add_0_r, Z.sub_0_r.
  replace (Z.max (Z.pos (digits2_pos m) - 53) (3 - 1024 - 53))
    with (Z.pos (digits2_pos m) - 53) by lia.
  destruct (Z.pos (digits2_pos m) - 53) as [|p|p] eqn:Ed; [| lia |].
  - assert (D53 : digits2_pos m = 53%positive) by lia.
    change 53 with prec at 1. change 1024 with emax.
    rewrite (binary_round_aux_canonical s m 0 D53) by lia.
    exists m, 0. split; [|split].
    + apply Prim2SF_SF2Prim.
      unfold valid_binary, SpecFloat.bounded, SpecFloat.canonical_mantissa.
      rewrite D53. reflexivity.
    + unfold Float64Text.is_small_integer. cbn [Z.leb Z.compare].
      change (2 ^ 0) with 1. rewrite Z.mul_1_r. apply Z.ltb_lt, B.
    + unfold Float64Text.integer_magnitude. cbn [Z.leb Z.compare].
      change (2 ^ 0) with 1. apply Z.mul_1_r.
  - assert (D53 : digits2_pos (Pos.iter xO m p) = 53%positive).
    { rewrite digits2_pos_iter_xO. lia. }
    assert (Pp : Z.pos p <= 52) by lia.
    change 53 with prec at 1. change 1024 with emax.
    rewrite (binary_round_aux_canonical s _ (Z.neg p) D53) by lia.
    exists (Pos.iter xO m p), (Z.neg p). split; [|split].
    + apply Prim2SF_SF2Prim.
      unfold valid_binary, SpecFloat.bounded, SpecFloat.canonical_mantissa.
      rewrite D53. unfold SpecFloat.fexp, SpecFloat.emin.
      change prec with 53. change emax with 1024.
      apply andb_true_intro. split; [apply Z.eqb_eq | apply Z.leb_le]; lia.
    + unfold Float64Text.is_small_integer. cbn [Z.leb Z.compare Z.opp].
      rewrite Zpos_iter_xO. apply Z.eqb_eq, Z.mod_mul.
      apply Z.pow_nonzero; lia.
    + unfold Float64Text.integer_magnitude. cbn [Z.leb Z.compare Z.opp].
      rewrite Zpos_iter_xO. apply Z.div_mul.
      apply Z.pow_nonzero; lia.
Qed.

(** ** Safe integers in binary64

    Sums, differences, doublings and comparisons of safe integers are
    exact in binary64 as long as the result is a safe integer. *)

Lemma digits2_pos_unique (m : positive) (d : Z) :
  2 ^ (d - 1) <= Z.pos m < 2 ^ d -> Z.pos (digits2_pos m) = d.
Proof.
  intros [L U].
  assert (L' := digits2_pos_lower m). assert (U' := digits2_pos_bound m).
  set (D := Z.pos (digits2_pos m)) in *.
  destruct (Z.lt_trichotomy D d) as [H|[H|H]]; [exfalso | exact H | exfalso].
  - assert (P : 2 ^ D <= 2 ^ (d - 1)) by (apply Z.pow_le_mono_r; lia). lia.
  - assert (P : 2 ^ d <= 2 ^ (D - 1)) by (apply Z.pow_le_mono_r; lia). lia.
Qed.

Lemma digits2_pos_safe (m : positive) :
  Z.pos m < 2 ^ 53 -> Z.pos (digits2_pos m) <= 53.
Proof.
  intros B. assert (L := digits2_pos_lower m).
  destruct (Z.le_gt_cases (Z.pos (digits2_pos m)) 53) as [H|H]; [exact H|].
  assert (P : 2 ^ 53 <= 2 ^ (Z.pos (digits2_pos m) - 1))
    by (apply Z.pow_le_mono_r; lia).
  lia.
Qed.

Lemma digits2_pos_scaled (m mz : positive) (q : Z) :
  0 <= q -> Z.pos mz = Z.pos m * 2 ^ q ->
  Z.pos (digits2_pos mz) = Z.pos (digits2_pos m) + q.
Proof.
  intros Hq E. apply digits2_pos_unique. rewrite E.
  assert (L := digits2_pos_lower m). assert (U := digits2_pos_bound m).
  set (D := Z.pos (digits2_pos m)) in *.
  assert (P : 0 < 2 ^ q) by (apply Z.pow_pos_nonneg; lia).
  replace (D + q - 1) with ((D - 1) + q) by lia.
  rewrite !Z.pow_add_r by lia. split.
  - apply Z.mul_le_mono_nonneg_r; lia.
  - apply Z.mul_lt_mono_pos_r; lia.
Qed.

Lemma normal_form (m : positive) :
  Z.pos m < 2 ^ 53 ->
  Z.pos (normal_mantissa m) = Z.pos m * 2 ^ (- normal_exponent m) /\
  digits2_pos (normal_mantissa m) = 53%positive /\
  -52 <= normal_exponent m <= 0.
Proof.
  intros B. assert (D := digits2_pos_safe m B).
  unfold normal_mantissa, normal_exponent, shl_align.
  rewrite Z.sub_0_r.
  destruct (Z.pos (digits2_pos m) - 53) as [|p|p] eqn:E; [| lia |].
  - cbn [fst]. split; [cbn; lia|]. split; lia.
  - cbn [fst]. rewrite Zpos_iter_xO. split; [reflexivity|].
    split; [|lia]. rewrite digits2_pos_iter_xO. lia.
Qed.

(** The binary64 value of a nonzero integer below 2^53. *)
Lemma of_Z_finite (s : bool) (m : positive) :
  Z.pos m < 2 ^ 53 ->
  Prim2SF (Float64.of_Z (if s then Z.neg m else Z.pos m)) =
  S754_finite s (normal_mantissa m) (normal_exponent m).
Proof.
  intros B. destruct (normal_form m B) as (V & D53 & R).
  assert (D := digits2_pos_safe m B).
  assert (Rn : binary_normalize prec emax (if s then Z.neg m else Z.pos m) 0 false
               = binary_round prec emax s m 0) by (destruct s; reflexivity).
  unfold Float64.of_Z. rewrite Rn. clear Rn.
  unfold binary_round, SpecFloat.fexp, SpecFloat.emin.
  change prec with 53. change emax with 1024.
  rewrite Z.add_0_r.
  replace (Z.max (Z.pos (digits2_pos m) - 53) (3 - 1024 - 53))
    with (normal_exponent m) by (unfold normal_exponent; lia).
  assert (S : shl_align m 0 (normal_exponent m) =
              (normal_mantissa m, normal_exponent m)).
  { unfold normal_mantissa, shl_align. rewrite Z.sub_0_r.
    destruct (normal_exponent m) as [|p|p] eqn:E; try reflexivity. lia. }
  rewrite S.
  change 53 with prec at 1. change 1024 with emax.
  rewrite (binary_round_aux_canonical s _ _ D53) by lia.
  apply Prim2SF_SF2Prim.
  unfold valid_binary, SpecFloat.bounded, SpecFloat.canonical_mantissa.
  rewrite D53. unfold SpecFloat.fexp, SpecFloat.emin.
  change prec with 53. change emax with 1024.
  apply andb_true_intro. split; [apply Z.eqb_eq | apply Z.leb_le]; lia.
Qed.

(** A 53-bit mantissa with a nonpositive exponent that stands for the
    integer [m] is the value of [m]. *)
Lemma finite_is_normal (s : bool) (m mz : positive) (ez : Z) :
  digits2_pos mz = 53%positive -> ez <= 0 ->
  Z.pos mz = Z.pos m * 2 ^ (- ez) ->
  Z.pos m < 2 ^ 53 /\
  S754_finite s mz ez = S754_finite s (normal_mantissa m) (normal_exponent m).
Proof.
  intros D E V.
  assert (Ds := digits2_pos_scaled m mz (- ez) ltac:(lia) V).
  assert (B : Z.pos m < 2 ^ 53).
  { assert (U := digits2_pos_bound m).
    eapply Z.lt_le_trans; [exact U|]. apply Z.pow_le_mono_r; lia. }
  split; [exact B|].
  destruct (normal_form m B) as (V' & _ & _).
  assert (Ee : ez = normal_exponent m) by (unfold normal_exponent; lia).
  subst ez. f_equal.
  apply Pos2Z.inj. rewrite V, V'. reflexivity.
Qed.

(** Shifting out zero bits loses nothing. *)
Lemma shr_exact (q : positive) :
  forall m : positive,
    SpecFloat.iter_pos shr_1 q
      {| shr_m := Z.pos (Pos.iter xO m q); shr_r := false; shr_s := false |} =
    {| shr_m := Z.pos m; shr_r := false; shr_s := false |}.
Proof.
  induction q as [q IH|q IH|]; intros m.
  - cbn [SpecFloat.iter_pos Pos.iter shr_1 orb]. rewrite IH, IH. reflexivity.
  - cbn [SpecFloat.iter_pos Pos.iter]. rewrite IH, IH. reflexivity.
  - reflexivity.
Qed.

(** A mantissa that is a 53-bit one followed by zero bits is not rounded. *)
Lemma binary_round_aux_exact (s : bool) (m0 mM : positive) (q e : Z) :
  digits2_pos m0 = 53%positive -> 0 <= q -> -1074 <= e + q <= 971 ->
  Z.pos mM = Z.pos m0 * 2 ^ q ->
  binary_round_aux prec emax s (Z.pos mM) e loc_Exact = S754_finite s m0 (e + q).
Proof.
  intros D Hq He V.
  destruct q as [|q|q]; [| |lia].
  - assert (mM = m0) by (apply Pos2Z.inj; rewrite V; cbn; lia). subst mM.
    rewrite Z.add_0_r in *. apply binary_round_aux_canonical; assumption.
  - assert (mM = Pos.iter xO m0 q).
    { apply Pos2Z.inj. rewrite V, Zpos_iter_xO. reflexivity. }
    subst mM. clear V.
    assert (DM : digits2_pos (Pos.iter xO m0 q) = (53 + q)%positive).
    { rewrite digits2_pos_iter_xO, D. reflexivity. }
    unfold binary_round_aux, shr_fexp. unfold Zdigits2 at 1. rewrite DM.
    unfold SpecFloat.fexp, SpecFloat.emin.
    change prec with 53. change emax with 1024.
    replace (Z.max (Z.pos (53 + q) + e - 53) (3 - 1024 - 53) - e)
      with (Z.pos q) by lia.
    cbn [shr shr_record_of_loc]. rewrite shr_exact.
    cbn [shr_m loc_of_shr_record round_nearest_even].
    unfold Zdigits2. rewrite D.
    replace (Z.max (53 + (e + Z.pos q) - 53) (3 - 1024 - 53) - (e + Z.pos q))
      with 0 by lia.
    cbn [shr shr_record_of_loc shr_m].
    destruct (Z.leb_spec (e + Z.pos q) (1024 - 53)); [reflexivity | lia].
Qed.

(** Rounding [m * 2^p] at exponent [-p] gives the value of the integer [m]. *)
Lemma binary_round_integer (s : bool) (m mM : positive) (p : Z) :
  0 <= p -> Z.pos m < 2 ^ 53 -> Z.pos mM = Z.pos m * 2 ^ p ->
  binary_round prec emax s mM (- p) =
  S754_finite s (normal_mantissa m) (normal_exponent m).
Proof.
  intros Hp B V.
  destruct (normal_form m B) as (Vn & D53 & R).
  assert (DM := digits2_pos_scaled m mM p Hp V).
  unfold binary_round, SpecFloat.fexp, SpecFloat.emin.
  change prec with 53. change emax with 1024.
  replace (Z.max (Z.pos (digits2_pos mM) + - p - 53) (3 - 1024 - 53))
    with (normal_exponent m) by (unfold normal_exponent in *; lia).
  unfold shl_align.
  destruct (normal_exponent m - - p) as [|d|d] eqn:E.
  - change 53 with prec at 1. change 1024 with emax.
    replace (- p) with (normal_exponent m) by lia.
    assert (mM = normal_mantissa m).
    { apply Pos2Z.inj. rewrite V, Vn. f_equal. f_equal. lia. }
    subst mM. apply binary_round_aux_canonical; [exact D53 | lia].
  - (* more than 53 bits: the low ones are zero *)
    change 53 with prec at 1. change 1024 with emax.
    rewrite (binary_round_aux_exact s (normal_mantissa m) mM (Z.pos d) (- p) D53);
      [f_equal; lia | lia | lia |].
    rewrite V, Vn, <- Z.mul_assoc, <- Z.pow_add_r by lia.
    f_equal. f_equal. lia.
  - (* fewer than 53 bits: shifted left *)
    change 53 with prec at 1. change 1024 with emax.
    assert (Pos.iter xO mM d = normal_mantissa m).
    { apply Pos2Z.inj. rewrite Zpos_iter_xO, V, Vn, <- Z.mul_assoc,
        <- Z.pow_add_r by lia. f_equal. f_equal. lia. }
    rewrite H. apply binary_round_aux_canonical; [exact D53 | lia].
Qed.

(** The same for a signed integer, zero included. *)
Lemma binary_normalize_integer (z M p : Z) :
  0 <= p -> Z.abs z < 2 ^ 53 -> M = z * 2 ^ p ->
  binary_normalize prec emax M (- p) false = Prim2SF (Float64.of_Z z).
Proof.
  intros Hp B ->.
  assert (P : 0 < 2 ^ p) by (apply Z.pow_pos_nonneg; lia).
  destruct z as [|m|m].
  - reflexivity.
  - rewrite (of_Z_finite false m B).
    destruct (Z.pos m * 2 ^ p) as [|mM|mM] eqn:E; try lia.
    cbn [binary_normalize]. apply binary_round_integer; [exact Hp | exact B | lia].
  - rewrite (of_Z_finite true m B).
    destruct (Z.neg m * 2 ^ p) as [|mM|mM] eqn:E; try lia.
    cbn [binary_normalize]. apply binary_round_integer; [exact Hp | exact B | lia].
Qed.

(** The binary64 value of a safe integer. *)
Lemma of_Z_spec (z : Z) :
  safe_integer z ->
  Prim2SF (Float64.of_Z z) =
  match z with
  | 0 => S754_zero false
  | Z.pos m => S754_finite false (normal_mantissa m) (normal_exponent m)
  | Z.neg m => S754_finite true (normal_mantissa m) (normal_exponent m)
  end.
Proof.
  unfold safe_integer. intros B. destruct z as [|m|m].
  - reflexivity.
  - exact (of_Z_finite false m B).
  - exact (of_Z_finite true m B).
Qed.

Lemma shl_align_value (m : positive) (e ez : Z) :
  ez <= e -> Z.pos (fst (shl_align m e ez)) = Z.pos m * 2 ^ (e - ez).
Proof.
  intros H. unfold shl_align.
  destruct (ez - e) as [|d|d] eqn:E; cbn [fst].
  - replace (e - ez) with 0 by lia. cbn. lia.
  - lia.
  - rewrite Zpos_iter_xO. f_equal. f_equal. lia.
Qed.

(** The mantissa of a safe integer, aligned to a lower exponent. *)
Lemma aligned_value (m : positive) (ez : Z) :
  Z.pos m < 2 ^ 53 -> ez <= normal_exponent m ->
  Z.pos (fst (shl_align (normal_mantissa m) (normal_exponent m) ez)) =
  Z.pos m * 2 ^ (- ez).
Proof.
  intros B H. destruct (normal_form m B) as (V & _ & R).
  rewrite shl_align_value by exact H.
  rewrite V, <- Z.mul_assoc, <- Z.pow_add_r by lia.
  f_equal. f_equal. lia.
Qed.

Lemma SFsub_integers (sa sb : bool) (ma mb : positive) :
  Z.pos ma < 2 ^ 53 -> Z.pos mb < 2 ^ 53 ->
  Z.abs (cond_Zopp sa (Z.pos ma) - cond_Zopp sb (Z.pos mb)) < 2 ^ 53 ->
  SFsub prec emax
    (S754_finite sa (normal_mantissa ma) (normal_exponent ma))
    (S754_finite sb (normal_mantissa mb) (normal_exponent mb)) =
  Prim2SF (Float64.of_Z (cond_Zopp sa (Z.pos ma) - cond_Zopp sb (Z.pos mb))).
Proof.
  intros Ba Bb B.
  destruct (normal_form ma Ba) as (_ & _ & Ra).
  destruct (normal_form mb Bb) as (_ & _ & Rb).
  unfold SFsub. cbv zeta.
  set (ez := Z.min (normal_exponent ma) (normal_exponent mb)).
  replace ez with (- - ez) at 3 by lia.
  apply binary_normalize_integer; [lia | exact B |].
  rewrite !aligned_value by (assumption || lia).
  destruct sa, sb; cbn [cond_Zopp]; ring.
Qed.

Lemma SFadd_integers (sa sb : bool) (ma mb : positive) :
  Z.pos ma < 2 ^ 53 -> Z.pos mb < 2 ^ 53 ->
  Z.abs (cond_Zopp sa (Z.pos ma) + cond_Zopp sb (Z.pos mb)) < 2 ^ 53 ->
  SFadd prec emax
    (S754_finite sa (normal_mantissa ma) (normal_exponent ma))
    (S754_finite sb (normal_mantissa mb) (normal_exponent mb)) =
  Prim2SF (Float64.of_Z (cond_Zopp sa (Z.pos ma) + cond_Zopp sb (Z.pos mb))).
Proof.
  intros Ba Bb B.
  destruct (normal_form ma Ba) as (_ & _ & Ra).
  destruct (normal_form mb Bb) as (_ & _ & Rb).
  unfold SFadd. cbv zeta.
  set (ez := Z.min (normal_exponent ma) (normal_exponent mb)).
  replace ez with (- - ez) at 3 by lia.
  apply binary_normalize_integer; [lia | exact B |].
  rewrite !aligned_value by (assumption || lia).
  destruct sa, sb; cbn [cond_Zopp]; ring.
Qed.

(** Differences and sums of safe integers are exact as long as the result
    is a safe integer. *)
Lemma of_Z_sub (a b : Z) :
  safe_integer a -> safe_integer b -> safe_integer (a - b) ->
  (Float64.of_Z a - Float64.of_Z b)%float = Float64.of_Z (a - b).
Proof.
  intros Ha Hb H. apply Prim2SF_inj.
  rewrite sub_spec, (of_Z_spec a Ha), (of_Z_spec b Hb).
  unfold SF64sub, safe_integer in *.
  destruct a as [|ma|ma], b as [|mb|mb]; try reflexivity.
  - symmetry. exact (of_Z_finite true mb Hb).
  - symmetry. exact (of_Z_finite false mb Hb).
  - symmetry. rewrite Z.sub_0_r. exact (of_Z_finite false ma Ha).
  - exact (SFsub_integers false false ma mb Ha Hb H).
  - exact (SFsub_integers false true ma mb Ha Hb H).
  - symmetry. rewrite Z.sub_0_r. exact (of_Z_finite true ma Ha).
  - exact (SFsub_integers true false ma mb Ha Hb H).
  - exact (SFsub_integers true true ma mb Ha Hb H).
Qed.

Lemma of_Z_add (a b : Z) :
  safe_integer a -> safe_integer b -> safe_integer (a + b) ->
  (Float64.of_Z a + Float64.of_Z b)%float = Float64.of_Z (a + b).
Proof.
  intros Ha Hb H. apply Prim2SF_inj.
  rewrite add_spec, (of_Z_spec a Ha), (of_Z_spec b Hb).
  unfold SF64add, safe_integer in *.
  destruct a as [|ma|ma], b as [|mb|mb]; try reflexivity.
  - symmetry. exact (of_Z_finite false mb Hb).
  - symmetry. exact (of_Z_finite true mb Hb).
  - symmetry. rewrite Z.add_0_r. exact (of_Z_finite false ma Ha).
  - exact (SFadd_integers false false ma mb Ha Hb H).
  - exact (SFadd_integers false true ma mb Ha Hb H).
  - symmetry. rewrite Z.add_0_r. exact (of_Z_finite true ma Ha).
  - exact (SFadd_integers true false ma mb Ha Hb H).
  - exact (SFadd_integers true true ma mb Ha Hb H).
Qed.

Lemma SFmul_2 (s : bool) (m : positive) :
  Z.pos m < 2 ^ 53 -> Z.pos m~0 < 2 ^ 53 ->
  SFmul prec emax
    (S754_finite s (normal_mantissa m) (normal_exponent m))
    (S754_finite false 4503599627370496 (-51)) =
  S754_finite s (normal_mantissa m~0) (normal_exponent m~0).
Proof.
  intros B B2.
  destruct (normal_form m B) as (V & D53 & R).
  assert (D2 : Z.pos (digits2_pos m) <= 52).
  { assert (Y := digits2_pos_safe m~0 B2). cbn [digits2_pos] in Y. lia. }
  assert (R2 : normal_exponent m <= -1) by (unfold normal_exponent; lia).
  assert (R1 : -1074 <= normal_exponent m + -51 + 52 <= 971) by lia.
  assert (F : S754_finite s (normal_mantissa m) (normal_exponent m + -51 + 52) =
              S754_finite s (normal_mantissa m~0) (normal_exponent m~0)).
  { apply finite_is_normal; [exact D53 | lia |].
    rewrite V. change (Z.pos m~0) with (2 * Z.pos m).
    replace (- (normal_exponent m + -51 + 52)) with (- normal_exponent m - 1) by lia.
    replace (- normal_exponent m) with (1 + (- normal_exponent m - 1)) at 1 by lia.
    rewrite Z.pow_add_r by lia. change (2 ^ 1) with 2. ring. }
  rewrite <- F. cbn [SFmul]. replace (xorb s false) with s by (now destruct s).
  apply binary_round_aux_exact; [exact D53 | lia | exact R1 |].
  rewrite Pos2Z.inj_mul. reflexivity.
Qed.

(** Doubling a safe integer is exact as long as the result is one. *)
Lemma of_Z_double (a : Z) :
  safe_integer a -> safe_integer (a * 2) ->
  (Float64.of_Z a * 2)%float = Float64.of_Z (a * 2).
Proof.
  intros Ha H. apply Prim2SF_inj.
  rewrite mul_spec, (of_Z_spec a Ha), (of_Z_spec (a * 2) H).
  unfold SF64mul, safe_integer in *.
  change (Prim2SF 2) with (S754_finite false 4503599627370496 (-51)).
  destruct a as [|m|m]; [reflexivity | |].
  - change (Z.pos m * 2) with (Z.pos (m * 2)) in *.
    rewrite Pos.mul_comm in *. change (2 * m)%positive with (m~0)%positive in *.
    apply SFmul_2; assumption.
  - change (Z.neg m * 2) with (Z.neg (m * 2)) in *.
    rewrite Pos.mul_comm in *. change (2 * m)%positive with (m~0)%positive in *.
    apply SFmul_2; assumption.
Qed.

(** The order of two positive safe integers, read off their binary64
    forms: first the exponents, then the mantissas. *)
Lemma compare_normal (ma mb : positive) :
  Z.pos ma < 2 ^ 53 -> Z.pos mb < 2 ^ 53 ->
  match normal_exponent ma ?= normal_exponent mb with
  | Lt => Lt
  | Gt => Gt
  | Eq => Pos.compare_cont Eq (normal_mantissa ma) (normal_mantissa mb)
  end = (ma ?= mb)%positive.
Proof.
  intros Ba Bb.
  destruct (normal_form ma Ba) as (Va & _ & Ra).
  destruct (normal_form mb Bb) as (Vb & _ & Rb).
  assert (La := digits2_pos_lower ma). assert (Ua := digits2_pos_bound ma).
  assert (Lb := digits2_pos_lower mb). assert (Ub := digits2_pos_bound mb).
  destruct (Z.compare_spec (normal_exponent ma) (normal_exponent mb)) as [E|E|E].
  - change (Pos.compare_cont Eq (normal_mantissa ma) (normal_mantissa mb))
      with (Z.pos (normal_mantissa ma) ?= Z.pos (normal_mantissa mb)).
    rewrite Va, Vb, E.
    change ((ma ?= mb)%positive) with (Z.pos ma ?= Z.pos mb).
    symmetry. apply Zmult_compare_compat_r.
    apply Z.lt_gt, Z.pow_pos_nonneg; lia.
  - symmetry. change ((ma ?= mb)%positive) with (Z.pos ma ?= Z.pos mb).
    apply Z.compare_lt_iff. unfold normal_exponent in E.
    assert (P : 2 ^ Z.pos (digits2_pos ma) <= 2 ^ (Z.pos (digits2_pos mb) - 1))
      by (apply Z.pow_le_mono_r; lia).
    lia.
  - symmetry. change ((ma ?= mb)%positive) with (Z.pos ma ?= Z.pos mb).
    apply Z.compare_gt_iff. unfold normal_exponent in E.
    assert (P : 2 ^ Z.pos (digits2_pos mb) <= 2 ^ (Z.pos (digits2_pos ma) - 1))
      by (apply Z.pow_le_mono_r; lia).
    lia.
Qed.

(** Safe integers compare as Numbers the way they compare as integers. *)
Lemma of_Z_compare (a b : Z) :
  safe_integer a -> safe_integer b ->
  SFcompare (Prim2SF (Float64.of_Z a)) (Prim2SF (Float64.of_Z b)) = Some (a ?= b).
Proof.
  intros Ha Hb. rewrite (of_Z_spec a Ha), (of_Z_spec b Hb).
  unfold safe_integer in *.
  destruct a as [|ma|ma], b as [|mb|mb]; try reflexivity; cbn [SFcompare].
  - rewrite compare_normal by assumption. reflexivity.
  - change (Z.neg ma ?= Z.neg mb) with (CompOpp (ma ?= mb)%positive).
    rewrite <- (compare_normal ma mb Ha Hb).
    destruct (normal_exponent ma ?= normal_exponent mb); reflexivity.
Qed.

Lemma of_Z_ltb (a b : Z) :
  safe_integer a -> safe_integer b ->
  (Float64.of_Z a <? Float64.of_Z b)%float = (a <? b).
Proof.
  intros Ha Hb. rewrite ltb_spec. unfold SFltb.
  rewrite of_Z_compare by assumption. reflexivity.
Qed.

Lemma of_Z_leb (a b : Z) :
  safe_integer a -> safe_integer b ->
  (Float64.of_Z a <=? Float64.of_Z b)%float = (a <=? b).
Proof.
  intros Ha Hb. rewrite leb_spec. unfold SFleb.
  rewrite of_Z_compare by assumption. unfold Z.leb.
  destruct (a ?= b); reflexivity.
Qed.

Lemma of_Z_eqb (a b : Z) :
  safe_integer a -> safe_integer b ->
  (Float64.of_Z a =? Float64.of_Z b)%float = (a =? b).
Proof.
  intros Ha Hb. rewrite eqb_spec. unfold SFeqb.
  rewrite of_Z_compare by assumption.
  destruct (Z.compare_spec a b) as [E|E|E]; symmetry;
    [apply Z.eqb_eq | apply Z.eqb_neq | apply Z.eqb_neq]; lia.
Qed.

Lemma of_Z_is_a_number (z : Z) :
  safe_integer z ->
  is_nan (Float64.of_Z z) = false /\
  Float64Text.is_neg_zero (Float64.of_Z z) = false /\
  (Float64.of_Z z <? infinity)%float = true /\
  (neg_infinity <? Float64.of_Z z)%float = true.
Proof.
  intros H. rewrite is_nan_Prim2SF, !ltb_spec.
  unfold Float64Text.is_neg_zero, SFltb. rewrite (of_Z_spec z H).
  destruct z; repeat split; reflexivity.
Qed.

(** [Math.min] and [Math.max] of two safe integers. *)
Lemma of_Z_min (a b : Z) :
  safe_integer a -> safe_integer b ->
  Float64Text.min (Float64.of_Z a) (Float64.of_Z b) = Float64.of_Z (Z.min a b).
Proof.
  intros Ha Hb.
  destruct (of_Z_is_a_number a Ha) as (Na & Za & Ia & _).
  destruct (of_Z_is_a_number b Hb) as (Nb & Zb & _ & _).
  unfold Float64Text.min, Float64Text.min_step.
  rewrite Na, Nb, Za, Ia, Zb. cbn [andb].
  rewrite of_Z_ltb by assumption.
  destruct (Z.ltb_spec b a); [rewrite Z.min_r | rewrite Z.min_l]; (reflexivity || lia).
Qed.

Lemma of_Z_max (a b : Z) :
  safe_integer a -> safe_integer b ->
  Float64Text.max (Float64.of_Z a) (Float64.of_Z b) = Float64.of_Z (Z.max a b).
Proof.
  intros Ha Hb.
  destruct (of_Z_is_a_number a Ha) as (Na & Za & _ & Ia).
  destruct (of_Z_is_a_number b Hb) as (Nb & Zb & _ & _).
  unfold Float64Text.max, Float64Text.max_step.
  rewrite Na, Nb.
  change (Float64Text.is_neg_zero neg_infinity) with false.
  rewrite andb_false_r, Ia, Za, andb_false_r.
  rewrite of_Z_ltb by assumption.
  destruct (Z.ltb_spec a b); [rewrite Z.max_r | rewrite Z.max_l]; (reflexivity || lia).
Qed.

Lemma safe_integer_between (lo hi z : Z) :
  safe_integer lo -> safe_integer hi -> lo <= z <= hi -> safe_integer z.
Proof. unfold safe_integer. lia. Qed.

Lemma safe_integer_small (z : Z) : Z.abs z <= 2 -> safe_integer z.
Proof.
  unfold safe_integer. intros H.
  assert (P : 2 < 2 ^ 53) by reflexivity. lia.
Qed.

(** Line 28 on safe integers.  When [k] is negative or larger than
    [min(K, n)] the differences are not looked at. *)
Lemma machine_out_of_support (N K n k : Z) :
  safe_integer N -> safe_integer K -> safe_integer n -> safe_integer k ->
  (0 <= k <= Z.min K n ->
   safe_integer (N - K) /\ safe_integer (n - (N - K))) ->
  Machine.out_of_support (Float64.of_Z N) (Float64.of_Z K) (Float64.of_Z n)
    (Float64.of_Z k) = out_of_support N K n k.
Proof.
  intros HN HK Hn Hk Hd.
  assert (Hm : safe_integer (Z.min K n)).
  { apply (safe_integer_between (Z.min K n) (Z.min K n)); try lia;
      destruct (Z.min_spec K n) as [[_ ->]|[_ ->]]; assumption. }
  unfold Machine.out_of_support, out_of_support.
  change 0%float with (Float64.of_Z 0).
  rewrite of_Z_min, !(of_Z_ltb k 0), (of_Z_ltb (Z.min K n) k)
    by (assumption || apply safe_integer_small; cbn; lia).
  destruct (Z.ltb_spec k 0) as [L|L]; [reflexivity|].
  destruct (Z.ltb_spec (Z.min K n) k) as [M|M]; [reflexivity|].
  destruct (Hd ltac:(lia)) as [H1 H2].
  cbn [orb].
  rewrite (of_Z_sub N K), (of_Z_sub n (N - K)) by assumption.
  assert (Hx : safe_integer (Z.max 0 (n - (N - K)))).
  { destruct (Z.max_spec 0 (n - (N - K))) as [[_ ->]|[_ ->]];
      [assumption | apply safe_integer_small; cbn; lia]. }
  rewrite of_Z_max, of_Z_ltb
    by (assumption || apply safe_integer_small; cbn; lia).
  reflexivity.
Qed.

Lemma machine_effectiveDeck (i : Inputs) :
  safe_inputs i ->
  Machine.effectiveDeck (inputs_as_Numbers i) = Float64.of_Z (effectiveDeck i).
Proof.
  intros (Hd & Ht & _ & _ & H2 & HN).
  unfold Machine.effectiveDeck, effectiveDeck, inputs_as_Numbers.
  cbn [Machine.deckSize Machine.turn].
  rewrite of_Z_double, of_Z_sub by assumption. reflexivity.
Qed.

(** The five tests of the validation on safe inputs. *)
Lemma machine_validate (i : Inputs) :
  safe_inputs i -> Machine.validate (inputs_as_Numbers i) = validate i.
Proof.
  intros S. assert (E := machine_effectiveDeck i S).
  destruct S as (Hd & Ht & Hs & Hk & H2 & HN).
  unfold Machine.validate, validate. cbv zeta. rewrite E.
  unfold inputs_as_Numbers.
  cbn [Machine.deckSize Machine.sampleSize Machine.targets].
  change 1%float with (Float64.of_Z 1).
  rewrite !of_Z_ltb by (assumption || apply safe_integer_small; cbn; lia).
  reflexivity.
Qed.

(** ** The two readings of the script agree on safe integers *)

Lemma agree_ret {A B : Type} (f : A -> B) (a : A) :
  agree f (Machine.ret (f a)) (ret a).
Proof. reflexivity. Qed.

Lemma agree_bind {A B C : Type} (f : B -> C)
      (m : Machine.run A) (t : traced A)
      (k : A -> Machine.run C) (h : A -> traced B) :
  agree (fun a => a) m t ->
  (forall a : A, agree f (k a) (h a)) ->
  agree f (Machine.bind m k) (bind t h).
Proof.
  unfold agree. intros -> H.
  destruct t as [a t1]. cbn [value trace fst snd Machine.bind bind].
  rewrite (H a). destruct (h a) as [b t2]. cbn [value trace fst snd].
  now rewrite map_app.
Qed.

Lemma agree_emit {A B : Type} (f : A -> B) (e : event)
      (k : Machine.run B) (h : traced A) :
  agree f k h ->
  agree f (Machine.bind (Machine.emit (event_as_Numbers e)) (fun _ => k))
          (bind (emit e) (fun _ => h)).
Proof.
  unfold agree. intros ->.
  destruct h as [a t]. reflexivity.
Qed.

Section Refinement.

Variables log exp : float -> float.

Local Abbreviation engine := (Float64.number log exp).

(** The loop of [logFactorial], [c] rounds before its end. *)
Lemma machine_logFactorial_loop (n : Z) :
  safe_integer n -> safe_integer (n + 1) ->
  forall (c fz fm : nat) (i : Z) (r : float),
    0 <= i <= n + 1 -> Z.to_nat (n + 1 - i) = c ->
    (c <= fz)%nat -> (c < fm)%nat ->
    Machine.logFactorial_loop log fm (Float64.of_Z n) (Float64.of_Z i) r =
    Some (logFactorial_loop (NUM := engine) fz n i r).
Proof.
  intros Hn Hn1. induction c as [|c IH]; intros fz fm i r Hi Hc Hz Hm.
  - assert (i = n + 1) by lia. subst i.
    destruct fm as [|fm]; [lia|]. cbn [Machine.logFactorial_loop].
    rewrite of_Z_leb by assumption.
    replace (n + 1 <=? n) with false by (symmetry; apply Z.leb_gt; lia).
    destruct fz; cbn [logFactorial_loop]; [reflexivity|].
    replace (n + 1 <=? n) with false by (symmetry; apply Z.leb_gt; lia).
    reflexivity.
  - assert (Hs : safe_integer i)
      by (apply (safe_integer_between 0 (n + 1));
          [apply safe_integer_small; cbn; lia | assumption | lia]).
    assert (Hs1 : safe_integer (i + 1))
      by (apply (safe_integer_between 0 (n + 1));
          [apply safe_integer_small; cbn; lia | assumption | lia]).
    destruct fm as [|fm]; [lia|]. destruct fz as [|fz]; [lia|].
    cbn [Machine.logFactorial_loop logFactorial_loop].
    rewrite of_Z_leb by assumption.
    replace (i <=? n) with true by (symmetry; apply Z.leb_le; lia).
    change 1%float with (Float64.of_Z 1).
    rewrite of_Z_add by (assumption || apply safe_integer_small; cbn; lia).
    apply IH; lia.
Qed.

Lemma machine_logFactorial (fuel : nat) (n : Z) :
  safe_integer n -> safe_integer (n + 1) -> (Z.to_nat n <= fuel)%nat ->
  agree (fun x => x)
    (Machine.logFactorial log fuel (Float64.of_Z n))
    (logFactorial (NUM := engine) n).
Proof.
  intros Hn Hn1 Hf. unfold Machine.logFactorial, logFactorial.
  apply (agree_emit _ (Call_logFactorial n)).
  change 1%float with (Float64.of_Z 1).
  rewrite of_Z_leb by (assumption || apply safe_integer_small; cbn; lia).
  destruct (Z.leb_spec n 1) as [L|L]; [reflexivity|].
  change 2%float with (Float64.of_Z 2).
  rewrite (machine_logFactorial_loop n Hn Hn1 (Z.to_nat (n - 1)) (Z.to_nat n)
             fuel 2 0%float) by lia.
  reflexivity.
Qed.

Lemma machine_binomialCoefficient (fuel : nat) (n k : Z) :
  safe_integer n -> safe_integer (n + 1) -> safe_integer k ->
  (Z.to_nat n <= fuel)%nat ->
  agree (fun x => x)
    (Machine.binomialCoefficient log exp fuel (Float64.of_Z n) (Float64.of_Z k))
    (binomialCoefficient (NUM := engine) n k).
Proof.
  intros Hn Hn1 Hk Hf.
  assert (S0 : safe_integer 0) by (apply safe_integer_small; cbn; lia).
  unfold Machine.binomialCoefficient, binomialCoefficient.
  apply (agree_emit _ (Call_binomialCoefficient n k)).
  change 0%float with (Float64.of_Z 0).
  rewrite !of_Z_ltb, !of_Z_eqb by assumption.
  destruct (Z.ltb_spec k 0) as [L|L]; [reflexivity|].
  destruct (Z.ltb_spec n k) as [M|M]; [reflexivity|].
  cbn [orb].
  destruct (Z.eqb_spec k 0) as [E|E]; [reflexivity|].
  destruct (Z.eqb_spec k n) as [F|F]; [reflexivity|].
  cbn [orb].
  assert (Hd : safe_integer (n - k))
    by (apply (safe_integer_between 0 n); [assumption | assumption | lia]).
  assert (Hk1 : safe_integer (k + 1))
    by (apply (safe_integer_between 0 (n + 1)); [assumption | assumption | lia]).
  assert (Hd1 : safe_integer (n - k + 1))
    by (apply (safe_integer_between 0 (n + 1)); [assumption | assumption | lia]).
  rewrite of_Z_sub by assumption.
  apply agree_bind; [apply machine_logFactorial; (assumption || lia)|]. intros ln.
  apply agree_bind; [apply machine_logFactorial; (assumption || lia)|]. intros lk.
  apply agree_bind; [apply machine_logFactorial; (assumption || lia)|]. intros lnk.
  reflexivity.
Qed.

Lemma machine_hypergeometric (fuel : nat) (N K n k : Z) :
  safe_integer N -> safe_integer (N + 1) ->
  safe_integer K -> safe_integer n -> safe_integer k ->
  (0 <= k <= Z.min K n ->
   safe_integer (N - K) /\ safe_integer (n - (N - K))) ->
  (Z.to_nat N <= fuel)%nat ->
  agree (fun x => x)
    (Machine.hypergeometric log exp fuel (Float64.of_Z N) (Float64.of_Z K)
       (Float64.of_Z n) (Float64.of_Z k))
    (hypergeometric (NUM := engine) N K n k).
Proof.
  intros HN HN1 HK Hn Hk Hd Hf.
  assert (S0 : safe_integer 0) by (apply safe_integer_small; cbn; lia).
  unfold Machine.hypergeometric, hypergeometric.
  apply (agree_emit _ (Call_hypergeometric N K n k)).
  rewrite machine_out_of_support by assumption.
  fold (out_of_support N K n k).
  destruct (out_of_support N K n k) eqn:O; [reflexivity|].
  apply out_of_support_false in O.
  destruct (Hd ltac:(lia)) as [HNK _].
  assert (HNK1 : safe_integer (N - K + 1))
    by (apply (safe_integer_between 0 (N + 1)); (assumption || lia)).
  assert (Hnk : safe_integer (n - k))
    by (apply (safe_integer_between 0 N); (assumption || lia)).
  assert (HK1 : safe_integer (K + 1))
    by (apply (safe_integer_between 0 (N + 1)); (assumption || lia)).
  rewrite (of_Z_sub N K), (of_Z_sub n k) by assumption.
  apply agree_bind; [apply machine_binomialCoefficient; (assumption || lia)|].
  intros a.
  apply agree_bind; [apply machine_binomialCoefficient; (assumption || lia)|].
  intros b. cbv zeta.
  apply agree_bind; [apply machine_binomialCoefficient; (assumption || lia)|].
  intros d.
  change (strict_eq d (of_int 0)) with (PrimFloat.eqb d 0).
  destruct (PrimFloat.eqb d 0); reflexivity.
Qed.

(** For arguments checked by the validation the differences are safe. *)
Lemma safe_differences (N K n k : Z) :
  safe_integer N -> K <= N -> n <= N -> 0 <= k <= Z.min K n ->
  safe_integer (N - K) /\ safe_integer (n - (N - K)).
Proof.
  unfold safe_integer. intros HN LK Ln B. lia.
Qed.

(** The loop of [renderChart], [c] rounds before its end. *)
Lemma machine_renderChart_loop (fuel : nat) (N K n maxK : Z) :
  safe_integer N -> safe_integer (N + 1) ->
  safe_integer K -> safe_integer n ->
  K <= N -> n <= N -> maxK <= N -> safe_integer maxK ->
  (Z.to_nat N <= fuel)%nat ->
  forall (c fz fm : nat) (k : Z) (probabilities : list float) (maxProb : float),
    0 <= k -> k <= maxK + 1 -> Z.to_nat (maxK + 1 - k) = c ->
    (c <= fz)%nat -> (c < fm)%nat ->
    agree (fun x => x)
      (Machine.renderChart_loop log exp fuel fm (Float64.of_Z N) (Float64.of_Z K)
         (Float64.of_Z n) (Float64.of_Z maxK) (Float64.of_Z k)
         probabilities maxProb)
      (renderChart_loop (NUM := engine) fz N K n maxK k probabilities maxProb).
Proof.
  intros HN HN1 HK Hn LK Ln Lm Hm Hf.
  assert (S0 : safe_integer 0) by (apply safe_integer_small; cbn; lia).
  induction c as [|c IH]; intros fz fm k probabilities maxProb Hk0 Hk Hc Hz Hfm.
  - assert (Sk : safe_integer k)
      by (apply (safe_integer_between 0 (N + 1)); (assumption || lia)).
    destruct fm as [|fm]; [lia|]. cbn [Machine.renderChart_loop].
    rewrite of_Z_leb by assumption.
    replace (k <=? maxK) with false by (symmetry; apply Z.leb_gt; lia).
    destruct fz; cbn [renderChart_loop]; [reflexivity|].
    replace (k <=? maxK) with false by (symmetry; apply Z.leb_gt; lia).
    reflexivity.
  - assert (Sk : safe_integer k)
      by (apply (safe_integer_between 0 (N + 1)); (assumption || lia)).
    assert (Sk1 : safe_integer (k + 1))
      by (apply (safe_integer_between 0 (N + 1)); (assumption || lia)).
    destruct fm as [|fm]; [lia|]. destruct fz as [|fz]; [lia|].
    cbn [Machine.renderChart_loop renderChart_loop].
    rewrite of_Z_leb by assumption.
    replace (k <=? maxK) with true by (symmetry; apply Z.leb_le; lia).
    apply agree_bind;
      [apply machine_hypergeometric;
       (assumption || lia || (apply safe_differences; assumption))|].
    intros p.
    change 1%float with (Float64.of_Z 1).
    rewrite of_Z_add by (assumption || apply safe_integer_small; cbn; lia).
    apply IH; lia.
Qed.

Lemma machine_renderChart (fuel : nat) (N K n : Z) :
  safe_integer N -> safe_integer (N + 1) ->
  safe_integer K -> safe_integer n ->
  K <= N -> n <= N -> (Z.to_nat N + 2 <= fuel)%nat ->
  agree (fun x => x)
    (Machine.renderChart log exp fuel (Float64.of_Z N) (Float64.of_Z K)
       (Float64.of_Z n))
    (renderChart (NUM := engine) N K n).
Proof.
  intros HN HN1 HK Hn LK Ln Hf.
  assert (Hm : safe_integer (Z.min K n)).
  { destruct (Z.min_spec K n) as [[_ ->]|[_ ->]]; assumption. }
  unfold Machine.renderChart, renderChart. cbv zeta.
  rewrite of_Z_min by assumption.
  change 0%float with (Float64.of_Z 0) at 1.
  destruct (Z.le_gt_cases 0 (Z.min K n + 1)) as [P|P].
  - apply (machine_renderChart_loop fuel N K n (Z.min K n) HN HN1 HK Hn LK Ln
             ltac:(lia) Hm ltac:(lia) (Z.to_nat (Z.min K n + 1))); lia.
  - (* no round at all *)
    replace (Z.to_nat (Z.min K n + 1)) with 0%nat by lia.
    destruct fuel as [|fuel]; [lia|].
    cbn [Machine.renderChart_loop renderChart_loop].
    rewrite of_Z_leb by (assumption || apply safe_integer_small; cbn; lia).
    replace (0 <=? Z.min K n) with false by (symmetry; apply Z.leb_gt; lia).
    reflexivity.
Qed.

(** The base cases of [binomialCoefficient] need no fuel. *)
Lemma machine_binomialCoefficient_base (fuel : nat) (n k : Z) :
  safe_integer n -> safe_integer k -> 0 <= n -> k = 0 \/ k = n ->
  Machine.binomialCoefficient log exp fuel (Float64.of_Z n) (Float64.of_Z k) =
  Some (1%float,
        [Machine.Call_binomialCoefficient (Float64.of_Z n) (Float64.of_Z k)]).
Proof.
  intros Hn Hk P B.
  assert (S0 : safe_integer 0) by (apply safe_integer_small; cbn; lia).
  unfold Machine.binomialCoefficient.
  change 0%float with (Float64.of_Z 0).
  rewrite !of_Z_ltb, !of_Z_eqb by assumption.
  replace (k <? 0) with false by (symmetry; apply Z.ltb_ge; lia).
  replace (n <? k) with false by (symmetry; apply Z.ltb_ge; lia).
  replace ((k =? 0) || (k =? n)) with true; [reflexivity|].
  symmetry. apply orb_true_iff. destruct B as [B|B]; [left | right];
    apply Z.eqb_eq; exact B.
Qed.

(** Drawing nothing, or the whole deck, with any fuel. *)
Lemma machine_degenerate_hand (fuel : nat) (N K n k : Z) :
  0 <= K <= N -> safe_integer N -> safe_integer k -> n = 0 \/ n = N ->
  option_map fst
    (Machine.hypergeometric log exp fuel (Float64.of_Z N) (Float64.of_Z K)
       (Float64.of_Z n) (Float64.of_Z k)) =
  Some (if k =? Z.max 0 (n - (N - K)) then 1%float else 0%float).
Proof.
  intros H SN Sk Dn.
  assert (S0 : safe_integer 0) by (apply safe_integer_small; cbn; lia).
  assert (Sm : safe_integer (- N)) by (unfold safe_integer in *; lia).
  assert (SK : safe_integer K)
    by (apply (safe_integer_between 0 N); (assumption || lia)).
  assert (Sn : safe_integer n) by (destruct Dn; subst; assumption).
  assert (SD : safe_integer (N - K))
    by (apply (safe_integer_between 0 N); (assumption || lia)).
  assert (SE : safe_integer (n - (N - K)))
    by (apply (safe_integer_between (- N) N); (assumption || lia)).
  unfold Machine.hypergeometric.
  rewrite machine_out_of_support by (assumption || (intros _; now split)).
  destruct (Z.eqb_spec k (Z.max 0 (n - (N - K)))) as [E|E].
  - replace (out_of_support N K n k) with false
      by (symmetry; apply out_of_support_false; lia).
    assert (Snk : safe_integer (n - k))
      by (apply (safe_integer_between 0 N); (assumption || lia)).
    rewrite (of_Z_sub N K), (of_Z_sub n k) by assumption.
    rewrite (machine_binomialCoefficient_base fuel K k),
            (machine_binomialCoefficient_base fuel (N - K) (n - k)),
            (machine_binomialCoefficient_base fuel N n)
      by (assumption || lia).
    reflexivity.
  - replace (out_of_support N K n k) with true
      by (symmetry; apply out_of_support_true; lia).
    reflexivity.
Qed.

(** The whole calculation: on safe inputs whose remaining deck is below
    [2^53 - 1], the script read with nothing but Numbers writes the page
    of the integer reading after the same calls. *)
Lemma machine_calculateAll (fuel : nat) (i : Inputs) :
  safe_inputs i -> safe_integer (effectiveDeck i + 1) ->
  (Z.to_nat (effectiveDeck i) + 2 <= fuel)%nat ->
  agree page_as_Numbers
    (Machine.calculateAll log exp fuel (inputs_as_Numbers i))
    (calculateAll (NUM := engine) i).
Proof.
  intros S HN1 Hf.
  assert (EN := machine_effectiveDeck i S).
  assert (EV := machine_validate i S).
  destruct S as (Hd & Ht & Hs & Hk & H2 & HN).
  fold (effectiveDeck i) in HN.
  unfold Machine.calculateAll, calculateAll. cbv zeta.
  rewrite EV, EN.
  destruct (validate i) as [|msg rest] eqn:V; [|reflexivity].
  apply validate_nil in V. unfold validation_fails in V.
  cbn [List.length Nat.ltb Nat.leb].
  unfold inputs_as_Numbers. cbn [Machine.targets Machine.sampleSize].
  change 0%float with (Float64.of_Z 0). change 1%float with (Float64.of_Z 1).
  apply agree_bind;
    [apply machine_hypergeometric;
     first [assumption | lia | apply safe_differences; (assumption || lia)
           | apply safe_integer_small; cbn; lia]|].
  intros whiff.
  apply agree_bind;
    [apply machine_hypergeometric;
     first [assumption | lia | apply safe_differences; (assumption || lia)
           | apply safe_integer_small; cbn; lia]|].
  intros exactlyOne.
  apply agree_bind; [apply machine_renderChart; (assumption || lia)|].
  intros chart. reflexivity.
Qed.

End Refinement.

(** A safe integer is printed digit by digit. *)
Lemma toString_of_Z (shortest : float -> string) (z : Z) :
  safe_integer z ->
  Float64Text.Number_toString shortest (Float64.of_Z z) = integer_text z.
Proof.
  unfold safe_integer. intros B. destruct z as [|m|m].
  - reflexivity.
  - destruct (of_Z_exact false m B) as (mz & ez & E & Sm & Mg).
    unfold Float64Text.Number_toString. cbv zeta in E. rewrite E, Sm, Mg.
    reflexivity.
  - destruct (of_Z_exact true m B) as (mz & ez & E & Sm & Mg).
    unfold Float64Text.Number_toString. cbv zeta in E. rewrite E, Sm, Mg.
    reflexivity.
Qed.

(** Both readings write the same page. *)
Lemma machine_display (log exp : float -> float) (shortest : float -> string)
      (i : Inputs) (p : Page float) :
  safe_integer (turn i) ->
  match p with Errors N _ | Results N _ _ => safe_integer N end ->
  Machine.display log exp shortest (inputs_as_Numbers i) (page_as_Numbers p) =
  display (NUM := Float64.number log exp) (PRES := Float64Text.presentation)
          (TXT := Float64Text.text shortest) i p.
Proof.
  intros Ht HN.
  destruct p as [N errors|N s [probabilities maxProb]];
    cbn [page_as_Numbers Machine.display display inputs_as_Numbers Machine.turn];
    rewrite !toString_of_Z by assumption; reflexivity.
Qed.

(** * The claims *)

(** ** C1: the first concrete scenario *)

Lemma binomial_45_7 : binomial 45 7 = 45379620.
Proof. rewrite binomial_quotient by lia. reflexivity. Qed.

Lemma binomial_48_7 : binomial 48 7 = 73629072.
Proof. rewrite binomial_quotient by lia. reflexivity. Qed.

Lemma exact_value_of_scenario_1 :
  value (hypergeometric (NUM := Exact.number) 48 3 7 0) =
  (45379620 / 73629072)%R.
Proof.
  rewrite exact_hypergeometric by reflexivity.
  change (48 - 3) with 45. change (7 - 0) with 7.
  rewrite binomial_45_7, binomial_48_7.
  rewrite (binomial_inside 3 0) by lia. rewrite choose_0_r.
  reflexivity.
Qed.

Lemma float_value_of_scenario_1 (log exp : float -> float) :
  value (binomialCoefficient (NUM := Float64.number log exp) 45 7)
    = 45379620%float ->
  value (binomialCoefficient (NUM := Float64.number log exp) 48 7)
    = 73629072%float ->
  value (hypergeometric (NUM := Float64.number log exp) 48 3 7 0)
    = (45379620 / 73629072)%float.
Proof.
  intros H45 H48.
  rewrite hypergeometric_value_in_support by reflexivity.
  cbv zeta. change (48 - 3) with 45. change (7 - 0) with 7.
  rewrite (binomialCoefficient_base 3 0) by lia.
  rewrite H45, H48. reflexivity.
Qed.

(** C1, refuted as stated.  [hypergeometric(48, 3, 7, 0)] is not
    approximately 0.5612: in exact arithmetic it is further than 0.05 from
    that number, and so is the binary64 result on the reference platform. *)
Lemma scenario_1_is_not_0_5612 :
  ~ (Rabs (value (hypergeometric (NUM := Exact.number) 48 3 7 0) - 0.5612)
     <= 0.05)%R /\
  value (hypergeometric (NUM := Reference.number) 48 3 7 0)
    = 0.616327474560592%float /\
  Float64.within 0.05 0.5612
    (value (hypergeometric (NUM := Reference.number) 48 3 7 0)) = false.
Proof.
  split; [|split].
  - rewrite exact_value_of_scenario_1. intros H.
    unfold Rabs in H. destruct (Rcase_abs _) in H; lra.
  - run_script.
  - run_script.
Qed.

(** C1, as amended.  For N = 48, K = 3, n = 7, k = 0 the script returns
    C(45,7) / C(48,7) = 45379620 / 73629072, about 0.6163: exactly that
    quotient in exact arithmetic, and within 0.00005 of 0.6163 in binary64
    on every engine whose [Math.log] and [Math.exp] are accurate enough for
    [binomialCoefficient] to round to these two integers. *)
Theorem hypergeometric_48_3_7_0 (log exp : float -> float) :
  value (binomialCoefficient (NUM := Float64.number log exp) 45 7)
    = 45379620%float ->
  value (binomialCoefficient (NUM := Float64.number log exp) 48 7)
    = 73629072%float ->
  value (hypergeometric (NUM := Exact.number) 48 3 7 0)
    = (45379620 / 73629072)%R /\
  (Rabs (value (hypergeometric (NUM := Exact.number) 48 3 7 0) - 0.6163)
     <= 0.00005)%R /\
  Float64.within 0.00005 0.6163
    (value (hypergeometric (NUM := Float64.number log exp) 48 3 7 0)) = true.
Proof.
  intros H45 H48. split; [|split].
  - exact exact_value_of_scenario_1.
  - rewrite exact_value_of_scenario_1. apply Rabs_le. lra.
  - rewrite (float_value_of_scenario_1 log exp H45 H48).
    run_script.
Qed.

(** The reference platform rounds both coefficients to these integers. *)
Lemma reference_platform_gives_0_6163 :
  (value (binomialCoefficient (NUM := Reference.number) 45 7)
     = 45379620%float /\
   value (binomialCoefficient (NUM := Reference.number) 48 7)
     = 73629072%float) /\
  (value (hypergeometric (NUM := Exact.number) 48 3 7 0)
     = (45379620 / 73629072)%R /\
   (Rabs (value (hypergeometric (NUM := Exact.number) 48 3 7 0) - 0.6163)
      <= 0.00005)%R /\
   Float64.within 0.00005 0.6163
     (value (hypergeometric (NUM := Reference.number) 48 3 7 0)) = true).
Proof.
  split.
  - split; run_script.
  - apply (hypergeometric_48_3_7_0 Reference.log Reference.exp);
      run_script.
Defined.

(** ** C2: the probabilities of a distribution add up to one *)

(** C2, at a failing input.  For a valid triple [(N, 0, n)] with
    [0 < n < N] the sum over [k = 0 .. min(K, n)] has the single term
    [hypergeometric(N, 0, n, 0)]; when [Math.exp] overflows inside
    [binomialCoefficient(N, n)] that term is [Infinity / Infinity], so the
    sum is NaN and not 1 within any tolerance. *)
Theorem pmf_total_is_nan_when_binomial_overflows
        (log exp : float -> float) (N n : Z) :
  0 < n < N ->
  value (binomialCoefficient (NUM := Float64.number log exp) N n) = infinity ->
  total (NUM := Float64.number log exp)
    (map (fun k => value (hypergeometric (NUM := Float64.number log exp) N 0 n k))
         (support_indices 0 n)) = nan /\
  Float64.within 1e-6 1 nan = false.
Proof.
  intros H Hinf. split; [|reflexivity].
  rewrite support_indices_no_targets by lia.
  cbn [map]. rewrite float_hypergeometric_overflow by (lia || assumption).
  reflexivity.
Qed.

(** On the reference platform [Math.exp] overflows for N = 2000, n = 1000. *)
Lemma pmf_total_2000_0_1000_on_reference :
  (0 < 1000 < 2000 /\
   value (binomialCoefficient (NUM := Reference.number) 2000 1000) = infinity) /\
  (total (NUM := Reference.number)
     (map (fun k => value (hypergeometric (NUM := Reference.number) 2000 0 1000 k))
          (support_indices 0 1000)) = nan /\
   Float64.within 1e-6 1 nan = false).
Proof.
  split.
  - split; [lia | run_script].
  - apply (pmf_total_is_nan_when_binomial_overflows
             Reference.log Reference.exp 2000 1000);
      [lia | run_script].
Defined.

(** ** C3: the support check *)

(** C3, refuted as stated.  [n - (N - K)] is a binary64 subtraction.  For
    [N = n = 9007199254740996 = 2^53 + 4], [K = 1] and [k = 0] the integer
    condition [k < max(0, n - (N - K))] holds (the maximum is 1), but
    [N - K] rounds back to [N], the test of line 28 is false, and the
    script computes three binomial coefficients, divides and returns 1.
    (Only base cases are met, so no loop is entered and no fuel is
    needed.) *)
Lemma hypergeometric_beyond_the_safe_integers :
  (0 < 0 \/ 0 > Z.min 1 9007199254740996 \/
   0 < Z.max 0 (9007199254740996 - (9007199254740996 - 1))) /\
  Machine.out_of_support
    (Float64.of_Z 9007199254740996) (Float64.of_Z 1)
    (Float64.of_Z 9007199254740996) (Float64.of_Z 0) = false /\
  Machine.hypergeometric Reference.log Reference.exp 0
    (Float64.of_Z 9007199254740996) (Float64.of_Z 1)
    (Float64.of_Z 9007199254740996) (Float64.of_Z 0) =
  Some (1%float,
        [Machine.Call_hypergeometric
           (Float64.of_Z 9007199254740996) (Float64.of_Z 1)
           (Float64.of_Z 9007199254740996) (Float64.of_Z 0);
         Machine.Call_binomialCoefficient (Float64.of_Z 1) (Float64.of_Z 0);
         Machine.Call_binomialCoefficient
           (Float64.of_Z 9007199254740996) (Float64.of_Z 9007199254740996);
         Machine.Call_binomialCoefficient
           (Float64.of_Z 9007199254740996) (Float64.of_Z 9007199254740996);
         Machine.Op_divide]).
Proof.
  split; [right; right; reflexivity | split; run_script].
Qed.

(** C3, as amended.  For safe integers [N], [K], [n], [k] whose differences
    [N - K] and [n - (N - K)] are safe integers too: whenever [k < 0],
    [k > min(K, n)] or [k < max(0, n - (N - K))], [hypergeometric] returns
    0 and its trace holds nothing but its own call, so no binomial
    coefficient was computed and nothing was divided.  This holds for the
    script read with nothing but binary64 Numbers, on every engine and with
    any fuel, and for the integer reading with every kind of Number. *)
Theorem hypergeometric_outside_support
        (log exp : float -> float) {num : Type} {NUM : Number num}
        (N K n k : Z) :
  safe_arguments N K n k ->
  k < 0 \/ k > Z.min K n \/ k < Z.max 0 (n - (N - K)) ->
  (forall fuel : nat,
     Machine.hypergeometric log exp fuel
       (Float64.of_Z N) (Float64.of_Z K) (Float64.of_Z n) (Float64.of_Z k) =
     Some (0%float,
           [Machine.Call_hypergeometric
              (Float64.of_Z N) (Float64.of_Z K) (Float64.of_Z n)
              (Float64.of_Z k)])) /\
  value (hypergeometric N K n k) = of_int 0 /\
  trace (hypergeometric N K n k) = [Call_hypergeometric N K n k] /\
  Forall (fun e => is_binomial_or_division e = false)
         (trace (hypergeometric N K n k)).
Proof.
  intros (HN & HK & Hn & Hk & H1 & H2) H.
  assert (E : out_of_support N K n k = true).
  { apply out_of_support_true. lia. }
  split.
  - intros fuel. unfold Machine.hypergeometric.
    rewrite machine_out_of_support, E by (assumption || (intros _; now split)).
    reflexivity.
  - rewrite (hypergeometric_short_circuit N K n k E).
    repeat split. repeat constructor.
Qed.

(** Scenario 5 of the specification: [5 > min(2, 5)]. *)
Lemma hypergeometric_10_2_5_5_outside_support :
  safe_arguments 10 2 5 5 /\
  (5 < 0 \/ 5 > Z.min 2 5 \/ 5 < Z.max 0 (5 - (10 - 2))) /\
  (forall fuel : nat,
     Machine.hypergeometric Reference.log Reference.exp fuel
       (Float64.of_Z 10) (Float64.of_Z 2) (Float64.of_Z 5) (Float64.of_Z 5) =
     Some (0%float,
           [Machine.Call_hypergeometric
              (Float64.of_Z 10) (Float64.of_Z 2) (Float64.of_Z 5)
              (Float64.of_Z 5)])) /\
  value (hypergeometric (NUM := Reference.number) 10 2 5 5) = 0%float /\
  trace (hypergeometric (NUM := Reference.number) 10 2 5 5)
    = [Call_hypergeometric 10 2 5 5] /\
  Forall (fun e => is_binomial_or_division e = false)
         (trace (hypergeometric (NUM := Reference.number) 10 2 5 5)).
Proof.
  assert (S : safe_arguments 10 2 5 5) by (repeat split; reflexivity).
  assert (H : 5 < 0 \/ 5 > Z.min 2 5 \/ 5 < Z.max 0 (5 - (10 - 2)))
    by (right; left; reflexivity).
  split; [exact S | split; [exact H |]].
  exact (hypergeometric_outside_support Reference.log Reference.exp
           (NUM := Reference.number) 10 2 5 5 S H).
Defined.

(** ** C4: every result is a probability *)

Lemma deck_5_is_valid :
  ~ validation_fails {| deckSize := 5; turn := 0; sampleSize := 1; targets := 1 |}.
Proof. unfold validation_fails, effectiveDeck. simpl. lia. Qed.

(** C4, at two failing inputs.  On every engine that gets C(4,1) = 4 and
    C(5,1) = 5 right, a deck of 5 with one target and one draw gives
    [pTwoOrMore = 1 - 0.8 - 0.2], which binary64 rounds to a negative
    number; and on every engine where [Math.exp] overflows in
    [binomialCoefficient(2000, 1000)], [hypergeometric(2000, 0, 1000, 0)]
    is NaN.  Neither lies in [[0, 1]]. *)
Theorem summary_statistics_leave_unit_interval (log exp : float -> float) :
  value (binomialCoefficient (NUM := Float64.number log exp) 4 1) = 4%float ->
  value (binomialCoefficient (NUM := Float64.number log exp) 5 1) = 5%float ->
  value (binomialCoefficient (NUM := Float64.number log exp) 2000 1000)
    = infinity ->
  (exists s : Summary float,
     statistics
       (value (calculateAll (NUM := Float64.number log exp)
                 {| deckSize := 5; turn := 0; sampleSize := 1; targets := 1 |}))
       = Some s /\
     PrimFloat.ltb (pTwoOrMore s) 0 = true /\
     Float64.between 0 1 (pTwoOrMore s) = false) /\
  value (hypergeometric (NUM := Float64.number log exp) 2000 0 1000 0) = nan /\
  Float64.between 0 1 nan = false.
Proof.
  intros H4 H5 Hinf. split; [|split].
  - rewrite calculateAll_accepted by exact deck_5_is_valid.
    cbv zeta. eexists. split; [reflexivity|].
    cbn [pTwoOrMore sampleSize targets].
    change (effectiveDeck _) with 5.
    rewrite (float_whiff_5_1_1 log exp H4 H5).
    rewrite (float_exactlyOne_5_1_1 log exp H5).
    split; run_script.
  - apply float_hypergeometric_overflow; [lia | exact Hinf].
  - reflexivity.
Qed.

(** The reference platform meets the three conditions. *)
Lemma summary_statistics_on_reference :
  (value (binomialCoefficient (NUM := Reference.number) 4 1) = 4%float /\
   value (binomialCoefficient (NUM := Reference.number) 5 1) = 5%float /\
   value (binomialCoefficient (NUM := Reference.number) 2000 1000) = infinity) /\
  ((exists s : Summary float,
      statistics
        (value (calculateAll (NUM := Reference.number)
                  {| deckSize := 5; turn := 0; sampleSize := 1; targets := 1 |}))
        = Some s /\
      PrimFloat.ltb (pTwoOrMore s) 0 = true /\
      Float64.between 0 1 (pTwoOrMore s) = false) /\
   value (hypergeometric (NUM := Reference.number) 2000 0 1000 0) = nan /\
   Float64.between 0 1 nan = false).
Proof.
  split.
  - split; [|split]; run_script.
  - apply (summary_statistics_leave_unit_interval Reference.log Reference.exp);
      run_script.
Defined.

(** ** C5: the five summary statistics *)

(** C5, at a failing input.  With no turn elapsed, no target and
    [0 < sampleSize < deckSize] the input passes validation; when
    [Math.exp] overflows inside [binomialCoefficient(deckSize, sampleSize)],
    [pWhiff] is NaN, and so is [pAtLeastOne + pWhiff], which is then not
    within 1e-9 of 1. *)
Theorem calculateAll_is_nan_when_binomial_overflows
        (log exp : float -> float) (i : Inputs) :
  turn i = 0 -> targets i = 0 -> 0 < sampleSize i < deckSize i ->
  value (binomialCoefficient (NUM := Float64.number log exp)
           (deckSize i) (sampleSize i)) = infinity ->
  ~ validation_fails i /\
  exists s : Summary float,
    statistics (value (calculateAll (NUM := Float64.number log exp) i)) = Some s /\
    pWhiff s = nan /\
    Float64.within 1e-9 1 (PrimFloat.add (pAtLeastOne s) (pWhiff s)) = false.
Proof.
  intros Ht Hk Hs Hinf.
  assert (EN : effectiveDeck i = deckSize i).
  { unfold effectiveDeck. rewrite Ht. lia. }
  assert (V : ~ validation_fails i).
  { unfold validation_fails. rewrite EN, Hk. lia. }
  split; [exact V|].
  rewrite calculateAll_accepted by exact V.
  cbv zeta. eexists. split; [reflexivity|].
  cbn [pWhiff pAtLeastOne]. rewrite EN, Hk.
  rewrite float_hypergeometric_overflow by (lia || assumption).
  split; reflexivity.
Qed.

(** A deck of 2000 with a sample of 1000 and no target, on the reference
    platform. *)
Lemma calculateAll_2000_0_1000_on_reference :
  (turn {| deckSize := 2000; turn := 0; sampleSize := 1000; targets := 0 |} = 0 /\
   targets {| deckSize := 2000; turn := 0; sampleSize := 1000; targets := 0 |} = 0 /\
   0 < 1000 < 2000 /\
   value (binomialCoefficient (NUM := Reference.number) 2000 1000) = infinity) /\
  (~ validation_fails
       {| deckSize := 2000; turn := 0; sampleSize := 1000; targets := 0 |} /\
   exists s : Summary float,
     statistics
       (value (calculateAll (NUM := Reference.number)
                 {| deckSize := 2000; turn := 0; sampleSize := 1000; targets := 0 |}))
       = Some s /\
     pWhiff s = nan /\
     Float64.within 1e-9 1 (PrimFloat.add (pAtLeastOne s) (pWhiff s)) = false).
Proof.
  split.
  - split; [reflexivity | split; [reflexivity | split; [lia |]]].
    run_script.
  - apply (calculateAll_is_nan_when_binomial_overflows
             Reference.log Reference.exp
             {| deckSize := 2000; turn := 0; sampleSize := 1000; targets := 0 |});
      [reflexivity | reflexivity | simpl; lia | run_script].
Defined.

(** ** C6: symmetry of the binomial coefficient *)

Lemma binomial_48_23 : binomial 48 23 = 30957699535776.
Proof. rewrite binomial_quotient by lia. reflexivity. Qed.

(** In exact arithmetic [binomialCoefficient] is symmetric: it is the
    binomial coefficient. *)
Lemma exact_binomialCoefficient_symmetry (n k : Z) :
  0 <= k <= n ->
  value (binomialCoefficient (NUM := Exact.number) n k) =
  value (binomialCoefficient (NUM := Exact.number) n (n - k)).
Proof.
  intros H. rewrite !exact_binomialCoefficient.
  now rewrite (binomial_symmetry n k H).
Qed.

Lemma reference_binomials_checked : reference_binomials_exact 47 = true.
Proof. run_script. Qed.

(** What the check means, for any bound. *)
Lemma reference_binomials_exact_sound (bound : nat) :
  reference_binomials_exact bound = true ->
  forall n k : Z,
    0 <= k <= n -> n <= Z.of_nat bound ->
    PrimFloat.eqb
      (value (binomialCoefficient (NUM := Reference.number) n k))
      (Float64.of_Z (binomial n k)) = true /\
    PrimFloat.eqb
      (value (binomialCoefficient (NUM := Reference.number) n k))
      (value (binomialCoefficient (NUM := Reference.number) n (n - k))) = true.
Proof.
  unfold reference_binomials_exact. intros C n k Hk Hn.
  rewrite forallb_forall in C.
  specialize (C n). rewrite In_Zrange in C.
  specialize (C ltac:(lia)).
  rewrite forallb_forall in C.
  specialize (C k). rewrite In_Zrange in C.
  specialize (C ltac:(lia)).
  apply andb_prop in C. rewrite binomial_quotient by exact Hk. exact C.
Qed.

(** C6, at a failing input.  The formula is symmetric: in exact arithmetic
    [binomialCoefficient(n, k) = binomialCoefficient(n, n - k)] for all
    [0 <= k <= n].  In binary64, with a [Math.log] and a [Math.exp]
    accurate to about one unit in the last place, the rounding at the end
    of [binomialCoefficient] makes up for the errors of the logarithms as
    long as [n <= 47]: the result is exactly C(n, k), and symmetric.  For
    [n = 48] it does not: [binomialCoefficient(48, 23)] is
    [C(48, 23) + 1] while [binomialCoefficient(48, 48 - 23)] is
    [C(48, 23)].  The first subtracts [ln 23!] and then [ln 25!] from
    [ln 48!], the second subtracts them in the other order, and
    [Math.round] does not absorb the difference. *)
Theorem binomialCoefficient_is_asymmetric_at_48_23 :
  (forall n k : Z,
     0 <= k <= n ->
     value (binomialCoefficient (NUM := Exact.number) n k) =
     value (binomialCoefficient (NUM := Exact.number) n (n - k))) /\
  (forall n k : Z,
     0 <= k <= n -> n <= 47 ->
     PrimFloat.eqb
       (value (binomialCoefficient (NUM := Reference.number) n k))
       (Float64.of_Z (binomial n k)) = true /\
     PrimFloat.eqb
       (value (binomialCoefficient (NUM := Reference.number) n k))
       (value (binomialCoefficient (NUM := Reference.number) n (n - k)))
     = true) /\
  binomial 48 23 = 30957699535776 /\
  value (binomialCoefficient (NUM := Reference.number) 48 23)
    = 30957699535777%float /\
  value (binomialCoefficient (NUM := Reference.number) 48 (48 - 23))
    = 30957699535776%float /\
  PrimFloat.eqb
    (value (binomialCoefficient (NUM := Reference.number) 48 23))
    (value (binomialCoefficient (NUM := Reference.number) 48 (48 - 23)))
  = false.
Proof.
  split; [exact exact_binomialCoefficient_symmetry|].
  split.
  { intros n k Hk Hn.
    apply (reference_binomials_exact_sound 47 reference_binomials_checked);
      lia. }
  split; [exact binomial_48_23|].
  split; [run_script | split; run_script].
Qed.

(** ** C7: the base cases of the binomial coefficient *)

(** C7.  For [n >= 0], [binomialCoefficient(n, 0)] and
    [binomialCoefficient(n, n)] return exactly 1 and their trace holds
    nothing but their own call, so no logarithm was taken; for [k < 0] or
    [k > n] the result is 0.  This holds for every kind of Number. *)
Theorem binomialCoefficient_base_cases
        {num : Type} {NUM : Number num} (n : Z) :
  (0 <= n ->
   binomialCoefficient n 0 = (of_int 1, [Call_binomialCoefficient n 0]) /\
   binomialCoefficient n n = (of_int 1, [Call_binomialCoefficient n n])) /\
  (forall k : Z, k < 0 \/ k > n -> value (binomialCoefficient n k) = of_int 0).
Proof.
  split.
  - intros H. split; apply binomialCoefficient_base; lia.
  - intros k H. rewrite binomialCoefficient_outside by lia. reflexivity.
Qed.

(** The base cases and two out-of-range calls for [n = 5]. *)
Lemma base_cases_of_5 :
  (binomialCoefficient (NUM := Reference.number) 5 0
     = (1%float, [Call_binomialCoefficient 5 0]) /\
   binomialCoefficient (NUM := Reference.number) 5 5
     = (1%float, [Call_binomialCoefficient 5 5])) /\
  value (binomialCoefficient (NUM := Reference.number) 5 (-1)) = 0%float /\
  value (binomialCoefficient (NUM := Reference.number) 5 6) = 0%float.
Proof.
  destruct (binomialCoefficient_base_cases (NUM := Reference.number) 5)
    as [Hbase Hout].
  split; [apply Hbase; lia | split; apply Hout; lia].
Defined.

(** ** C8: the distribution vector and its maximum *)

(** C8, at a failing input.  For [(N, 0, n)] with [0 < n < N] the
    distribution has the single entry [hypergeometric(N, 0, n, 0)]; when
    [Math.exp] overflows inside [binomialCoefficient(N, n)] that entry is
    NaN, no comparison [p > maxProb] succeeds, and the tracked maximum
    stays at its initial 0, which is not a value of the sequence. *)
Theorem renderChart_is_nan_when_binomial_overflows
        (log exp : float -> float) (N n : Z) :
  0 < n < N ->
  value (binomialCoefficient (NUM := Float64.number log exp) N n) = infinity ->
  value (renderChart (NUM := Float64.number log exp) N 0 n) = ([nan], 0%float) /\
  ~ In 0%float [nan].
Proof.
  intros H Hinf. split.
  - apply float_renderChart_overflow; [lia | exact Hinf].
  - intros [E|[]]. apply (f_equal is_nan) in E. vm_compute in E. discriminate E.
Qed.

(** The chart of a deck of 2000 without targets, on the reference platform. *)
Lemma renderChart_2000_0_1000_on_reference :
  (0 < 1000 < 2000 /\
   value (binomialCoefficient (NUM := Reference.number) 2000 1000) = infinity) /\
  (value (renderChart (NUM := Reference.number) 2000 0 1000) = ([nan], 0%float) /\
   ~ In 0%float [nan]).
Proof.
  split.
  - split; [lia | run_script].
  - apply (renderChart_is_nan_when_binomial_overflows
             Reference.log Reference.exp 2000 1000);
      [lia | run_script].
Defined.

(** ** C9: validation before computation *)

(** C9, refuted as stated.  [deckSize - turn*2] is a binary64 subtraction.
    For [deckSize = sampleSize = 18014398509481992 = 2^54 + 8], [turn = 1]
    and no target, [deckSize - 2 * turn] is 18014398509481990 and the
    sample exceeds it, but the difference rounds back to [deckSize]: the
    script's [N] is 18014398509481992, no test fails, and [hypergeometric]
    is called three times. *)
Lemma validation_beyond_the_safe_integers :
  18014398509481992 - 2 * 1 = 18014398509481990 /\
  validation_fails
    {| deckSize := 18014398509481992; turn := 1;
       sampleSize := 18014398509481992; targets := 0 |} /\
  Machine.effectiveDeck
    (inputs_as_Numbers
       {| deckSize := 18014398509481992; turn := 1;
          sampleSize := 18014398509481992; targets := 0 |}) =
  Float64.of_Z 18014398509481992 /\
  Machine.validate
    (inputs_as_Numbers
       {| deckSize := 18014398509481992; turn := 1;
          sampleSize := 18014398509481992; targets := 0 |}) = [] /\
  Machine.calculateAll Reference.log Reference.exp 2
    (inputs_as_Numbers
       {| deckSize := 18014398509481992; turn := 1;
          sampleSize := 18014398509481992; targets := 0 |}) =
  Some (Machine.Results (Float64.of_Z 18014398509481992)
          {| pWhiff := 1%float;
             pExactlyOne := 0%float;
             pAtLeastOne := 0%float;
             pTwoOrMore := 0%float;
             pWhiffTwice := 1%float |}
          ([1%float], 1%float),
        [Machine.Call_hypergeometric
           (Float64.of_Z 18014398509481992) (Float64.of_Z 0)
           (Float64.of_Z 18014398509481992) (Float64.of_Z 0);
         Machine.Call_binomialCoefficient (Float64.of_Z 0) (Float64.of_Z 0);
         Machine.Call_binomialCoefficient
           (Float64.of_Z 18014398509481992) (Float64.of_Z 18014398509481992);
         Machine.Call_binomialCoefficient
           (Float64.of_Z 18014398509481992) (Float64.of_Z 18014398509481992);
         Machine.Op_divide;
         Machine.Call_hypergeometric
           (Float64.of_Z 18014398509481992) (Float64.of_Z 0)
           (Float64.of_Z 18014398509481992) (Float64.of_Z 1);
         Machine.Call_hypergeometric
           (Float64.of_Z 18014398509481992) (Float64.of_Z 0)
           (Float64.of_Z 18014398509481992) (Float64.of_Z 0);
         Machine.Call_binomialCoefficient (Float64.of_Z 0) (Float64.of_Z 0);
         Machine.Call_binomialCoefficient
           (Float64.of_Z 18014398509481992) (Float64.of_Z 18014398509481992);
         Machine.Call_binomialCoefficient
           (Float64.of_Z 18014398509481992) (Float64.of_Z 18014398509481992);
         Machine.Op_divide]).
Proof.
  split; [reflexivity|].
  split; [right; right; left; reflexivity|].
  split; [run_script | split; run_script].
Qed.

(** C9, as amended.  For inputs whose four values, [turn*2] and
    [deckSize - turn*2] are safe integers, the effective population size
    is [deckSize - 2 * turn], and when any of the five validation tests
    fails [calculateAll] writes the errors and its trace is empty:
    [hypergeometric], [binomialCoefficient] and [logFactorial] were never
    called.  This holds for the script read with nothing but binary64
    Numbers, on every engine and with any fuel, and for the integer
    reading with every kind of Number. *)
Theorem calculateAll_refuses_invalid_input
        (log exp : float -> float) {num : Type} {NUM : Number num}
        (i : Inputs) :
  safe_inputs i ->
  Machine.effectiveDeck (inputs_as_Numbers i) =
    Float64.of_Z (deckSize i - 2 * turn i) /\
  effectiveDeck i = deckSize i - 2 * turn i /\
  ((deckSize i < 1 \/ effectiveDeck i < 1 \/ sampleSize i > effectiveDeck i \/
    targets i > deckSize i \/ targets i > effectiveDeck i) ->
   (forall fuel : nat,
      Machine.calculateAll log exp fuel (inputs_as_Numbers i) =
      Some (Machine.Errors (Float64.of_Z (effectiveDeck i)) (validate i), [])) /\
   trace (calculateAll i) = [] /\
   value (calculateAll i) = Errors (effectiveDeck i) (validate i) /\
   validate i <> []).
Proof.
  intros S.
  assert (EN : effectiveDeck i = deckSize i - 2 * turn i)
    by (unfold effectiveDeck; lia).
  split; [rewrite <- EN; apply machine_effectiveDeck, S|].
  split; [exact EN|].
  intros H.
  assert (V : validation_fails i) by (unfold validation_fails; lia).
  assert (NE : validate i <> []).
  { intros E. apply validate_nil in E. contradiction. }
  split; [|rewrite (calculateAll_rejected i V); repeat split; exact NE].
  intros fuel. unfold Machine.calculateAll. cbv zeta.
  rewrite machine_validate, machine_effectiveDeck by exact S.
  destruct (validate i); [contradiction | reflexivity].
Qed.

(** An empty deck on turn 3 fails all five tests and computes nothing. *)
Lemma calculateAll_refuses_an_empty_deck :
  safe_inputs {| deckSize := 0; turn := 3; sampleSize := 7; targets := 3 |} /\
  Machine.effectiveDeck
    (inputs_as_Numbers
       {| deckSize := 0; turn := 3; sampleSize := 7; targets := 3 |}) =
    Float64.of_Z (0 - 2 * 3) /\
  effectiveDeck {| deckSize := 0; turn := 3; sampleSize := 7; targets := 3 |}
    = 0 - 2 * 3 /\
  (forall fuel : nat,
     Machine.calculateAll Reference.log Reference.exp fuel
       (inputs_as_Numbers
          {| deckSize := 0; turn := 3; sampleSize := 7; targets := 3 |}) =
     Some (Machine.Errors (Float64.of_Z (-6))
             ["Deck size must be at least 1"%string;
              "Deck size minus turn must be at least 1"%string;
              "Sample size cannot exceed remaining deck"%string;
              "Targets cannot exceed deck size"%string;
              "Targets cannot exceed remaining deck"%string],
           [])) /\
  trace (calculateAll (NUM := Reference.number)
           {| deckSize := 0; turn := 3; sampleSize := 7; targets := 3 |}) = [] /\
  value (calculateAll (NUM := Reference.number)
           {| deckSize := 0; turn := 3; sampleSize := 7; targets := 3 |})
    = Errors (-6)
        ["Deck size must be at least 1"%string;
         "Deck size minus turn must be at least 1"%string;
         "Sample size cannot exceed remaining deck"%string;
         "Targets cannot exceed deck size"%string;
         "Targets cannot exceed remaining deck"%string].
Proof.
  assert (S : safe_inputs
                {| deckSize := 0; turn := 3; sampleSize := 7; targets := 3 |})
    by (repeat split; reflexivity).
  destruct (calculateAll_refuses_invalid_input Reference.log Reference.exp
              (NUM := Reference.number)
              {| deckSize := 0; turn := 3; sampleSize := 7; targets := 3 |} S)
    as (HM & HN & Hfail).
  split; [exact S | split; [exact HM | split; [exact HN|]]].
  destruct Hfail as (Hm & Ht & Hv & _); [left; reflexivity|].
  split; [exact Hm | split; [exact Ht | exact Hv]].
Defined.

(** ** Further properties of the script *)

Lemma length_Zrange (len : nat) : forall start : Z, List.length (Zrange start len) = len.
Proof.
  induction len as [|len IH]; intros start; simpl; [|rewrite IH]; reflexivity.
Qed.

Lemma nth_error_Zrange (len : nat) :
  forall (start : Z) (j : nat),
    (j < len)%nat -> nth_error (Zrange start len) j = Some (start + Z.of_nat j).
Proof.
  induction len as [|len IH]; intros start j Hj; [lia|].
  destruct j as [|j]; cbn [Zrange nth_error].
  - f_equal. lia.
  - rewrite IH by lia. f_equal. lia.
Qed.


(** X2.  In exact arithmetic the tracked maximum is the largest value of the
    distribution vector, and 0 when the vector is empty. *)
Theorem exact_renderChart_maximum (N K n : Z) :
  (fst (value (renderChart (NUM := Exact.number) N K n)) = [] ->
   snd (value (renderChart (NUM := Exact.number) N K n)) = 0%R) /\
  (fst (value (renderChart (NUM := Exact.number) N K n)) <> [] ->
   In (snd (value (renderChart (NUM := Exact.number) N K n)))
      (fst (value (renderChart (NUM := Exact.number) N K n)))) /\
  Forall (fun p => (p <= snd (value (renderChart (NUM := Exact.number) N K n)))%R)
         (fst (value (renderChart (NUM := Exact.number) N K n))).
Proof.
  rewrite renderChart_value. cbn [fst snd].
  set (l := map (fun k => value (hypergeometric (NUM := Exact.number) N K n k))
                (support_indices K n)).
  destruct (exact_track_max_fold l (of_int (Number := Exact.number) 0))
    as (Ha & Hall & Hin).
  repeat split.
  - intros E. rewrite E. reflexivity.
  - intros Hne. destruct Hin as [E|I]; [|exact I].
    destruct l as [|p l'] eqn:El; [contradiction|].
    assert (Hp : (0 <= p)%R).
    { assert (I : In p l) by (rewrite El; now left).
      unfold l in I. apply in_map_iff in I. destruct I as (k & <- & _).
      apply exact_hypergeometric_unit_interval. }
    inversion Hall as [|? ? Hle _]; subst.
    rewrite E in Hle |- *. change (of_int (Number := Exact.number) 0) with 0%R in *.
    left. lra.
  - exact Hall.
Qed.

(** X3.  In exact arithmetic [binomialCoefficient(n, k)] is the binomial
    coefficient C(n, k), for all integers [n] and [k]. *)
Theorem exact_binomialCoefficient_is_binomial (n k : Z) :
  value (binomialCoefficient (NUM := Exact.number) n k) = IZR (binomial n k) /\
  (0 <= k <= n ->
   binomial n k * (Zfact (Z.to_nat k) * Zfact (Z.to_nat (n - k)))
   = Zfact (Z.to_nat n)).
Proof.
  split; [apply exact_binomialCoefficient|].
  intros H. rewrite binomial_inside by exact H.
  replace (Z.to_nat (n - k)) with (Z.to_nat n - Z.to_nat k)%nat by lia.
  apply choose_fact. lia.
Qed.

(** X4.  In exact arithmetic the values of [hypergeometric] over
    [k = 0 .. min(K, n)] are C(K,k) C(N-K,n-k) / C(N,n), each lies in
    [[0, 1]], and for [0 <= K <= N], [0 <= n <= N] they add up to exactly
    one. *)
Theorem exact_distribution_adds_up_to_one (N K n : Z) :
  (forall k : Z, 0 <= k <= Z.min K n ->
     value (hypergeometric (NUM := Exact.number) N K n k) =
     (IZR (binomial K k * binomial (N - K) (n - k)) / IZR (binomial N n))%R) /\
  (forall k : Z,
     (0 <= value (hypergeometric (NUM := Exact.number) N K n k) <= 1)%R) /\
  (0 <= K <= N -> 0 <= n <= N ->
   total (NUM := Exact.number)
     (map (fun k => value (hypergeometric (NUM := Exact.number) N K n k))
          (support_indices K n)) = 1%R).
Proof.
  split; [|split].
  - intros k Hk. apply exact_hypergeometric_on_indices. exact Hk.
  - intros k. apply exact_hypergeometric_unit_interval.
  - apply exact_pmf_total.
Qed.



(** X6.  In exact arithmetic the five statistics of every input that passes
    validation lie in [[0, 1]] and [pAtLeastOne + pWhiff] is exactly 1. *)
Theorem exact_summary_statistics_are_probabilities (i : Inputs) :
  (1 <= deckSize i /\ 1 <= effectiveDeck i /\ sampleSize i <= effectiveDeck i /\
   targets i <= deckSize i /\ targets i <= effectiveDeck i) ->
  exists s : Summary R,
    statistics (value (calculateAll (NUM := Exact.number) i)) = Some s /\
    (0 <= pWhiff s <= 1)%R /\ (0 <= pExactlyOne s <= 1)%R /\
    (0 <= pAtLeastOne s <= 1)%R /\ (0 <= pTwoOrMore s <= 1)%R /\
    (0 <= pWhiffTwice s <= 1)%R /\
    (pAtLeastOne s + pWhiff s = 1)%R.
Proof.
  intros H.
  assert (V : ~ validation_fails i) by (unfold validation_fails; lia).
  rewrite (calculateAll_accepted (NUM := Exact.number) i V). cbv zeta.
  eexists. split; [reflexivity|].
  cbn [pWhiff pExactlyOne pAtLeastOne pTwoOrMore pWhiffTwice
       sub mul of_int Exact.number].
  assert (U0 := exact_hypergeometric_unit_interval
                  (effectiveDeck i) (targets i) (sampleSize i) 0).
  assert (U1 := exact_hypergeometric_unit_interval
                  (effectiveDeck i) (targets i) (sampleSize i) 1).
  assert (S := exact_whiff_plus_exactlyOne
                 (effectiveDeck i) (targets i) (sampleSize i)).
  repeat split; try lra; try nra.
Qed.

(** The same deck of 48, in exact arithmetic. *)
Lemma exact_summary_of_a_deck_of_48 :
  (1 <= 48 /\ 1 <= 48 - 0 * 2 /\ 7 <= 48 - 0 * 2 /\ 3 <= 48 /\ 3 <= 48 - 0 * 2) /\
  exists s : Summary R,
    statistics
      (value (calculateAll (NUM := Exact.number)
                {| deckSize := 48; turn := 0; sampleSize := 7; targets := 3 |}))
      = Some s /\
    (0 <= pWhiff s <= 1)%R /\ (0 <= pExactlyOne s <= 1)%R /\
    (0 <= pAtLeastOne s <= 1)%R /\ (0 <= pTwoOrMore s <= 1)%R /\
    (0 <= pWhiffTwice s <= 1)%R /\
    (pAtLeastOne s + pWhiff s = 1)%R.
Proof.
  split.
  - lia.
  - apply (exact_summary_statistics_are_probabilities
             {| deckSize := 48; turn := 0; sampleSize := 7; targets := 3 |}).
    unfold effectiveDeck. simpl. lia.
Defined.

(** ** The loop of [logFactorial] *)

Section LogFactorial.

Context {num : Type} {NUM : Number num}.



End LogFactorial.


(** ** More on the distribution in exact arithmetic *)

(** The guard of [hypergeometric] does not tell the number of targets from
    the number of draws. *)
Lemma out_of_support_swap (N K n k : Z) :
  out_of_support N K n k = out_of_support N n K k.
Proof.
  destruct (out_of_support N n K k) eqn:E.
  - apply out_of_support_true. apply out_of_support_true in E. lia.
  - apply out_of_support_false. apply out_of_support_false in E. lia.
Qed.

(** [C(K,k) C(N-K,n-k) C(N,K) = C(n,k) C(N-n,K-k) C(N,n)]: both sides are
    [N! / (k! (K-k)! (n-k)! (N-K-n+k)!)]. *)
Lemma binomial_products_swap (N K n k : Z) :
  0 <= k -> k <= K -> k <= n -> n - k <= N - K ->
  binomial K k * binomial (N - K) (n - k) * binomial N K =
  binomial n k * binomial (N - n) (K - k) * binomial N n.
Proof.
  intros H0 HK Hn HN.
  rewrite !binomial_inside by lia.
  assert (F1 := choose_fact (Z.to_nat K) (Z.to_nat k) ltac:(lia)).
  assert (F2 := choose_fact (Z.to_nat (N - K)) (Z.to_nat (n - k)) ltac:(lia)).
  assert (F3 := choose_fact (Z.to_nat N) (Z.to_nat K) ltac:(lia)).
  assert (G1 := choose_fact (Z.to_nat n) (Z.to_nat k) ltac:(lia)).
  assert (G2 := choose_fact (Z.to_nat (N - n)) (Z.to_nat (K - k)) ltac:(lia)).
  assert (G3 := choose_fact (Z.to_nat N) (Z.to_nat n) ltac:(lia)).
  replace (Z.to_nat K - Z.to_nat k)%nat with (Z.to_nat (K - k)) in F1 by lia.
  replace (Z.to_nat (N - K) - Z.to_nat (n - k))%nat
    with (Z.to_nat (N - K - n + k)) in F2 by lia.
  replace (Z.to_nat N - Z.to_nat K)%nat with (Z.to_nat (N - K)) in F3 by lia.
  replace (Z.to_nat n - Z.to_nat k)%nat with (Z.to_nat (n - k)) in G1 by lia.
  replace (Z.to_nat (N - n) - Z.to_nat (K - k))%nat
    with (Z.to_nat (N - K - n + k)) in G2 by lia.
  replace (Z.to_nat N - Z.to_nat n)%nat with (Z.to_nat (N - n)) in G3 by lia.
  assert (Pk := Zfact_pos (Z.to_nat k)).
  assert (PKk := Zfact_pos (Z.to_nat (K - k))).
  assert (Pnk := Zfact_pos (Z.to_nat (n - k))).
  assert (Pr := Zfact_pos (Z.to_nat (N - K - n + k))).
  assert (PK := Zfact_pos (Z.to_nat K)).
  assert (PNK := Zfact_pos (Z.to_nat (N - K))).
  assert (Pn := Zfact_pos (Z.to_nat n)).
  assert (PNn := Zfact_pos (Z.to_nat (N - n))).
  set (a := choose (Z.to_nat K) (Z.to_nat k)) in *.
  set (b := choose (Z.to_nat (N - K)) (Z.to_nat (n - k))) in *.
  set (c := choose (Z.to_nat N) (Z.to_nat K)) in *.
  set (a' := choose (Z.to_nat n) (Z.to_nat k)) in *.
  set (b' := choose (Z.to_nat (N - n)) (Z.to_nat (K - k))) in *.
  set (c' := choose (Z.to_nat N) (Z.to_nat n)) in *.
  set (fk := Zfact (Z.to_nat k)) in *.
  set (fKk := Zfact (Z.to_nat (K - k))) in *.
  set (fnk := Zfact (Z.to_nat (n - k))) in *.
  set (fr := Zfact (Z.to_nat (N - K - n + k))) in *.
  set (fK := Zfact (Z.to_nat K)) in *.
  set (fNK := Zfact (Z.to_nat (N - K))) in *.
  set (fn := Zfact (Z.to_nat n)) in *.
  set (fNn := Zfact (Z.to_nat (N - n))) in *.
  set (fN := Zfact (Z.to_nat N)) in *.
  set (Q := fk * fKk * fnk * fr).
  assert (PQ : 0 < Q) by (unfold Q; repeat apply Z.mul_pos_pos; assumption).
  assert (L : a * b * c * Q = fN).
  { apply Z.mul_reg_r with (p := fK * fNK);
      [apply Z.neq_sym, Z.lt_neq, Z.mul_pos_pos; assumption|].
    transitivity ((a * (fk * fKk)) * (b * (fnk * fr)) * (c * (fK * fNK)));
      [unfold Q; ring|].
    rewrite F1, F2, F3. ring. }
  assert (R : a' * b' * c' * Q = fN).
  { apply Z.mul_reg_r with (p := fn * fNn);
      [apply Z.neq_sym, Z.lt_neq, Z.mul_pos_pos; assumption|].
    transitivity ((a' * (fk * fnk)) * (b' * (fKk * fr)) * (c' * (fn * fNn)));
      [unfold Q; ring|].
    rewrite G1, G2, G3. ring. }
  apply Z.mul_reg_r with (p := Q); [lia|]. congruence.
Qed.

(** X8.  In exact arithmetic the number of targets and the number of cards
    drawn can be exchanged: [hypergeometric(N, K, n, k)] and
    [hypergeometric(N, n, K, k)] are the same probability, for all
    integers. *)
Theorem exact_hypergeometric_swaps_targets_and_draws (N K n k : Z) :
  value (hypergeometric (NUM := Exact.number) N K n k) =
  value (hypergeometric (NUM := Exact.number) N n K k).
Proof.
  destruct (out_of_support N K n k) eqn:S.
  - rewrite (exact_hypergeometric_outside N K n k S).
    rewrite out_of_support_swap in S.
    rewrite (exact_hypergeometric_outside N n K k S). reflexivity.
  - rewrite (exact_hypergeometric N K n k S).
    rewrite out_of_support_swap in S.
    rewrite (exact_hypergeometric N n K k S).
    apply out_of_support_false in S.
    assert (E := binomial_products_swap N K n k
                   ltac:(lia) ltac:(lia) ltac:(lia) ltac:(lia)).
    assert (P1 : (0 < IZR (binomial N n))%R)
      by (apply IZR_lt, binomial_pos; lia).
    assert (P2 : (0 < IZR (binomial N K))%R)
      by (apply IZR_lt, binomial_pos; lia).
    apply (f_equal IZR) in E. rewrite !mult_IZR in E. rewrite !mult_IZR.
    apply Rmult_eq_reg_r with (r := (IZR (binomial N n) * IZR (binomial N K))%R);
      [|apply Rgt_not_eq, Rmult_lt_0_compat; assumption].
    field_simplify; [|lra|lra]. lra.
Qed.

(** Adding up a list of reals from [a] is [a] plus adding it up from 0. *)
Lemma exact_total_from (l : list R) :
  forall a : R,
    fold_left Rplus l a = (a + total (NUM := Exact.number) l)%R.
Proof.
  unfold total. cbn [add of_int Exact.number].
  induction l as [|x l IH]; intros a; cbn [fold_left].
  - lra.
  - rewrite (IH (a + x)%R), (IH (0 + x)%R). lra.
Qed.

(** X9.  In exact arithmetic, for an input that passes validation with a
    non-negative sample size and a non-negative number of targets, the two
    derived statistics are the tails of the distribution shown in the
    chart: [pAtLeastOne] is the sum of the bars from [k = 1] on and
    [pTwoOrMore] the sum of the bars from [k = 2] on. *)
Theorem exact_statistics_are_tails_of_the_chart (i : Inputs) :
  1 <= deckSize i /\ 1 <= effectiveDeck i /\ sampleSize i <= effectiveDeck i /\
  targets i <= deckSize i /\ targets i <= effectiveDeck i ->
  0 <= sampleSize i -> 0 <= targets i ->
  exists (s : Summary R) (probabilities : list R) (maxProb : R),
    value (calculateAll (NUM := Exact.number) i) =
      Results (effectiveDeck i) s (probabilities, maxProb) /\
    pAtLeastOne s = total (NUM := Exact.number) (skipn 1 probabilities) /\
    pTwoOrMore s = total (NUM := Exact.number) (skipn 2 probabilities).
Proof.
  intros H Hn HK.
  assert (V : ~ validation_fails i) by (unfold validation_fails; lia).
  rewrite (calculateAll_accepted (NUM := Exact.number) i V). cbv zeta.
  rewrite renderChart_value.
  do 3 eexists. split; [reflexivity|].
  cbn [pAtLeastOne pTwoOrMore sub of_int Exact.number].
  set (N := effectiveDeck i) in *. set (K := targets i) in *.
  set (n := sampleSize i) in *.
  assert (T := exact_pmf_total N K n ltac:(lia) ltac:(lia)).
  set (h := fun k => value (hypergeometric (NUM := Exact.number) N K n k)) in *.
  change (value (hypergeometric N K n 0)) with (h 0).
  change (value (hypergeometric N K n 1)) with (h 1).
  unfold support_indices in *.
  destruct (Z.eq_dec (Z.min K n) 0) as [E|E].
  - replace (Z.to_nat (Z.min K n + 1)) with 1%nat in * by lia.
    cbn [Zrange map skipn] in *.
    assert (O1 : h 1 = 0%R).
    { unfold h. apply exact_hypergeometric_outside, out_of_support_true. lia. }
    unfold total in T |- *. cbn [fold_left add of_int Exact.number] in T |- *.
    split; lra.
  - replace (Z.to_nat (Z.min K n + 1))
      with (S (S (Z.to_nat (Z.min K n - 1)))) in * by lia.
    cbn [Zrange map skipn] in *. change (0 + 1) with 1 in *.
    unfold total in T. cbn [fold_left add of_int Exact.number] in T.
    rewrite exact_total_from in T.
    split.
    + unfold total at 1. cbn [fold_left add of_int Exact.number].
      rewrite exact_total_from. lra.
    + lra.
Qed.

(** A deck of 48 with 3 targets and a hand of 7. *)
Lemma exact_tails_of_a_deck_of_48 :
  (1 <= 48 /\ 1 <= 48 - 0 * 2 /\ 7 <= 48 - 0 * 2 /\ 3 <= 48 /\ 3 <= 48 - 0 * 2) /\
  0 <= 7 /\ 0 <= 3 /\
  exists (s : Summary R) (probabilities : list R) (maxProb : R),
    value (calculateAll (NUM := Exact.number)
             {| deckSize := 48; turn := 0; sampleSize := 7; targets := 3 |}) =
      Results 48 s (probabilities, maxProb) /\
    pAtLeastOne s = total (NUM := Exact.number) (skipn 1 probabilities) /\
    pTwoOrMore s = total (NUM := Exact.number) (skipn 2 probabilities).
Proof.
  split; [lia | split; [lia | split; [lia|]]].
  apply (exact_statistics_are_tails_of_the_chart
           {| deckSize := 48; turn := 0; sampleSize := 7; targets := 3 |});
    unfold effectiveDeck; simpl; lia.
Defined.

(** ** Monotonicity of the chance of no hit *)

Lemma choose_succ_le (a j : nat) : choose a j <= choose (S a) j.
Proof.
  rewrite choose_succ. destruct j as [|j]; [lia|].
  assert (H := choose_nonneg a j). lia.
Qed.

(** [(j + 1) C(a, j + 1) = (a - j) C(a, j)]. *)
Lemma choose_absorb (a j : nat) :
  (j < a)%nat ->
  Z.of_nat (S j) * choose a (S j) = Z.of_nat (a - j) * choose a j.
Proof.
  intros H.
  assert (F1 := choose_fact a (S j) ltac:(lia)).
  assert (F2 := choose_fact a j ltac:(lia)).
  replace (a - j)%nat with (S (a - S j)) in * by lia.
  rewrite Zfact_succ in F1. rewrite (Zfact_succ (a - S j)) in F2.
  assert (Pj := Zfact_pos j). assert (Pr := Zfact_pos (a - S j)).
  apply Z.mul_reg_r with (p := Zfact j * Zfact (a - S j));
    [apply Z.neq_sym, Z.lt_neq, Z.mul_pos_pos; assumption|].
  transitivity (Zfact a); [rewrite <- F1 | rewrite <- F2]; ring.
Qed.

Lemma binomial_top_succ_le (a j : Z) : binomial a j <= binomial (a + 1) j.
Proof.
  destruct (Z.lt_ge_cases j 0) as [H|H];
    [rewrite !binomial_outside by lia; lia|].
  destruct (Z.lt_ge_cases a j) as [H'|H'].
  - rewrite (binomial_outside a j) by lia. apply binomial_nonneg.
  - rewrite !binomial_inside by lia.
    replace (Z.to_nat (a + 1)) with (S (Z.to_nat a)) by lia.
    apply choose_succ_le.
Qed.

Lemma binomial_absorb (a j : Z) :
  0 <= j -> j < a ->
  (j + 1) * binomial a (j + 1) = (a - j) * binomial a j.
Proof.
  intros H0 H1. rewrite !binomial_inside by lia.
  replace (Z.to_nat (j + 1)) with (S (Z.to_nat j)) by lia.
  assert (E := choose_absorb (Z.to_nat a) (Z.to_nat j) ltac:(lia)).
  replace (Z.of_nat (S (Z.to_nat j))) with (j + 1) in E by lia.
  replace (Z.of_nat (Z.to_nat a - Z.to_nat j)) with (a - j) in E by lia.
  exact E.
Qed.

(** The chance of no hit, in exact arithmetic. *)
Lemma exact_whiff (N K n : Z) :
  0 <= K -> 0 <= n ->
  value (hypergeometric (NUM := Exact.number) N K n 0) =
  (IZR (binomial (N - K) n) / IZR (binomial N n))%R.
Proof.
  intros HK Hn. rewrite exact_hypergeometric_on_indices by lia.
  rewrite (binomial_inside K 0) by lia. cbn [Z.to_nat]. rewrite choose_0_r.
  rewrite Z.mul_1_l, Z.sub_0_r. reflexivity.
Qed.

(** X10.  In exact arithmetic the chance of no hit never grows when a
    target is added to the deck or when one more card is drawn. *)
Theorem exact_whiff_is_monotone (N K n : Z) :
  0 <= K -> 0 <= n -> n + 1 <= N ->
  (value (hypergeometric (NUM := Exact.number) N (K + 1) n 0) <=
   value (hypergeometric (NUM := Exact.number) N K n 0))%R /\
  (value (hypergeometric (NUM := Exact.number) N K (n + 1) 0) <=
   value (hypergeometric (NUM := Exact.number) N K n 0))%R.
Proof.
  intros HK Hn HN.
  rewrite !exact_whiff by lia.
  assert (P0 : 0 < binomial N n) by (apply binomial_pos; lia).
  assert (P1 : 0 < binomial N (n + 1)) by (apply binomial_pos; lia).
  assert (R0 := IZR_lt _ _ P0). assert (R1 := IZR_lt _ _ P1).
  split.
  - assert (L := binomial_top_succ_le (N - (K + 1)) n).
    replace (N - (K + 1) + 1) with (N - K) in L by lia.
    apply IZR_le in L.
    unfold Rdiv. apply Rmult_le_compat_r; [|exact L].
    apply Rlt_le, Rinv_0_lt_compat, R0.
  - assert (A := binomial_absorb N n ltac:(lia) ltac:(lia)).
    assert (G0 := binomial_nonneg (N - K) n).
    assert (Z : binomial (N - K) (n + 1) * binomial N n <=
                binomial (N - K) n * binomial N (n + 1)).
    { destruct (Z.lt_ge_cases n (N - K)) as [I|I].
      - assert (B := binomial_absorb (N - K) n ltac:(lia) ltac:(lia)).
        apply Z.mul_le_mono_pos_l with (p := n + 1); [lia|].
        replace ((n + 1) * (binomial (N - K) (n + 1) * binomial N n))
          with ((n + 1) * binomial (N - K) (n + 1) * binomial N n) by ring.
        replace ((n + 1) * (binomial (N - K) n * binomial N (n + 1)))
          with (binomial (N - K) n * ((n + 1) * binomial N (n + 1))) by ring.
        rewrite A, B.
        replace (binomial (N - K) n * ((N - n) * binomial N n))
          with ((N - n) * binomial (N - K) n * binomial N n) by ring.
        apply Z.mul_le_mono_nonneg_r; [lia|].
        apply Z.mul_le_mono_nonneg_r; [exact G0 | lia].
      - rewrite (binomial_outside (N - K) (n + 1)) by lia.
        rewrite Z.mul_0_l. apply Z.mul_nonneg_nonneg; lia. }
    apply IZR_le in Z. rewrite !mult_IZR in Z.
    apply Rmult_le_reg_r with (r := (IZR (binomial N n) * IZR (binomial N (n + 1)))%R);
      [apply Rmult_lt_0_compat; assumption|].
    unfold Rdiv.
    replace (IZR (binomial (N - K) (n + 1)) * / IZR (binomial N (n + 1)) *
             (IZR (binomial N n) * IZR (binomial N (n + 1))))%R
      with (IZR (binomial (N - K) (n + 1)) * IZR (binomial N n))%R
      by (field; lra).
    replace (IZR (binomial (N - K) n) * / IZR (binomial N n) *
             (IZR (binomial N n) * IZR (binomial N (n + 1))))%R
      with (IZR (binomial (N - K) n) * IZR (binomial N (n + 1)))%R
      by (field; lra).
    exact Z.
Qed.

(** Three or four targets in a deck of 48, a hand of seven or eight. *)
Lemma exact_whiff_of_a_deck_of_48 :
  0 <= 3 /\ 0 <= 7 /\ 7 + 1 <= 48 /\
  (value (hypergeometric (NUM := Exact.number) 48 (3 + 1) 7 0) <=
   value (hypergeometric (NUM := Exact.number) 48 3 7 0))%R /\
  (value (hypergeometric (NUM := Exact.number) 48 3 (7 + 1) 0) <=
   value (hypergeometric (NUM := Exact.number) 48 3 7 0))%R.
Proof.
  split; [lia | split; [lia | split; [lia|]]].
  apply (exact_whiff_is_monotone 48 3 7); lia.
Defined.

(** ** Which calls a computation makes *)

Section Calls.

Context {num : Type} {NUM : Number num}.

(** The calls of [hypergeometric] among the recorded events. *)
Local Abbreviation hypergeometric_calls t :=
  (filter (fun e => negb (is_binomial_or_division e)) t).







Lemma calculateAll_trace_accepted (i : Inputs) :
  ~ validation_fails i ->
  trace (calculateAll i) =
  trace (hypergeometric (effectiveDeck i) (targets i) (sampleSize i) 0) ++
  trace (hypergeometric (effectiveDeck i) (targets i) (sampleSize i) 1) ++
  trace (renderChart (effectiveDeck i) (targets i) (sampleSize i)).
Proof.
  intros H. apply validate_nil in H.
  unfold calculateAll. cbv zeta. rewrite H. cbn [List.length Nat.ltb Nat.leb].
  rewrite !trace_bind. cbn [trace ret snd]. rewrite app_nil_r. reflexivity.
Qed.

End Calls.



(** ** The validation tests *)



(** ** Hands that need no logarithm, in binary64 *)

Section Binary64Page.

Variables log exp : float -> float.

Local Abbreviation engine := (Float64.number log exp).

(** Drawing nothing: the only possible count is [k = 0]. *)
Lemma float_hypergeometric_empty_hand (N K : Z) :
  0 <= K <= N ->
  hypergeometric (NUM := engine) N K 0 0 =
  (1%float,
   [Call_hypergeometric N K 0 0; Call_binomialCoefficient K 0;
    Call_binomialCoefficient (N - K) 0; Call_binomialCoefficient N 0;
    Op_divide]).
Proof.
  intros H. rewrite hypergeometric_unfold.
  replace (out_of_support N K 0 0) with false
    by (symmetry; apply out_of_support_false; lia).
  change (0 - 0) with 0.
  rewrite (binomialCoefficient_base K 0), (binomialCoefficient_base (N - K) 0),
          (binomialCoefficient_base N 0) by lia.
  reflexivity.
Qed.

(** Drawing the whole deck: the only possible count is [k = K]. *)
Lemma float_hypergeometric_whole_deck (N K : Z) :
  0 <= K <= N ->
  hypergeometric (NUM := engine) N K N K =
  (1%float,
   [Call_hypergeometric N K N K; Call_binomialCoefficient K K;
    Call_binomialCoefficient (N - K) (N - K); Call_binomialCoefficient N N;
    Op_divide]).
Proof.
  intros H. rewrite hypergeometric_unfold.
  replace (out_of_support N K N K) with false
    by (symmetry; apply out_of_support_false; lia).
  rewrite (binomialCoefficient_base K K), (binomialCoefficient_base (N - K) (N - K)),
          (binomialCoefficient_base N N) by lia.
  reflexivity.
Qed.

Lemma float_hypergeometric_outside (N K n k : Z) :
  out_of_support N K n k = true ->
  hypergeometric (NUM := engine) N K n k =
  (0%float, [Call_hypergeometric N K n k]).
Proof. intros H. rewrite hypergeometric_short_circuit by exact H. reflexivity. Qed.

End Binary64Page.

(** X13.  In binary64, on every engine (whatever its [Math.log] and
    [Math.exp]): for safe integers [0 <= K <= N], drawing no card gives
    [k = 0] with probability exactly 1 and drawing the whole deck gives
    [k = K] with probability exactly 1, every other safe integer [k]
    having probability 0.  Only base cases of [binomialCoefficient] are
    used, so [logFactorial] is never called and nothing is rounded.  The
    script read with nothing but Numbers returns the same values, with any
    fuel. *)
Theorem float_degenerate_hands_are_exact
        (log exp : float -> float) (N K : Z) :
  0 <= K <= N -> safe_integer N ->
  (forall k : Z,
     safe_integer k ->
     value (hypergeometric (NUM := Float64.number log exp) N K 0 k) =
       (if k =? 0 then 1%float else 0%float) /\
     forall fuel : nat,
       option_map fst
         (Machine.hypergeometric log exp fuel (Float64.of_Z N) (Float64.of_Z K)
            (Float64.of_Z 0) (Float64.of_Z k)) =
       Some (if k =? 0 then 1%float else 0%float)) /\
  (forall k : Z,
     safe_integer k ->
     value (hypergeometric (NUM := Float64.number log exp) N K N k) =
       (if k =? K then 1%float else 0%float) /\
     forall fuel : nat,
       option_map fst
         (Machine.hypergeometric log exp fuel (Float64.of_Z N) (Float64.of_Z K)
            (Float64.of_Z N) (Float64.of_Z k)) =
       Some (if k =? K then 1%float else 0%float)) /\
  (forall k m : Z,
     safe_integer k ->
     ~ In (Call_logFactorial m)
          (trace (hypergeometric (NUM := Float64.number log exp) N K 0 k)) /\
     ~ In (Call_logFactorial m)
          (trace (hypergeometric (NUM := Float64.number log exp) N K N k))).
Proof.
  intros H SN.
  split; [|split].
  - intros k Sk. split.
    + destruct (Z.eqb_spec k 0) as [->|Hk].
      * rewrite float_hypergeometric_empty_hand by exact H. reflexivity.
      * rewrite float_hypergeometric_outside; [reflexivity|].
        apply out_of_support_true. lia.
    + intros fuel.
      rewrite (machine_degenerate_hand log exp fuel N K 0 k H SN Sk)
        by (left; reflexivity).
      replace (Z.max 0 (0 - (N - K))) with 0 by lia. reflexivity.
  - intros k Sk. split.
    + destruct (Z.eqb_spec k K) as [->|Hk].
      * rewrite float_hypergeometric_whole_deck by exact H. reflexivity.
      * rewrite float_hypergeometric_outside; [reflexivity|].
        apply out_of_support_true. lia.
    + intros fuel.
      rewrite (machine_degenerate_hand log exp fuel N K N k H SN Sk)
        by (right; reflexivity).
      replace (Z.max 0 (N - (N - K))) with K by lia. reflexivity.
  - intros k m _. split.
    + destruct (Z.eq_dec k 0) as [->|Hk].
      * rewrite float_hypergeometric_empty_hand by exact H.
        cbn [trace snd In]. intuition discriminate.
      * rewrite float_hypergeometric_outside
          by (apply out_of_support_true; lia).
        cbn [trace snd In]. intuition discriminate.
    + destruct (Z.eq_dec k K) as [->|Hk].
      * rewrite float_hypergeometric_whole_deck by exact H.
        cbn [trace snd In]. intuition discriminate.
      * rewrite float_hypergeometric_outside
          by (apply out_of_support_true; lia).
        cbn [trace snd In]. intuition discriminate.
Qed.

(** Three targets in a deck of 48, on the reference platform. *)
Lemma degenerate_hands_of_a_deck_of_48 :
  0 <= 3 <= 48 /\ safe_integer 48 /\
  (forall k : Z,
     safe_integer k ->
     value (hypergeometric (NUM := Reference.number) 48 3 0 k) =
       (if k =? 0 then 1%float else 0%float) /\
     forall fuel : nat,
       option_map fst
         (Machine.hypergeometric Reference.log Reference.exp fuel
            (Float64.of_Z 48) (Float64.of_Z 3) (Float64.of_Z 0)
            (Float64.of_Z k)) =
       Some (if k =? 0 then 1%float else 0%float)) /\
  (forall k : Z,
     safe_integer k ->
     value (hypergeometric (NUM := Reference.number) 48 3 48 k) =
       (if k =? 3 then 1%float else 0%float) /\
     forall fuel : nat,
       option_map fst
         (Machine.hypergeometric Reference.log Reference.exp fuel
            (Float64.of_Z 48) (Float64.of_Z 3) (Float64.of_Z 48)
            (Float64.of_Z k)) =
       Some (if k =? 3 then 1%float else 0%float)) /\
  (forall k m : Z,
     safe_integer k ->
     ~ In (Call_logFactorial m)
          (trace (hypergeometric (NUM := Reference.number) 48 3 0 k)) /\
     ~ In (Call_logFactorial m)
          (trace (hypergeometric (NUM := Reference.number) 48 3 48 k))).
Proof.
  split; [lia | split; [reflexivity|]].
  apply (float_degenerate_hands_are_exact Reference.log Reference.exp 48 3);
    [lia | reflexivity].
Defined.

(** ** What the script writes to the page, in binary64 *)

(** X14.  In binary64, on every engine: for safe inputs that pass
    validation with [sampleSize = 0] and [targets >= 0] the script writes
    [100.00%] for the chance of no hit and of two misses in a row,
    [0.00%] for the other three statistics, the remaining deck and the
    turn digit by digit, and a chart of one bar for [k = 0], labelled
    [100.0%], to which it assigns the height [100%] and the colour of
    probability 1. *)
Theorem screen_of_an_empty_hand
        (log exp : float -> float) (shortest : float -> string) (i : Inputs) :
  safe_inputs i ->
  1 <= deckSize i /\ 1 <= effectiveDeck i /\ sampleSize i <= effectiveDeck i /\
  targets i <= deckSize i /\ targets i <= effectiveDeck i ->
  sampleSize i = 0 -> 0 <= targets i ->
  screen (NUM := Float64.number log exp) (PRES := Float64Text.presentation)
         (TXT := Float64Text.text shortest) i =
  {| Screen.remainingDeck := integer_text (effectiveDeck i);
     Screen.turnDisplay := integer_text (turn i);
     Screen.error := "";
     Screen.error_visible := false;
     Screen.pWhiff := "100.00%";
     Screen.pExactlyOne := "0.00%";
     Screen.pAtLeastOne := "0.00%";
     Screen.pTwoOrMore := "0.00%";
     Screen.pWhiffTwice := "100.00%";
     Screen.chart :=
       [{| valueLabel := "100.0%";
           barFill_height := "100%";
           barFill_backgroundColor := "rgb(0, 255, 100)";
           label := "0" |}] |}.
Proof.
  intros _ H Hn HK.
  assert (V : ~ validation_fails i) by (unfold validation_fails; lia).
  unfold screen.
  rewrite (calculateAll_accepted (NUM := Float64.number log exp) i V).
  cbv zeta. rewrite renderChart_value, Hn.
  assert (S : support_indices (targets i) 0 = [0]).
  { unfold support_indices. replace (Z.min (targets i) 0) with 0 by lia.
    reflexivity. }
  rewrite S. cbn [map fold_left].
  rewrite float_hypergeometric_empty_hand by lia.
  rewrite float_hypergeometric_outside by (apply out_of_support_true; lia).
  reflexivity.
Qed.

(** A deck of 48 with 3 targets, no card drawn, on the reference platform. *)
Lemma screen_of_no_card_from_48 :
  safe_inputs {| deckSize := 48; turn := 0; sampleSize := 0; targets := 3 |} /\
  (1 <= 48 /\ 1 <= 48 - 0 * 2 /\ 0 <= 48 - 0 * 2 /\ 3 <= 48 /\ 3 <= 48 - 0 * 2) /\
  0 = 0 /\ 0 <= 3 /\
  screen (NUM := Reference.number) (PRES := Float64Text.presentation)
         (TXT := Float64Text.text (fun _ => EmptyString))
         {| deckSize := 48; turn := 0; sampleSize := 0; targets := 3 |} =
  {| Screen.remainingDeck := "48";
     Screen.turnDisplay := "0";
     Screen.error := "";
     Screen.error_visible := false;
     Screen.pWhiff := "100.00%";
     Screen.pExactlyOne := "0.00%";
     Screen.pAtLeastOne := "0.00%";
     Screen.pTwoOrMore := "0.00%";
     Screen.pWhiffTwice := "100.00%";
     Screen.chart :=
       [{| valueLabel := "100.0%";
           barFill_height := "100%";
           barFill_backgroundColor := "rgb(0, 255, 100)";
           label := "0" |}] |}.
Proof.
  assert (S : safe_inputs
                {| deckSize := 48; turn := 0; sampleSize := 0; targets := 3 |})
    by (repeat split; reflexivity).
  split; [exact S | split; [lia | split; [reflexivity | split; [lia|]]]].
  apply (screen_of_an_empty_hand Reference.log Reference.exp
           (fun _ => EmptyString)
           {| deckSize := 48; turn := 0; sampleSize := 0; targets := 3 |} S);
    unfold effectiveDeck; simpl; lia.
Defined.

(** X15.  The validation has no lower bound for [sampleSize] and
    [targets].  In binary64, on every engine: safe inputs that pass the
    five tests with a negative sample size or a negative number of targets
    are computed without any binomial coefficient, and the script writes
    [0.00%] for no hit, [100.00%] for at least one hit and for two or
    more, the remaining deck and the turn digit by digit, and an empty
    chart. *)
Theorem screen_of_a_negative_input
        (log exp : float -> float) (shortest : float -> string) (i : Inputs) :
  safe_inputs i ->
  1 <= deckSize i /\ 1 <= effectiveDeck i /\ sampleSize i <= effectiveDeck i /\
  targets i <= deckSize i /\ targets i <= effectiveDeck i ->
  sampleSize i < 0 \/ targets i < 0 ->
  trace (calculateAll (NUM := Float64.number log exp) i) =
    [Call_hypergeometric (effectiveDeck i) (targets i) (sampleSize i) 0;
     Call_hypergeometric (effectiveDeck i) (targets i) (sampleSize i) 1] /\
  screen (NUM := Float64.number log exp) (PRES := Float64Text.presentation)
         (TXT := Float64Text.text shortest) i =
  {| Screen.remainingDeck := integer_text (effectiveDeck i);
     Screen.turnDisplay := integer_text (turn i);
     Screen.error := "";
     Screen.error_visible := false;
     Screen.pWhiff := "0.00%";
     Screen.pExactlyOne := "0.00%";
     Screen.pAtLeastOne := "100.00%";
     Screen.pTwoOrMore := "100.00%";
     Screen.pWhiffTwice := "0.00%";
     Screen.chart := [] |}.
Proof.
  intros _ H Hneg.
  assert (V : ~ validation_fails i) by (unfold validation_fails; lia).
  assert (R : renderChart (NUM := Float64.number log exp)
                (effectiveDeck i) (targets i) (sampleSize i) = (([], 0%float), [])).
  { unfold renderChart. cbv zeta.
    replace (Z.to_nat (Z.min (targets i) (sampleSize i) + 1)) with 0%nat by lia.
    reflexivity. }
  split.
  - rewrite (calculateAll_trace_accepted i V), R.
    rewrite !float_hypergeometric_outside by (apply out_of_support_true; lia).
    reflexivity.
  - unfold screen.
    rewrite (calculateAll_accepted (NUM := Float64.number log exp) i V).
    cbv zeta. rewrite R.
    rewrite !float_hypergeometric_outside by (apply out_of_support_true; lia).
    reflexivity.
Qed.

(** Minus one card from a deck of 48, on the reference platform. *)
Lemma screen_of_minus_one_card :
  safe_inputs {| deckSize := 48; turn := 0; sampleSize := -1; targets := 3 |} /\
  (1 <= 48 /\ 1 <= 48 - 0 * 2 /\ -1 <= 48 - 0 * 2 /\ 3 <= 48 /\ 3 <= 48 - 0 * 2) /\
  (-1 < 0 \/ 3 < 0) /\
  trace (calculateAll (NUM := Reference.number)
           {| deckSize := 48; turn := 0; sampleSize := -1; targets := 3 |}) =
    [Call_hypergeometric 48 3 (-1) 0; Call_hypergeometric 48 3 (-1) 1] /\
  screen (NUM := Reference.number) (PRES := Float64Text.presentation)
         (TXT := Float64Text.text (fun _ => EmptyString))
         {| deckSize := 48; turn := 0; sampleSize := -1; targets := 3 |} =
  {| Screen.remainingDeck := "48";
     Screen.turnDisplay := "0";
     Screen.error := "";
     Screen.error_visible := false;
     Screen.pWhiff := "0.00%";
     Screen.pExactlyOne := "0.00%";
     Screen.pAtLeastOne := "100.00%";
     Screen.pTwoOrMore := "100.00%";
     Screen.pWhiffTwice := "0.00%";
     Screen.chart := [] |}.
Proof.
  assert (S : safe_inputs
                {| deckSize := 48; turn := 0; sampleSize := -1; targets := 3 |})
    by (repeat split; reflexivity).
  split; [exact S | split; [lia | split; [lia|]]].
  apply (screen_of_a_negative_input Reference.log Reference.exp
           (fun _ => EmptyString)
           {| deckSize := 48; turn := 0; sampleSize := -1; targets := 3 |} S);
    unfold effectiveDeck; simpl; lia.
Defined.

(** ** Strings *)

Section Strings.

Local Open Scope string_scope.

Lemma append_nil_r (s : string) : s ++ "" = s.
Proof. induction s as [|c s IH]; cbn; [|rewrite IH]; reflexivity. Qed.

Lemma append_assoc (a b c : string) : (a ++ b) ++ c = a ++ (b ++ c).
Proof. induction a as [|x a IH]; cbn; [|rewrite IH]; reflexivity. Qed.

Lemma length_append (a b : string) :
  String.length (a ++ b) = (String.length a + String.length b)%nat.
Proof. induction a as [|x a IH]; cbn; [|rewrite IH]; reflexivity. Qed.

Lemma substring_all (s : string) : substring 0 (String.length s) s = s.
Proof. induction s as [|c s IH]; cbn; [|rewrite IH]; reflexivity. Qed.

Lemma substring_prefix (a b : string) :
  substring 0 (String.length a) (a ++ b) = a.
Proof.
  induction a as [|c a IH]; cbn.
  - destruct b; reflexivity.
  - rewrite IH. reflexivity.
Qed.

Lemma substring_suffix (a b : string) :
  substring (String.length a) (String.length b) (a ++ b) = b.
Proof.
  induction a as [|c a IH]; cbn.
  - apply substring_all.
  - exact IH.
Qed.

(** *** Decimal digits *)

Lemma decimal_loop_acc (fuel : nat) :
  forall (n : Z) (acc : string),
    decimal_loop fuel n acc = decimal_loop fuel n "" ++ acc.
Proof.
  induction fuel as [|fuel IH]; intros n acc; cbn [decimal_loop].
  - reflexivity.
  - cbv zeta. destruct (n / 10 =? 0)%Z; [reflexivity|].
    rewrite (IH _ (String _ acc)), (IH _ (String _ "")), append_assoc.
    reflexivity.
Qed.

Lemma log2_tenth (n : Z) : (10 <= n -> Z.log2 (n / 10) < Z.log2 n)%Z.
Proof.
  intros H.
  assert (Q : (1 <= n / 10)%Z) by (apply Z.div_le_lower_bound; lia).
  assert (M : (10 * (n / 10) <= n)%Z) by (apply Z.mul_div_le; lia).
  destruct (Z.log2_spec (n / 10) ltac:(lia)) as [L _].
  assert (N := Z.log2_nonneg (n / 10)).
  assert (G : (Z.succ (Z.log2 (n / 10)) <= Z.log2 n)%Z); [|lia].
  apply Z.log2_le_pow2; [lia|].
  rewrite Z.pow_succ_r by lia. lia.
Qed.

(** With enough fuel the digits do not depend on the fuel. *)
Lemma decimal_loop_fuel (fuel1 : nat) :
  forall (fuel2 : nat) (n : Z) (acc : string),
    (0 <= n)%Z ->
    (Z.to_nat (Z.log2 n) < fuel1)%nat -> (Z.to_nat (Z.log2 n) < fuel2)%nat ->
    decimal_loop fuel1 n acc = decimal_loop fuel2 n acc.
Proof.
  induction fuel1 as [|fuel1 IH]; intros fuel2 n acc Hn H1 H2; [lia|].
  destruct fuel2 as [|fuel2]; [lia|].
  cbn [decimal_loop]. cbv zeta.
  destruct (Z.eqb_spec (n / 10) 0) as [E|E]; [reflexivity|].
  assert (T : (10 <= n)%Z).
  { destruct (Z.lt_ge_cases n 10) as [L|L]; [|exact L].
    rewrite Z.div_small in E by lia. contradiction. }
  assert (L := log2_tenth n T).
  assert (P := Z.log2_nonneg (n / 10)).
  apply IH; [apply Z.div_pos; lia | lia | lia].
Qed.

Lemma decimal_small (n : Z) :
  (0 <= n < 10)%Z -> decimal n = String (digit n) "".
Proof.
  intros H. unfold decimal. cbn [decimal_loop]. cbv zeta.
  rewrite Z.div_small, Z.mod_small by lia. reflexivity.
Qed.

Lemma decimal_step (n : Z) :
  (10 <= n)%Z -> decimal n = decimal (n / 10) ++ String (digit (n mod 10)) "".
Proof.
  intros H. unfold decimal at 1. cbn [decimal_loop]. cbv zeta.
  destruct (Z.eqb_spec (n / 10) 0) as [E|E].
  { assert (1 <= n / 10)%Z by (apply Z.div_le_lower_bound; lia). lia. }
  rewrite decimal_loop_acc. f_equal.
  assert (L := log2_tenth n H).
  assert (P := Z.log2_nonneg (n / 10)).
  apply decimal_loop_fuel; [apply Z.div_pos; lia | lia | lia].
Qed.

Lemma decimal_nonempty (n : Z) :
  (0 <= n)%Z -> (1 <= String.length (decimal n))%nat.
Proof.
  intros H. destruct (Z.lt_ge_cases n 10) as [L|L].
  - rewrite decimal_small by lia. cbn. lia.
  - rewrite decimal_step by lia. rewrite length_append. cbn. lia.
Qed.

Lemma zeros_snoc (count : nat) :
  Float64Text.zeros count ++ "0" = String "0" (Float64Text.zeros count).
Proof.
  induction count as [|count IH]; cbn; [|rewrite IH]; reflexivity.
Qed.

Lemma last_digits_0 (f : nat) : last_digits f 0 = Float64Text.zeros f.
Proof.
  induction f as [|f IH]; cbn [last_digits]; [reflexivity|].
  change (0 / 10)%Z with 0%Z. rewrite IH.
  change (digit (0 mod 10)) with "0"%char. apply zeros_snoc.
Qed.

Lemma length_last_digits (f : nat) :
  forall n : Z, String.length (last_digits f n) = f.
Proof.
  induction f as [|f IH]; intros n; cbn [last_digits]; [reflexivity|].
  rewrite length_append, IH. cbn. lia.
Qed.

(** A number with at least [f + 1] digits: its digits are those of
    [n / 10^f] followed by the last [f]. *)
Lemma decimal_split (f : nat) :
  forall n : Z,
    (10 ^ Z.of_nat f <= n)%Z ->
    decimal n = decimal (n / 10 ^ Z.of_nat f) ++ last_digits f n.
Proof.
  induction f as [|f IH]; intros n H.
  - cbn [last_digits]. change (10 ^ Z.of_nat 0)%Z with 1%Z.
    rewrite Z.div_1_r, append_nil_r. reflexivity.
  - rewrite Nat2Z.inj_succ, Z.pow_succ_r in * by lia.
    assert (P : (0 < 10 ^ Z.of_nat f)%Z) by (apply Z.pow_pos_nonneg; lia).
    rewrite decimal_step by lia.
    rewrite (IH (n / 10)%Z) by (apply Z.div_le_lower_bound; lia).
    rewrite Z.div_div by lia.
    cbn [last_digits]. apply append_assoc.
Qed.

(** A number with at most [f + 1] digits: padded with zeros it gives its
    last [f + 1] digits. *)
Lemma decimal_padded (f : nat) :
  forall n : Z,
    (0 <= n < 10 ^ Z.of_nat (S f))%Z ->
    (String.length (decimal n) <= S f)%nat /\
    Float64Text.zeros (S f - String.length (decimal n)) ++ decimal n =
    last_digits (S f) n.
Proof.
  induction f as [|f IH]; intros n H.
  - change (10 ^ Z.of_nat 1)%Z with 10%Z in H.
    rewrite decimal_small by lia. cbn [String.length Nat.sub last_digits].
    rewrite Z.mod_small by lia. split; [lia | reflexivity].
  - destruct (Z.lt_ge_cases n 10) as [L|L].
    + rewrite decimal_small by lia. cbn [String.length].
      split; [lia|].
      replace (S (S f) - 1)%nat with (S f) by lia.
      change (last_digits (S (S f)) n)
        with (last_digits (S f) (n / 10) ++ String (digit (n mod 10)) "").
      rewrite (Z.div_small n 10), (Z.mod_small n 10) by lia.
      rewrite last_digits_0. reflexivity.
    + rewrite (Nat2Z.inj_succ (S f)), Z.pow_succ_r in H by lia.
      destruct (IH (n / 10)%Z) as [Hl Hp].
      { split; [apply Z.div_pos; lia|].
        apply Z.div_lt_upper_bound; lia. }
      rewrite decimal_step by lia. rewrite length_append.
      cbn [String.length]. split; [lia|].
      replace (S (S f) - (String.length (decimal (n / 10)) + 1))%nat
        with (S f - String.length (decimal (n / 10)))%nat by lia.
      rewrite <- append_assoc, Hp. reflexivity.
Qed.

(** [toFixed] puts the decimal point before the last [f] digits of [n]:
    the integer part is [n / 10^f] and the fraction [n mod 10^f], written
    with exactly [f] digits. *)
Lemma fixed_notation_split (f : nat) (n : Z) :
  (0 <= n)%Z ->
  Float64Text.fixed_notation (S f) n =
  decimal (n / 10 ^ Z.of_nat (S f)) ++ "." ++ last_digits (S f) n.
Proof.
  intros Hn. unfold Float64Text.fixed_notation. cbv zeta.
  cbn [Nat.eqb].
  assert (P : (0 < 10 ^ Z.of_nat (S f))%Z) by (apply Z.pow_pos_nonneg; lia).
  destruct (Z.lt_ge_cases n (10 ^ Z.of_nat (S f))) as [L|L].
  - destruct (decimal_padded f n ltac:(lia)) as [Hl Hp].
    destruct (Nat.leb_spec (String.length (decimal n)) (S f)) as [_|]; [|lia].
    assert (N := decimal_nonempty n Hn).
    replace (S f + 1 - String.length (decimal n))%nat
      with (S (S f - String.length (decimal n))) by lia.
    cbn [Float64Text.zeros append]. rewrite Hp.
    replace (S f + 1 - S f)%nat with 1%nat by lia.
    rewrite Z.div_small by lia.
    cbn [substring].
    rewrite <- (length_last_digits (S f) n) at 2.
    rewrite substring_all.
    destruct (last_digits (S f) n); reflexivity.
  - rewrite (decimal_split (S f) n L).
    set (a := decimal (n / 10 ^ Z.of_nat (S f))).
    set (b := last_digits (S f) n).
    assert (Lb : String.length b = S f) by apply length_last_digits.
    assert (La : (1 <= String.length a)%nat).
    { apply decimal_nonempty, Z.div_pos; lia. }
    rewrite length_append, Lb.
    destruct (Nat.leb_spec (String.length a + S f) (S f)) as [|_]; [lia|].
    replace (String.length a + S f - S f)%nat with (String.length a) by lia.
    rewrite substring_prefix.
    rewrite <- Lb at 1. rewrite substring_suffix. reflexivity.
Qed.

End Strings.

(** ** [formatPercent] *)

Lemma powerRZ_2_nonneg (e : Z) : 0 <= e -> powerRZ 2 e = IZR (2 ^ e).
Proof.
  intros H. destruct e as [|p|p]; [reflexivity| |lia].
  cbn [powerRZ]. rewrite pow_IZR, positive_nat_Z. reflexivity.
Qed.

Lemma powerRZ_2_neg (e : Z) : e < 0 -> powerRZ 2 e = (/ IZR (2 ^ (- e)))%R.
Proof.
  intros H. destruct e as [|p|p]; [lia|lia|].
  cbn [powerRZ Z.opp]. rewrite pow_IZR, positive_nat_Z. reflexivity.
Qed.

(** The product [v * 100] is finite only if [v] is. *)
Lemma finite_times_100 (v : float) :
  is_finite (v * 100) = true -> is_nan v = false /\ is_finite v = true.
Proof.
  rewrite (is_finite_Prim2SF (v * 100)), is_nan_Prim2SF, is_finite_Prim2SF.
  rewrite mul_spec.
  destruct (Prim2SF v) as [s|s| |s m e]; intros H.
  - split; reflexivity.
  - destruct s; vm_compute in H; discriminate H.
  - vm_compute in H. discriminate H.
  - split; reflexivity.
Qed.

(** Below [1e21] in binary64 means below [10^21]. *)
Lemma below_1e21 (m : positive) (e : Z) :
  Z.pos m < 2 ^ 53 ->
  SFltb (S754_finite false m e) (Prim2SF 1e21) = true ->
  Float64Text.at_least_1e21 m e = false.
Proof.
  intros B H.
  change (Prim2SF 1e21) with (S754_finite false 7629394531250000 17) in H.
  unfold SFltb, SFcompare in H.
  unfold Float64Text.at_least_1e21.
  destruct (e ?= 17) eqn:E; [| |discriminate H].
  - apply Z.compare_eq_iff in E. subst e. change (0 <=? 17) with true. cbv iota.
    destruct (Pos.compare_cont Eq m 7629394531250000) eqn:C; try discriminate H.
    apply Z.leb_gt.
    change (10 ^ 21) with (7629394531250000 * 2 ^ 17).
    apply Z.mul_lt_mono_pos_r; [reflexivity|].
    apply Pos2Z.pos_lt_pos, C.
  - clear H. change (e < 17) in E.
    destruct (Z.leb_spec 0 e) as [P|P]; apply Z.leb_gt.
    + assert (M : 2 ^ e <= 2 ^ 16) by (apply Z.pow_le_mono_r; lia).
      assert (Q : 0 < 2 ^ e) by (apply Z.pow_pos_nonneg; lia).
      apply Z.lt_le_trans with (m := 2 ^ 53 * 2 ^ e);
        [apply Z.mul_lt_mono_pos_r; assumption|].
      apply Z.le_trans with (m := 2 ^ 53 * 2 ^ 16);
        [apply Z.mul_le_mono_nonneg_l; [apply Z.pow_nonneg; lia | exact M]|].
      apply Z.leb_le. reflexivity.
    + assert (Q : 0 < 2 ^ (- e)) by (apply Z.pow_pos_nonneg; lia).
      apply Z.lt_le_trans with (m := 2 ^ 53); [exact B|].
      apply Z.le_trans with (m := 10 ^ 21 * 1); [apply Z.leb_le; reflexivity|].
      apply Z.mul_le_mono_nonneg_l; [apply Z.pow_nonneg; lia | lia].
Qed.

(** The integer chosen by [toFixed] is within one half of the scaled
    value. *)
Lemma nearest_scaled_accurate (f : nat) (m : positive) (e : Z) :
  0 <= Float64Text.nearest_scaled f m e /\
  (Rabs (IZR (Float64Text.nearest_scaled f m e) / IZR (10 ^ Z.of_nat f)
         - IZR (Z.pos m) * powerRZ 2 e) <= / (2 * IZR (10 ^ Z.of_nat f)))%R.
Proof.
  unfold Float64Text.nearest_scaled. cbv zeta.
  assert (T : 0 < 10 ^ Z.of_nat f) by (apply Z.pow_pos_nonneg; lia).
  assert (RT := IZR_lt _ _ T).
  set (t := 10 ^ Z.of_nat f) in *.
  destruct (Z.leb_spec 0 e) as [P|P].
  - assert (Q : 0 < 2 ^ e) by (apply Z.pow_pos_nonneg; lia).
    split; [nia|].
    rewrite powerRZ_2_nonneg by exact P. rewrite !mult_IZR.
    replace (IZR (Z.pos m) * IZR t * IZR (2 ^ e) / IZR t
             - IZR (Z.pos m) * IZR (2 ^ e))%R with 0%R by (field; lra).
    rewrite Rabs_R0. apply Rlt_le, Rinv_0_lt_compat. lra.
  - assert (D : 0 < 2 ^ (- e)) by (apply Z.pow_pos_nonneg; lia).
    assert (RD := IZR_lt _ _ D).
    set (d := 2 ^ (- e)) in *.
    set (n := (2 * (Z.pos m * t) + d) / (2 * d)).
    assert (L : 2 * d * n <= 2 * (Z.pos m * t) + d)
      by (apply Z.mul_div_le; lia).
    assert (U : 2 * (Z.pos m * t) + d < 2 * d * n + 2 * d).
    { assert (X := Z.mod_pos_bound (2 * (Z.pos m * t) + d) (2 * d) ltac:(lia)).
      assert (Y := Z.div_mod (2 * (Z.pos m * t) + d) (2 * d) ltac:(lia)).
      fold n in Y. lia. }
    split.
    { apply Z.div_pos; lia. }
    rewrite powerRZ_2_neg by exact P. fold d.
    apply IZR_le in L. apply IZR_lt in U.
    rewrite ?plus_IZR, ?mult_IZR in L. rewrite ?plus_IZR, ?mult_IZR in U.
    rewrite ?plus_IZR, ?mult_IZR in L. rewrite ?plus_IZR, ?mult_IZR in U.
    replace (IZR n / IZR t - IZR (Z.pos m) * / IZR d)%R
      with ((2 * IZR d * IZR n - 2 * (IZR (Z.pos m) * IZR t))
            * / (2 * IZR d * IZR t))%R by (field; lra).
    assert (PD : (0 < 2 * IZR d * IZR t)%R) by nra.
    rewrite Rabs_mult, (Rabs_pos_eq (/ _)) by (apply Rlt_le, Rinv_0_lt_compat, PD).
    apply Rmult_le_reg_r with (r := (2 * IZR d * IZR t)%R); [exact PD|].
    rewrite Rmult_assoc, Rinv_l by lra.
    replace (/ (2 * IZR t) * (2 * IZR d * IZR t))%R with (IZR d) by (field; lra).
    rewrite Rmult_1_r.
    apply Rabs_le. split; nra.
Qed.

(** X16.  In binary64, on every engine: when [value * 100] is below
    [1e21] in magnitude, [formatPercent(value)] is a sign (a minus exactly
    when [value * 100 < 0]), the digits of an integer part, a point, exactly
    two digits and [%]; read as a number of hundredths [n], this text is
    within [0.005] of the magnitude of the binary64 product [value * 100],
    so the page shows the product rounded to two decimals.  (The test
    [value * 100 < 0] is false for [-0], shown as [0.00%], and true for a
    negative product that rounds to zero, shown as [-0.00%].) *)
Theorem formatPercent_rounds_to_two_decimals
        (log exp : float -> float) (shortest : float -> string) (v : float) :
  PrimFloat.ltb (PrimFloat.abs (v * 100)) 1e21 = true ->
  exists n : Z,
    0 <= n /\
    (Rabs (IZR n / 100 - Rabs (real_value (v * 100))) <= 1 / 200)%R /\
    formatPercent (NUM := Float64.number log exp)
                  (TXT := Float64Text.text shortest) v =
    ((if PrimFloat.ltb (v * 100) 0 then "-" else "") ++
     decimal (n / 100) ++ "." ++ last_digits 2 n ++ "%")%string.
Proof.
  intros H.
  assert (F : is_finite (v * 100) = true).
  { rewrite is_finite_Prim2SF. rewrite ltb_spec, abs_spec in H.
    destruct (Prim2SF (v * 100)) as [s|s| |s m e];
      [reflexivity | discriminate H | discriminate H | reflexivity]. }
  destruct (finite_times_100 v F) as [Hn Hf].
  unfold formatPercent.
  cbn [isNaN isFinite toFixed Float64Text.text mul of_int Float64.number].
  rewrite Hn, Hf. cbn [orb negb].
  change (Float64.of_Z 100) with 100%float.
  unfold Float64Text.Number_toFixed, real_value.
  rewrite (ltb_spec (v * 100) 0).
  rewrite ltb_spec, abs_spec in H.
  destruct (Prim2SF (v * 100)) as [s|s| |s m e] eqn:E;
    try discriminate H.
  - exists 0. split; [lia|]. split.
    + rewrite Rabs_R0. unfold Rdiv. rewrite Rmult_0_l, Rminus_0_r, Rabs_R0. lra.
    + reflexivity.
  - destruct (Prim2SF_finite_bound _ _ _ _ E) as [B _].
    cbn [SFabs] in H. rewrite (below_1e21 m e B H).
    destruct (nearest_scaled_accurate 2 m e) as [N0 A].
    exists (Float64Text.nearest_scaled 2 m e). split; [exact N0|]. split.
    + change (IZR (10 ^ Z.of_nat 2)) with 100%R in A.
      assert (PW : (0 < powerRZ 2 e)%R) by (apply powerRZ_lt; lra).
      assert (PM : (0 < IZR (Z.pos m))%R) by (apply IZR_lt; lia).
      replace (Rabs ((if s then - IZR (Z.pos m) else IZR (Z.pos m)) * powerRZ 2 e))
        with (IZR (Z.pos m) * powerRZ 2 e)%R.
      * eapply Rle_trans; [exact A|]. lra.
      * destruct s.
        -- rewrite <- Ropp_mult_distr_l, Rabs_Ropp, Rabs_pos_eq; [reflexivity|].
           apply Rlt_le, Rmult_lt_0_compat; assumption.
        -- rewrite Rabs_pos_eq; [reflexivity|].
           apply Rlt_le, Rmult_lt_0_compat; assumption.
    + rewrite (fixed_notation_split 1 _ N0).
      change (10 ^ Z.of_nat 2) with 100.
      change (Prim2SF 0) with (S754_zero false).
      unfold SFltb, SFcompare. destruct s; cbn [append];
        rewrite ?append_assoc; reflexivity.
Qed.

(** The statistic [1 - 0.8 - 0.2] of a deck of five. *)
Lemma formatPercent_of_a_negative_rounding_error :
  formatPercent (NUM := Reference.number)
                (TXT := Float64Text.text (fun _ => EmptyString))
                (1 - 0.8 - 0.2)%float = "-0.00%"%string /\
  PrimFloat.ltb (PrimFloat.abs ((1 - 0.8 - 0.2) * 100)) 1e21 = true /\
  exists n : Z,
    0 <= n /\
    (Rabs (IZR n / 100 - Rabs (real_value ((1 - 0.8 - 0.2) * 100))) <= 1 / 200)%R /\
    formatPercent (NUM := Reference.number)
                  (TXT := Float64Text.text (fun _ => EmptyString))
                  (1 - 0.8 - 0.2)%float =
    ((if PrimFloat.ltb ((1 - 0.8 - 0.2) * 100) 0 then "-" else "") ++
     decimal (n / 100) ++ "." ++ last_digits 2 n ++ "%")%string.
Proof.
  split; [reflexivity | split; [reflexivity|]].
  apply (formatPercent_rounds_to_two_decimals Reference.log Reference.exp
           (fun _ => EmptyString) (1 - 0.8 - 0.2)%float).
  reflexivity.
Defined.

(** ** The colour of a bar *)

Lemma compare_cont_Eq_antisym (p q : positive) :
  Pos.compare_cont Eq q p = CompOpp (Pos.compare_cont Eq p q).
Proof. exact (eq_sym (Pos.compare_cont_antisym p q Eq)). Qed.

Lemma SFcompare_antisym (x y : spec_float) :
  SFcompare y x = option_map CompOpp (SFcompare x y).
Proof.
  destruct x as [s1|s1| |s1 m1 e1], y as [s2|s2| |s2 m2 e2];
    try destruct s1; try destruct s2; try reflexivity;
    cbn [SFcompare option_map]; f_equal;
    rewrite (Z.compare_antisym e2 e1);
    destruct (e2 ?= e1); cbn [CompOpp]; try reflexivity;
    rewrite (compare_cont_Eq_antisym m1 m2); try reflexivity.

Qed.

Lemma leb_not_nan (x y : float) :
  PrimFloat.leb x y = true -> is_nan x = false /\ is_nan y = false.
Proof.
  rewrite leb_spec, !is_nan_Prim2SF. unfold SFleb.
  destruct (Prim2SF x) as [s1|s1| |s1 m1 e1], (Prim2SF y) as [s2|s2| |s2 m2 e2];
    intros H; (discriminate H || (split; reflexivity)).
Qed.

Lemma leb_ltb_false (x y : float) :
  PrimFloat.leb x y = true -> PrimFloat.ltb y x = false.
Proof.
  rewrite leb_spec, ltb_spec. unfold SFleb, SFltb.
  rewrite (SFcompare_antisym (Prim2SF x) (Prim2SF y)).
  destruct (SFcompare (Prim2SF x) (Prim2SF y)) as [[]|]; cbn;
    intros H; (discriminate H || reflexivity).
Qed.

(** Whatever is at most 0 is below 1. *)
Lemma leb_0_ltb_1 (p : float) :
  PrimFloat.leb p 0 = true -> PrimFloat.ltb p 1 = true.
Proof.
  rewrite leb_spec, ltb_spec.
  change (Prim2SF 0) with (S754_zero false).
  change (Prim2SF 1) with (S754_finite false 4503599627370496 (-52)).
  unfold SFleb, SFltb.
  destruct (Prim2SF p) as [s|s| |s m e]; try destruct s;
    unfold SFcompare; intros H; (discriminate H || reflexivity).
Qed.

Section ColourInBinary64.

Variables log exp : float -> float.

Local Existing Instance Float64Text.presentation.

Local Abbreviation engine := (Float64.number log exp).

(** [Math.max(0, Math.min(1, p))] *)
Lemma float_clamp (p : float) :
  Math_max (of_int (Number := engine) 0) (Math_min (of_int (Number := engine) 1) p) =
  if is_nan p then nan
  else if PrimFloat.ltb p 1
       then (if PrimFloat.ltb 0 p then p else 0%float)
       else 1%float.
Proof.
  cbn [Math_max Math_min Float64Text.presentation of_int Float64.number].
  change (Float64.of_Z 0) with 0%float. change (Float64.of_Z 1) with 1%float.
  unfold Float64Text.min.
  change (is_nan 1) with false. cbv iota.
  destruct (is_nan p) eqn:Np; [reflexivity|].
  change (Float64Text.min_step infinity 1) with 1%float.
  unfold Float64Text.min_step at 1.
  change (Float64Text.is_pos_zero 1) with false. rewrite andb_false_r.
  unfold Float64Text.max.
  change (is_nan 0) with false. cbv iota.
  change (Float64Text.max_step neg_infinity 0) with 0%float.
  unfold Float64Text.max_step.
  change (Float64Text.is_neg_zero 0) with false. rewrite !andb_false_r.
  destruct (PrimFloat.ltb p 1); [rewrite Np | ]; reflexivity.
Qed.

Lemma float_clamp_low (p : float) :
  PrimFloat.leb p 0 = true ->
  Math_max (of_int (Number := engine) 0) (Math_min (of_int (Number := engine) 1) p)
  = 0%float.
Proof.
  intros H. rewrite float_clamp.
  destruct (leb_not_nan _ _ H) as [-> _].
  rewrite (leb_0_ltb_1 p H), (leb_ltb_false _ _ H). reflexivity.
Qed.

Lemma float_clamp_high (p : float) :
  PrimFloat.leb 1 p = true ->
  Math_max (of_int (Number := engine) 0) (Math_min (of_int (Number := engine) 1) p)
  = 1%float.
Proof.
  intros H. rewrite float_clamp.
  destruct (leb_not_nan _ _ H) as [_ ->].
  rewrite (leb_ltb_false _ _ H). reflexivity.
Qed.

Lemma float_clamp_nan (p : float) :
  is_nan p = true ->
  Math_max (of_int (Number := engine) 0) (Math_min (of_int (Number := engine) 1) p)
  = nan.
Proof. intros H. rewrite float_clamp, H. reflexivity. Qed.

End ColourInBinary64.

(** X17.  In binary64, on every engine, [getProbabilityColor] clamps its
    argument: every value at most 0 (also [-Infinity] and [-0]) gets the
    colour of 0, [rgb(255, 0, 50)]; every value at least 1 (also
    [Infinity]) gets the colour of 1, [rgb(0, 255, 100)]; one half gets
    [rgb(255, 200, 50)]; and NaN passes through [Math.min] and [Math.max]
    and yields [rgb(NaN, NaN, NaN)], which is not a colour. *)
Theorem getProbabilityColor_clamps
        (log exp : float -> float) (shortest : float -> string) (p : float) :
  (PrimFloat.leb p 0 = true ->
   getProbabilityColor (NUM := Float64.number log exp)
     (PRES := Float64Text.presentation) (TXT := Float64Text.text shortest) p
   = "rgb(255, 0, 50)"%string) /\
  (PrimFloat.leb 1 p = true ->
   getProbabilityColor (NUM := Float64.number log exp)
     (PRES := Float64Text.presentation) (TXT := Float64Text.text shortest) p
   = "rgb(0, 255, 100)"%string) /\
  (is_nan p = true ->
   getProbabilityColor (NUM := Float64.number log exp)
     (PRES := Float64Text.presentation) (TXT := Float64Text.text shortest) p
   = "rgb(NaN, NaN, NaN)"%string) /\
  getProbabilityColor (NUM := Float64.number log exp)
    (PRES := Float64Text.presentation) (TXT := Float64Text.text shortest) 0.5%float
  = "rgb(255, 200, 50)"%string.
Proof.
  unfold getProbabilityColor, probabilityColor. cbv zeta.
  split; [|split; [|split]].
  - intros H. rewrite float_clamp_low by exact H. reflexivity.
  - intros H. rewrite float_clamp_high by exact H. reflexivity.
  - intros H. rewrite float_clamp_nan by exact H. reflexivity.
  - reflexivity.
Qed.

(** ** The colour gradient in exact arithmetic *)

Section ExactColour.

Local Open Scope R_scope.
Local Existing Instance Exact.number.
Local Existing Instance ExactPresentation.presentation.

(** [Math.round] of a real between two integers lies between them. *)
Lemma exact_round_between (a b : Z) (x : R) :
  IZR a <= x <= IZR b -> IZR a <= Exact.round x <= IZR b.
Proof.
  intros [Ha Hb]. unfold Exact.round.
  destruct (base_Int_part (x + / 2)) as [L U].
  split; apply IZR_le.
  - assert (G : (a - 1 < Int_part (x + / 2))%Z).
    { apply lt_IZR. rewrite minus_IZR. lra. }
    lia.
  - assert (G : (Int_part (x + / 2) < b + 1)%Z).
    { apply lt_IZR. rewrite plus_IZR. lra. }
    lia.
Qed.

Lemma exact_round_monotone (x y : R) :
  x <= y -> Exact.round x <= Exact.round y.
Proof.
  intros H. unfold Exact.round.
  destruct (base_Int_part (x + / 2)) as [Lx Ux].
  destruct (base_Int_part (y + / 2)) as [Ly Uy].
  apply IZR_le.
  assert (G : (Int_part (x + / 2) < Int_part (y + / 2) + 1)%Z).
  { apply lt_IZR. rewrite plus_IZR. lra. }
  lia.
Qed.

Lemma clamp_range (p : R) : 0 <= clamp p <= 1.
Proof.
  unfold clamp, Rmax, Rmin.
  destruct (Rle_dec 1 p); destruct (Rle_dec 0 _); lra.
Qed.

Lemma clamp_monotone (p q : R) : p <= q -> clamp p <= clamp q.
Proof.
  intros H. unfold clamp, Rmax, Rmin.
  destruct (Rle_dec 1 p); destruct (Rle_dec 1 q);
    repeat match goal with |- context [Rle_dec ?a ?b] => destruct (Rle_dec a b) end;
    lra.
Qed.

Lemma clamp_half (p : R) : clamp p < / 2 <-> p < / 2.
Proof.
  unfold clamp, Rmax, Rmin.
  destruct (Rle_dec 1 p); destruct (Rle_dec 0 _); lra.
Qed.

Lemma exact_probabilityColor (p : R) :
  probabilityColor p =
  if Rlt_dec (clamp p) (/ 2) then
    {| Color.r := 255;
       Color.g := Exact.round (200 * (clamp p * 2));
       Color.b := 50 |}
  else
    {| Color.r := Exact.round (255 * (1 - (clamp p - / 2) * 2));
       Color.g := Exact.round (200 + 55 * ((clamp p - / 2) * 2));
       Color.b := Exact.round (50 + 50 * ((clamp p - / 2) * 2)) |}.
Proof.
  unfold probabilityColor. cbv zeta.
  cbn [lt half Math_max Math_min of_int mul sub add Math_round
       Exact.number ExactPresentation.presentation].
  fold (clamp p). unfold Exact.ltb.
  destruct (Rlt_dec (clamp p) (/ 2)); reflexivity.
Qed.

Lemma exact_low_half (c : R) :
  0 <= c < / 2 ->
  0 <= 200 * (c * 2) <= 200.
Proof. intros H. lra. Qed.

Lemma exact_high_half (c : R) :
  / 2 <= c <= 1 ->
  0 <= 255 * (1 - (c - / 2) * 2) <= 255 /\
  200 <= 200 + 55 * ((c - / 2) * 2) <= 255 /\
  50 <= 50 + 50 * ((c - / 2) * 2) <= 100.
Proof. intros H. lra. Qed.

End ExactColour.

(** X18.  In exact arithmetic, for every real argument (also outside
    [[0, 1]]) the three channels computed by [getProbabilityColor] are
    integers, with [0 <= r <= 255], [0 <= g <= 255] and [50 <= b <= 100].
    Below one half the colour runs from red to yellow ([r = 255],
    [b = 50], [g <= 200]); from one half on it runs to green
    ([g >= 200]). *)
Theorem exact_color_channels_are_in_range (p : R) :
  exists r g b : Z,
    probabilityColor (NUM := Exact.number)
      (PRES := ExactPresentation.presentation) p =
      {| Color.r := IZR r; Color.g := IZR g; Color.b := IZR b |} /\
    0 <= r <= 255 /\ 0 <= g <= 255 /\ 50 <= b <= 100 /\
    ((p < / 2)%R -> r = 255 /\ g <= 200 /\ b = 50) /\
    ((/ 2 <= p)%R -> 200 <= g).
Proof.
  rewrite exact_probabilityColor.
  assert (C := clamp_range p).
  destruct (Rlt_dec (clamp p) (/ 2)) as [L|L].
  - assert (B := exact_round_between 0 200 _ (exact_low_half (clamp p) ltac:(lra))).
    exists 255, (Int_part (200 * (clamp p * 2) + / 2)), 50.
    destruct B as [B1 B2]. apply le_IZR in B1. apply le_IZR in B2.
    split; [reflexivity|].
    repeat split; try lia.
    intros H. exfalso. apply (proj1 (clamp_half p)) in L. lra.
  - destruct (exact_high_half (clamp p) ltac:(lra)) as (H1 & H2 & H3).
    assert (B1 := exact_round_between 0 255 _ H1).
    assert (B2 := exact_round_between 200 255 _ H2).
    assert (B3 := exact_round_between 50 100 _ H3).
    unfold Exact.round in *.
    eexists _, _, _. split; [reflexivity|].
    destruct B1 as [B1 B1']. destruct B2 as [B2 B2']. destruct B3 as [B3 B3'].
    apply le_IZR in B1, B1', B2, B2', B3, B3'.
    repeat split; try lia.
    all: exfalso; apply L, (proj2 (clamp_half p)); assumption.
Qed.

(** X19.  In exact arithmetic the gradient is monotone: a larger
    probability never has more red, and never has less green or less
    blue. *)
Theorem exact_color_gradient_is_monotone (p q : R) :
  (p <= q)%R ->
  (Color.r (probabilityColor (NUM := Exact.number)
              (PRES := ExactPresentation.presentation) q) <=
   Color.r (probabilityColor (NUM := Exact.number)
              (PRES := ExactPresentation.presentation) p))%R /\
  (Color.g (probabilityColor (NUM := Exact.number)
              (PRES := ExactPresentation.presentation) p) <=
   Color.g (probabilityColor (NUM := Exact.number)
              (PRES := ExactPresentation.presentation) q))%R /\
  (Color.b (probabilityColor (NUM := Exact.number)
              (PRES := ExactPresentation.presentation) p) <=
   Color.b (probabilityColor (NUM := Exact.number)
              (PRES := ExactPresentation.presentation) q))%R.
Proof.
  intros H. rewrite !exact_probabilityColor.
  assert (Cp := clamp_range p). assert (Cq := clamp_range q).
  assert (M := clamp_monotone p q H).
  destruct (Rlt_dec (clamp p) (/ 2)) as [Lp|Lp];
    destruct (Rlt_dec (clamp q) (/ 2)) as [Lq|Lq];
    cbn [Color.r Color.g Color.b].
  - split; [lra | split; [apply exact_round_monotone; lra | lra]].
  - destruct (exact_high_half (clamp q) ltac:(lra)) as (H1 & H2 & H3).
    destruct (exact_round_between 0 255 _ H1) as [_ B1].
    destruct (exact_round_between 200 255 _ H2) as [B2 _].
    destruct (exact_round_between 50 100 _ H3) as [B3 _].
    destruct (exact_round_between 0 200 _
                (exact_low_half (clamp p) ltac:(lra))) as [_ B4].
    split; [exact B1 | split; [lra | exact B3]].
  - lra.
  - split; [|split]; apply exact_round_monotone; lra.
Qed.

(** Thirty and seventy per cent. *)
Lemma exact_colors_of_30_and_70_per_cent :
  (3 / 10 <= 7 / 10)%R /\
  (Color.r (probabilityColor (NUM := Exact.number)
              (PRES := ExactPresentation.presentation) (7 / 10)%R) <=
   Color.r (probabilityColor (NUM := Exact.number)
              (PRES := ExactPresentation.presentation) (3 / 10)%R))%R /\
  (Color.g (probabilityColor (NUM := Exact.number)
              (PRES := ExactPresentation.presentation) (3 / 10)%R) <=
   Color.g (probabilityColor (NUM := Exact.number)
              (PRES := ExactPresentation.presentation) (7 / 10)%R))%R /\
  (Color.b (probabilityColor (NUM := Exact.number)
              (PRES := ExactPresentation.presentation) (3 / 10)%R) <=
   Color.b (probabilityColor (NUM := Exact.number)
              (PRES := ExactPresentation.presentation) (7 / 10)%R))%R.
Proof.
  split; [lra|].
  apply (exact_color_gradient_is_monotone (3 / 10)%R (7 / 10)%R). lra.
Defined.

(** ** The heights of the bars in exact arithmetic *)

Section ExactHeights.

Local Open Scope R_scope.
Local Existing Instance Exact.number.

Lemma exact_heightPercent (maxProb p : R) :
  heightPercent maxProb p =
  if Rlt_dec 0 maxProb then p / maxProb * 100 else 0.
Proof.
  unfold heightPercent. cbn [lt of_int mul div Exact.number].
  unfold Exact.ltb. destruct (Rlt_dec 0 maxProb); reflexivity.
Qed.

Lemma exact_total_of_zeros (l : list R) :
  Forall (fun p => p = 0) l -> total l = 0.
Proof.
  unfold total. cbn [add of_int Exact.number].
  induction 1 as [|p l Hp _ IH]; cbn [fold_left]; [reflexivity|].
  subst p. rewrite Rplus_0_l. exact IH.
Qed.

End ExactHeights.

(** X20.  In exact arithmetic, for every [(N, K, n)] each bar of the chart
    has a height between 0 and 100 per cent; when [maxProb] is positive
    some bar has height exactly 100, otherwise every bar has height 0;
    and for [0 <= K <= N], [0 <= n <= N] the maximum is positive, so the
    tallest bar always fills the chart. *)
Theorem exact_bar_heights (N K n : Z) :
  let probabilities := fst (value (renderChart (NUM := Exact.number) N K n)) in
  let maxProb := snd (value (renderChart (NUM := Exact.number) N K n)) in
  Forall (fun p => (0 <= heightPercent (NUM := Exact.number) maxProb p <= 100)%R)
         probabilities /\
  ((0 < maxProb)%R ->
   Exists (fun p => heightPercent (NUM := Exact.number) maxProb p = 100%R)
          probabilities) /\
  (~ (0 < maxProb)%R ->
   Forall (fun p => heightPercent (NUM := Exact.number) maxProb p = 0%R)
          probabilities) /\
  (0 <= K <= N -> 0 <= n <= N -> (0 < maxProb)%R).
Proof.
  cbv zeta. rewrite renderChart_value. cbn [fst snd].
  set (l := map (fun k => value (hypergeometric (NUM := Exact.number) N K n k))
                (support_indices K n)).
  destruct (exact_track_max_fold l (of_int (Number := Exact.number) 0))
    as (Ha & Hall & Hin).
  set (mx := fold_left track_max l (of_int (Number := Exact.number) 0)) in *.
  change (of_int (Number := Exact.number) 0) with 0%R in *.
  assert (Hpos : Forall (fun p => (0 <= p)%R) l).
  { apply Forall_forall. intros p I. unfold l in I.
    apply in_map_iff in I. destruct I as (k & <- & _).
    apply exact_hypergeometric_unit_interval. }
  split; [|split; [|split]].
  - apply Forall_forall. intros p I.
    rewrite Forall_forall in Hall, Hpos.
    assert (U := Hall p I). assert (P := Hpos p I).
    rewrite exact_heightPercent. destruct (Rlt_dec 0 mx) as [G|G]; [|lra].
    split.
    + apply Rmult_le_pos; [|lra].
      apply Rmult_le_pos; [exact P | apply Rlt_le, Rinv_0_lt_compat, G].
    + apply Rmult_le_reg_r with (r := mx); [exact G|].
      replace (p / mx * 100 * mx)%R with (p * 100)%R by (field; lra). lra.
  - intros G. destruct Hin as [E|I]; [lra|].
    apply Exists_exists. exists mx. split; [exact I|].
    rewrite exact_heightPercent. destruct (Rlt_dec 0 mx); [|contradiction].
    field. lra.
  - intros G. apply Forall_forall. intros p _.
    rewrite exact_heightPercent. destruct (Rlt_dec 0 mx); [contradiction|].
    reflexivity.
  - intros HK Hn.
    destruct (Rlt_dec 0 mx) as [G|G]; [exact G|exfalso].
    assert (Z : Forall (fun p => p = 0%R) l).
    { rewrite Forall_forall in Hall, Hpos |- *. intros p I.
      assert (U := Hall p I). assert (P := Hpos p I). lra. }
    apply exact_total_of_zeros in Z.
    unfold l in Z. rewrite exact_pmf_total in Z by assumption. lra.
Qed.

(** On the reference platform [Math.exp] overflows for N = 1040, n = 520. *)
Lemma reference_overflow_1040_520 :
  value (binomialCoefficient (NUM := Reference.number) 1040 520) = infinity.
Proof. run_script. Qed.

(** X21.  What the script writes after an overflow.  In binary64, when
    [Math.exp] overflows inside [binomialCoefficient(N, sampleSize)] for
    safe, accepted inputs without targets, no error is written: four of
    the five statistics read [-] (the text of a rejected input),
    [pExactlyOne] reads [0.00%], and the chart gets a single bar labelled
    [NaN%], to which the script assigns the height [0%] and, as its
    background colour, the string [rgb(NaN, NaN, NaN)].  That string is
    what [getProbabilityColor(NaN)] returns; it is no CSS colour, so the
    assignment leaves the bar without a colour of its own. *)
Theorem screen_when_binomial_overflows
        (log exp : float -> float) (shortest : float -> string) (i : Inputs) :
  safe_inputs i ->
  1 <= deckSize i /\ 1 <= effectiveDeck i /\ sampleSize i <= effectiveDeck i /\
  targets i <= deckSize i /\ targets i <= effectiveDeck i ->
  targets i = 0 -> 0 <= sampleSize i ->
  value (binomialCoefficient (NUM := Float64.number log exp)
           (effectiveDeck i) (sampleSize i)) = infinity ->
  getProbabilityColor (NUM := Float64.number log exp)
    (PRES := Float64Text.presentation) (TXT := Float64Text.text shortest) nan
    = "rgb(NaN, NaN, NaN)"%string /\
  screen (NUM := Float64.number log exp) (PRES := Float64Text.presentation)
         (TXT := Float64Text.text shortest) i =
  {| Screen.remainingDeck := integer_text (effectiveDeck i);
     Screen.turnDisplay := integer_text (turn i);
     Screen.error := "";
     Screen.error_visible := false;
     Screen.pWhiff := "-";
     Screen.pExactlyOne := "0.00%";
     Screen.pAtLeastOne := "-";
     Screen.pTwoOrMore := "-";
     Screen.pWhiffTwice := "-";
     Screen.chart :=
       [{| valueLabel := "NaN%";
           barFill_height := "0%";
           barFill_backgroundColor := "rgb(NaN, NaN, NaN)";
           label := "0" |}] |}.
Proof.
  intros _ H HK Hn Hinf. split; [reflexivity|].
  assert (V : ~ validation_fails i) by (unfold validation_fails; lia).
  unfold screen.
  rewrite (calculateAll_accepted (NUM := Float64.number log exp) i V).
  cbv zeta. rewrite HK.
  rewrite float_renderChart_overflow by (lia || exact Hinf).
  rewrite float_hypergeometric_overflow by (lia || exact Hinf).
  rewrite float_hypergeometric_outside by (apply out_of_support_true; lia).
  reflexivity.
Qed.

(** A deck of 1040 and a sample of 520, on the reference platform. *)
Lemma screen_of_520_cards_from_1040 :
  safe_inputs
    {| deckSize := 1040; turn := 0; sampleSize := 520; targets := 0 |} /\
  (1 <= 1040 /\ 1 <= 1040 - 0 * 2 /\ 520 <= 1040 - 0 * 2 /\
   0 <= 1040 /\ 0 <= 1040 - 0 * 2) /\
  0 = 0 /\ 0 <= 520 /\
  value (binomialCoefficient (NUM := Reference.number) 1040 520) = infinity /\
  getProbabilityColor (NUM := Reference.number)
    (PRES := Float64Text.presentation)
    (TXT := Float64Text.text (fun _ => EmptyString)) nan
    = "rgb(NaN, NaN, NaN)"%string /\
  screen (NUM := Reference.number) (PRES := Float64Text.presentation)
         (TXT := Float64Text.text (fun _ => EmptyString))
         {| deckSize := 1040; turn := 0; sampleSize := 520; targets := 0 |} =
  {| Screen.remainingDeck := "1040";
     Screen.turnDisplay := "0";
     Screen.error := "";
     Screen.error_visible := false;
     Screen.pWhiff := "-";
     Screen.pExactlyOne := "0.00%";
     Screen.pAtLeastOne := "-";
     Screen.pTwoOrMore := "-";
     Screen.pWhiffTwice := "-";
     Screen.chart :=
       [{| valueLabel := "NaN%";
           barFill_height := "0%";
           barFill_backgroundColor := "rgb(NaN, NaN, NaN)";
           label := "0" |}] |}.
Proof.
  assert (S : safe_inputs
                {| deckSize := 1040; turn := 0; sampleSize := 520;
                   targets := 0 |})
    by (repeat split; reflexivity).
  split; [exact S | split; [lia | split; [reflexivity | split; [lia|]]]].
  split; [exact reference_overflow_1040_520|].
  apply (screen_when_binomial_overflows Reference.log Reference.exp
           (fun _ => EmptyString)
           {| deckSize := 1040; turn := 0; sampleSize := 520; targets := 0 |} S);
    [unfold effectiveDeck; simpl; lia | reflexivity | simpl; lia
    | exact reference_overflow_1040_520].
Defined.

(** ** The error path *)

Lemma concat_messages_nonempty (i : Inputs) :
  validate i <> [] -> String.concat ". " (validate i) <> EmptyString.
Proof.
  unfold validate. cbv zeta.
  destruct (deckSize i <? 1); destruct (effectiveDeck i <? 1);
    destruct (effectiveDeck i <? sampleSize i);
    destruct (deckSize i <? targets i);
    destruct (effectiveDeck i <? targets i);
    cbn [app]; intros H; try (now contradiction H);
    cbn [String.concat append]; discriminate.
Qed.

(** X22.  For every kind of Number and safe inputs: the script writes an
    error exactly when one of the five validation tests fails; the error
    text is then the messages of the failing tests joined by [". "] (and
    not empty), the five statistics read [-] and the chart is empty; when
    all tests pass the error text is empty and hidden.  In both cases the
    remaining deck [deckSize - 2 * turn] and the turn are written digit by
    digit. *)
Theorem screen_shows_an_error_iff_validation_fails
        {num : Type} {NUM : Number num} {PRES : Presentation num}
        {TXT : Text num} (i : Inputs) :
  safe_inputs i ->
  (Screen.error_visible (screen i) = true <-> validation_fails i) /\
  (Screen.error (screen i) <> EmptyString <-> validation_fails i) /\
  (validation_fails i ->
   Screen.error (screen i) = String.concat ". " (validate i) /\
   Screen.pWhiff (screen i) = "-"%string /\
   Screen.pExactlyOne (screen i) = "-"%string /\
   Screen.pAtLeastOne (screen i) = "-"%string /\
   Screen.pTwoOrMore (screen i) = "-"%string /\
   Screen.pWhiffTwice (screen i) = "-"%string /\
   Screen.chart (screen i) = []) /\
  Screen.remainingDeck (screen i) = integer_text (deckSize i - 2 * turn i) /\
  Screen.turnDisplay (screen i) = integer_text (turn i).
Proof.
  intros _.
  assert (EN : effectiveDeck i = deckSize i - 2 * turn i)
    by (unfold effectiveDeck; lia).
  unfold screen.
  destruct (validate i) as [|msg rest] eqn:E.
  - assert (V : ~ validation_fails i) by (apply validate_nil; exact E).
    rewrite (calculateAll_accepted i V). cbv zeta.
    destruct (value (renderChart _ _ _)) as [probabilities maxProb].
    cbn [display Screen.error_visible Screen.error Screen.remainingDeck
         Screen.turnDisplay].
    rewrite EN.
    repeat split; try (intros; contradiction); try discriminate.
  - assert (F : validation_fails i).
    { destruct (validate_nil i) as [_ B].
      assert (D : validate i <> []) by (rewrite E; discriminate).
      assert (NN : ~ ~ validation_fails i) by (intros NF; apply D, B, NF).
      clear B D E. unfold validation_fails in *. lia. }
    rewrite (calculateAll_rejected i F).
    cbn [value fst display Screen.error_visible Screen.error
         Screen.remainingDeck Screen.turnDisplay Screen.pWhiff
         Screen.pExactlyOne Screen.pAtLeastOne Screen.pTwoOrMore
         Screen.pWhiffTwice Screen.chart].
    rewrite EN.
    assert (NE := concat_messages_nonempty i ltac:(rewrite E; discriminate)).
    repeat split; auto.
    rewrite E. reflexivity.
Qed.

(** Seven cards from an empty deck on turn 3, on the reference platform:
    all five messages. *)
Lemma screen_of_an_empty_deck :
  safe_inputs {| deckSize := 0; turn := 3; sampleSize := 7; targets := 3 |} /\
  screen (NUM := Reference.number) (PRES := Float64Text.presentation)
         (TXT := Float64Text.text (fun _ => EmptyString))
         {| deckSize := 0; turn := 3; sampleSize := 7; targets := 3 |} =
  {| Screen.remainingDeck := "-6";
     Screen.turnDisplay := "3";
     Screen.error :=
       "Deck size must be at least 1. Deck size minus turn must be at least 1. Sample size cannot exceed remaining deck. Targets cannot exceed deck size. Targets cannot exceed remaining deck";
     Screen.error_visible := true;
     Screen.pWhiff := "-";
     Screen.pExactlyOne := "-";
     Screen.pAtLeastOne := "-";
     Screen.pTwoOrMore := "-";
     Screen.pWhiffTwice := "-";
     Screen.chart := [] |} /\
  (Screen.error_visible
     (screen (NUM := Reference.number) (PRES := Float64Text.presentation)
             (TXT := Float64Text.text (fun _ => EmptyString))
             {| deckSize := 0; turn := 3; sampleSize := 7; targets := 3 |})
   = true <->
   validation_fails
     {| deckSize := 0; turn := 3; sampleSize := 7; targets := 3 |}).
Proof.
  assert (S : safe_inputs
                {| deckSize := 0; turn := 3; sampleSize := 7; targets := 3 |})
    by (repeat split; reflexivity).
  split; [exact S | split; [reflexivity|]].
  exact (proj1 (screen_shows_an_error_iff_validation_fails
                  (NUM := Reference.number) (PRES := Float64Text.presentation)
                  (TXT := Float64Text.text (fun _ => EmptyString))
                  {| deckSize := 0; turn := 3; sampleSize := 7; targets := 3 |}
                  S)).
Defined.

(** ** The bars of the chart *)

Section Bars.

Context {num : Type} {NUM : Number num} {PRES : Presentation num}
        {TXT : Text num}.

Lemma length_renderBars (maxProb : num) (probabilities : list num) :
  forall k : nat,
    List.length (renderBars maxProb k probabilities) = List.length probabilities.
Proof.
  induction probabilities as [|p rest IH]; intros k; cbn [renderBars List.length];
    [|rewrite IH]; reflexivity.
Qed.

Lemma nth_error_renderBars (maxProb : num) (probabilities : list num) :
  forall (k j : nat) (p : num),
    nth_error probabilities j = Some p ->
    nth_error (renderBars maxProb k probabilities) j =
    Some {| valueLabel := (toFixed 1 (mul p (of_int 100)) ++ "%")%string;
            barFill_height := (toString (heightPercent maxProb p) ++ "%")%string;
            barFill_backgroundColor := getProbabilityColor p;
            label := decimal (Z.of_nat (k + j)) |}.
Proof.
  induction probabilities as [|q rest IH]; intros k j p H.
  - destruct j; discriminate H.
  - destruct j as [|j]; cbn [renderBars nth_error] in *.
    + injection H as ->. rewrite Nat.add_0_r. reflexivity.
    + rewrite (IH (S k) j p H).
      replace (k + S j)%nat with (S k + j)%nat by lia. reflexivity.
Qed.

End Bars.

(** X23.  For every kind of Number and all safe inputs that pass
    validation, the script appends to the chart one bar for each
    [k = 0 .. min(targets, sampleSize)], in this order.  To the bar at
    position [k] it gives the decimal digits of [k] as label and
    [hypergeometric(N, targets, sampleSize, k) * 100] with one decimal as
    value label, and it assigns to the style of the fill the string
    [getProbabilityColor(p)] as background colour and [p] relative to the
    tracked maximum, in per cent, as height.  (Whether the element keeps
    an assigned style value is up to CSS: it does not when [p] is NaN.) *)
Theorem screen_has_one_bar_for_each_count
        {num : Type} {NUM : Number num} {PRES : Presentation num}
        {TXT : Text num} (i : Inputs) :
  safe_inputs i ->
  1 <= deckSize i /\ 1 <= effectiveDeck i /\ sampleSize i <= effectiveDeck i /\
  targets i <= deckSize i /\ targets i <= effectiveDeck i ->
  List.length (Screen.chart (screen i)) =
    Z.to_nat (Z.min (targets i) (sampleSize i) + 1) /\
  forall k : nat,
    (k < List.length (Screen.chart (screen i)))%nat ->
    let p := value (hypergeometric (effectiveDeck i) (targets i) (sampleSize i)
                      (Z.of_nat k)) in
    let maxProb := snd (value (renderChart (effectiveDeck i) (targets i)
                                 (sampleSize i))) in
    nth_error (Screen.chart (screen i)) k =
    Some {| valueLabel := (toFixed 1 (mul p (of_int 100)) ++ "%")%string;
            barFill_height := (toString (heightPercent maxProb p) ++ "%")%string;
            barFill_backgroundColor := getProbabilityColor p;
            label := decimal (Z.of_nat k) |}.
Proof.
  intros _ H.
  assert (V : ~ validation_fails i) by (unfold validation_fails; lia).
  unfold screen. rewrite (calculateAll_accepted i V). cbv zeta.
  rewrite renderChart_value. cbn [display Screen.chart snd].
  rewrite length_renderBars, length_map.
  unfold support_indices. rewrite length_Zrange.
  split; [reflexivity|].
  intros k Hk.
  apply (nth_error_renderBars _ _ 0%nat k).
  rewrite nth_error_map, nth_error_Zrange by exact Hk. reflexivity.
Qed.

(** A deck of 5 with one target and one card drawn, on the reference
    platform. *)
Lemma bars_of_a_deck_of_5 :
  safe_inputs {| deckSize := 5; turn := 0; sampleSize := 1; targets := 1 |} /\
  (1 <= 5 /\ 1 <= 5 - 0 * 2 /\ 1 <= 5 - 0 * 2 /\ 1 <= 5 /\ 1 <= 5 - 0 * 2) /\
  Screen.chart
    (screen (NUM := Reference.number) (PRES := Float64Text.presentation)
            (TXT := Float64Text.text (fun _ => EmptyString))
            {| deckSize := 5; turn := 0; sampleSize := 1; targets := 1 |}) =
    [{| valueLabel := "80.0%"; barFill_height := "100%";
        barFill_backgroundColor := "rgb(102, 233, 80)"; label := "0" |};
     {| valueLabel := "20.0%"; barFill_height := "25%";
        barFill_backgroundColor := "rgb(255, 80, 50)"; label := "1" |}] /\
  List.length
    (Screen.chart
       (screen (NUM := Reference.number) (PRES := Float64Text.presentation)
               (TXT := Float64Text.text (fun _ => EmptyString))
               {| deckSize := 5; turn := 0; sampleSize := 1; targets := 1 |})) =
    Z.to_nat (Z.min 1 1 + 1) /\
  forall k : nat,
    (k < List.length
           (Screen.chart
              (screen (NUM := Reference.number) (PRES := Float64Text.presentation)
                      (TXT := Float64Text.text (fun _ => EmptyString))
                      {| deckSize := 5; turn := 0; sampleSize := 1;
                         targets := 1 |})))%nat ->
    let p := value (hypergeometric (NUM := Reference.number) 5 1 1 (Z.of_nat k)) in
    let maxProb := snd (value (renderChart (NUM := Reference.number) 5 1 1)) in
    nth_error
      (Screen.chart
         (screen (NUM := Reference.number) (PRES := Float64Text.presentation)
                 (TXT := Float64Text.text (fun _ => EmptyString))
                 {| deckSize := 5; turn := 0; sampleSize := 1; targets := 1 |})) k =
    Some {| valueLabel :=
              (Float64Text.Number_toFixed (fun _ => EmptyString) 1
                 (p * 100)%float ++ "%")%string;
            barFill_height :=
              (Float64Text.Number_toString (fun _ => EmptyString)
                 (heightPercent (NUM := Reference.number) maxProb p) ++ "%")%string;
            barFill_backgroundColor :=
              getProbabilityColor (NUM := Reference.number)
                (PRES := Float64Text.presentation)
                (TXT := Float64Text.text (fun _ => EmptyString)) p;
            label := decimal (Z.of_nat k) |}.
Proof.
  assert (S : safe_inputs
                {| deckSize := 5; turn := 0; sampleSize := 1; targets := 1 |})
    by (repeat split; reflexivity).
  split; [exact S | split; [lia | split; [run_script|]]].
  apply (screen_has_one_bar_for_each_count (NUM := Reference.number)
           (PRES := Float64Text.presentation)
           (TXT := Float64Text.text (fun _ => EmptyString))
           {| deckSize := 5; turn := 0; sampleSize := 1; targets := 1 |} S).
  unfold effectiveDeck. simpl. lia.
Defined.

(** ** The document after a calculation *)


Section MutationFacts.

Context {num : Type} {NUM : Number num} {PRES : Presentation num}
        {TXT : Text num}.





End MutationFacts.


(** ** Reading a field *)

(** A nonzero integer below [2^53] survives the conversion to a Number,
    [|| 0] and the conversion back. *)
Lemma as_integer_of_Z (z : Z) :
  z <> 0 -> Z.abs z < 2 ^ 53 ->
  Field.as_integer (Field.or_0 (Float64.of_Z z)) = Some z.
Proof.
  intros Hz B.
  assert (X : exists (s : bool) (m : positive),
             z = (if s then Z.neg m else Z.pos m) /\ Z.pos m < 2 ^ 53).
  { destruct z as [|m|m]; [contradiction | exists false, m | exists true, m];
      split; try reflexivity; exact B. }
  destruct X as (s & m & -> & Bm).
  destruct (of_Z_exact s m Bm) as (mz & ez & E & Sm & Mg).
  set (x := Float64.of_Z (if s then Z.neg m else Z.pos m)) in *.
  assert (N : is_nan x = false) by (rewrite is_nan_Prim2SF, E; reflexivity).
  assert (Zr : is_zero x = false).
  { unfold is_zero. rewrite eqb_spec, E. destruct s; reflexivity. }
  unfold Field.or_0. rewrite N, Zr. cbn [orb].
  unfold Field.as_integer. rewrite E, Sm, Mg. destruct s; reflexivity.
Qed.

Lemma digit_value_decimal (d : Z) :
  0 <= d <= 9 -> Field.digit_value 10 (48 + d) = Some d.
Proof.
  intros H. unfold Field.digit_value. cbv zeta.
  destruct (Z.leb_spec 48 (48 + d)); [|lia].
  destruct (Z.leb_spec (48 + d) 57); [|lia].
  cbn [andb]. replace (48 + d - 48) with d by lia.
  destruct (Z.ltb_spec d 10); [reflexivity | lia].
Qed.

Lemma digit_value_not_decimal (c : Z) :
  (48 <=? c) && (c <=? 57) = false -> Field.digit_value 10 c = None.
Proof.
  intros H. unfold Field.digit_value. cbv zeta. rewrite H.
  destruct ((97 <=? c) && (c <=? 122)) eqn:A.
  - apply andb_prop in A. destruct A as [A _]. apply Z.leb_le in A.
    destruct (Z.ltb_spec (c - 87) 10); [lia | reflexivity].
  - destruct ((65 <=? c) && (c <=? 90)) eqn:B; [|reflexivity].
    apply andb_prop in B. destruct B as [B _]. apply Z.leb_le in B.
    destruct (Z.ltb_spec (c - 55) 10); [lia | reflexivity].
Qed.

Lemma radix_prefix_not_digit (S : list Z) :
  Field.starts_with_digit S = false -> Field.radix_prefix 10 S = [].
Proof.
  destruct S as [|c S]; [reflexivity|].
  cbn [Field.starts_with_digit Field.radix_prefix]. intros H.
  rewrite (digit_value_not_decimal c H). reflexivity.
Qed.

Lemma hex_prefix_not_digit (S : list Z) :
  Field.starts_with_digit S = false -> Field.hex_prefix S = false.
Proof.
  destruct S as [|c [|x S]]; try reflexivity.
  cbn [Field.starts_with_digit Field.hex_prefix]. intros H.
  destruct (Z.eqb_spec c 48) as [->|]; [discriminate H | reflexivity].
Qed.

Lemma radix_prefix_decimal (digits rest : list Z) :
  Forall (fun d => 0 <= d <= 9) digits ->
  Field.starts_with_digit rest = false ->
  Field.radix_prefix 10 (map (Z.add 48) digits ++ rest) = digits.
Proof.
  intros F R. induction F as [|d digits Hd _ IH].
  - apply radix_prefix_not_digit, R.
  - cbn [map app Field.radix_prefix].
    rewrite (digit_value_decimal d Hd), IH. reflexivity.
Qed.

Lemma radix_value_nonneg (digits : list Z) :
  Forall (fun d => 0 <= d <= 9) digits ->
  forall a : Z, 0 <= a -> 0 <= fold_left (fun a d => 10 * a + d) digits a.
Proof.
  induction 1 as [|d digits Hd _ IH]; intros a Ha; cbn [fold_left];
    [exact Ha | apply IH; lia].
Qed.

Lemma is_white_space_decimal (d : Z) :
  0 <= d <= 9 -> Field.is_white_space (48 + d) = false.
Proof.
  intros H. unfold Field.is_white_space.
  repeat match goal with
         | |- context [?a =? ?b] => destruct (Z.eqb_spec a b); [lia|]
         | |- context [?a <=? ?b] => destruct (Z.leb_spec a b); [lia|]
         end.
  reflexivity.
Qed.

Lemma trim_start_white_space (ws S : list Z) :
  forallb Field.is_white_space ws = true ->
  Field.trim_start S = S ->
  Field.trim_start (ws ++ S) = S.
Proof.
  intros W E. induction ws as [|c ws IH]; [exact E|].
  cbn [forallb] in W. apply andb_prop in W. destruct W as [Wc W].
  cbn [app Field.trim_start]. rewrite Wc. apply IH, W.
Qed.

Lemma parseInt_not_a_number (value : list Z) :
  Field.starts_with_digit (Field.strip_sign (Field.trim_start value)) = false ->
  Field.parseInt value = nan.
Proof.
  intros H. unfold Field.parseInt. cbv zeta.
  rewrite (hex_prefix_not_digit _ H), (radix_prefix_not_digit _ H).
  reflexivity.
Qed.

(** X25.  A field that does not begin (after white space and an optional
    sign) with a decimal digit, in particular an empty field, is read as
    0: [parseInt] returns NaN and [|| 0] replaces it.  For the deck size
    this means that the input is rejected with the message about the deck
    size. *)
Theorem field_without_a_number_reads_as_zero (f : Fields) (i : Inputs) :
  readInputs f = Some i ->
  Field.starts_with_digit
    (Field.strip_sign (Field.trim_start (deckSize_value f))) = false ->
  Field.parseInt (deckSize_value f) = nan /\
  deckSize i = 0 /\
  In "Deck size must be at least 1"%string (validate i).
Proof.
  intros R H.
  assert (P := parseInt_not_a_number _ H).
  assert (D : Field.read (deckSize_value f) = Some 0).
  { unfold Field.read. rewrite P. reflexivity. }
  unfold readInputs in R. rewrite D in R.
  destruct (Field.read (turn_value f)) as [t|]; [|discriminate R].
  destruct (Field.read (sampleSize_value f)) as [s|]; [|discriminate R].
  destruct (Field.read (targets_value f)) as [k|]; [|discriminate R].
  injection R as <-. split; [exact P | split; [reflexivity|]].
  unfold validate. cbn [deckSize]. left. reflexivity.
Qed.

(** An empty deck size, turn 0, seven cards, three targets. *)
Lemma empty_deck_size_field :
  readInputs {| deckSize_value := Field.code_units "";
                turn_value := Field.code_units "0";
                sampleSize_value := Field.code_units "7";
                targets_value := Field.code_units "3" |} =
    Some {| deckSize := 0; turn := 0; sampleSize := 7; targets := 3 |} /\
  Field.starts_with_digit
    (Field.strip_sign (Field.trim_start (Field.code_units ""))) = false /\
  Field.parseInt (Field.code_units "") = nan /\
  deckSize {| deckSize := 0; turn := 0; sampleSize := 7; targets := 3 |} = 0 /\
  In "Deck size must be at least 1"%string
     (validate {| deckSize := 0; turn := 0; sampleSize := 7; targets := 3 |}).
Proof.
  split; [reflexivity | split; [reflexivity|]].
  apply (field_without_a_number_reads_as_zero
           {| deckSize_value := Field.code_units "";
              turn_value := Field.code_units "0";
              sampleSize_value := Field.code_units "7";
              targets_value := Field.code_units "3" |}
           {| deckSize := 0; turn := 0; sampleSize := 7; targets := 3 |});
    reflexivity.
Defined.

(** X26.  A field is read up to the first code unit that is not a decimal
    digit.  For a text made of white space, an optional sign, decimal
    digits with a value below [2^53] and then anything that does not begin
    with a digit (a point, an exponent, letters, nothing), and that is not
    a hexadecimal literal [0x...], [parseInt(...) || 0] is the integer of
    the digits with that sign: the rest is ignored, so [1.9] and [1e3] are
    both read as 1. *)
Theorem field_is_read_up_to_the_first_non_digit
        (ws sign digits rest : list Z) :
  forallb Field.is_white_space ws = true ->
  sign = [] \/ sign = [43] \/ sign = [45] ->
  digits <> [] -> Forall (fun d => 0 <= d <= 9) digits ->
  Field.radix_value 10 digits < 2 ^ 53 ->
  Field.starts_with_digit rest = false ->
  Field.hex_prefix (map (Z.add 48) digits ++ rest) = false ->
  Field.read (ws ++ sign ++ map (Z.add 48) digits ++ rest) =
  Some (match sign with
        | [45] => - Field.radix_value 10 digits
        | _ => Field.radix_value 10 digits
        end).
Proof.
  intros W Hs Hne F B R X.
  destruct digits as [|d digits]; [contradiction|].
  assert (Hd : 0 <= d <= 9) by (inversion F; assumption).
  assert (V := radix_value_nonneg _ F 0 ltac:(lia)).
  fold (Field.radix_value 10 (d :: digits)) in V.
  assert (P := radix_prefix_decimal _ rest F R).
  set (body := map (Z.add 48) (d :: digits) ++ rest) in *.
  assert (Hb : exists tail, body = (48 + d) :: tail).
  { eexists. unfold body. cbn [map app]. reflexivity. }
  destruct Hb as [tail Hb].
  assert (Wd := is_white_space_decimal d Hd).
  assert (N43 : (48 + d =? 43) = false) by (apply Z.eqb_neq; lia).
  assert (N45 : (48 + d =? 45) = false) by (apply Z.eqb_neq; lia).
  assert (Core :
    forall s : Z, s = 1 \/ s = -1 ->
      Field.as_integer
        (Field.or_0
           (if Field.radix_value 10 (d :: digits) =? 0
            then (if s =? -1 then neg_zero else zero)
            else Float64.of_Z (s * Field.radix_value 10 (d :: digits)))) =
      Some (s * Field.radix_value 10 (d :: digits))).
  { intros s Hsg.
    destruct (Z.eqb_spec (Field.radix_value 10 (d :: digits)) 0) as [E|E].
    - rewrite E, Z.mul_0_r. destruct Hsg as [-> | ->]; reflexivity.
    - apply as_integer_of_Z; [destruct Hsg; subst s; lia|].
      destruct Hsg; subst s; lia. }
  unfold Field.read, Field.parseInt. cbv zeta.
  destruct Hs as [-> | [-> | ->]]; cbn [app].
  - rewrite (trim_start_white_space ws body W)
      by (rewrite Hb; cbn [Field.trim_start]; rewrite Wd; reflexivity).
    assert (Sg : Field.strip_sign body = body).
    { rewrite Hb. cbn [Field.strip_sign]. rewrite N43, N45. reflexivity. }
    rewrite Sg, X, P. rewrite Hb. rewrite N45.
    transitivity (Some (1 * Field.radix_value 10 (d :: digits)));
      [|f_equal; lia].
    exact (Core 1 (or_introl eq_refl)).
  - rewrite (trim_start_white_space ws (43 :: body) W) by reflexivity.
    change (Field.strip_sign (43 :: body)) with body.
    rewrite X, P.
    transitivity (Some (1 * Field.radix_value 10 (d :: digits)));
      [|f_equal; lia].
    exact (Core 1 (or_introl eq_refl)).
  - rewrite (trim_start_white_space ws (45 :: body) W) by reflexivity.
    change (Field.strip_sign (45 :: body)) with body.
    rewrite X, P.
    transitivity (Some (-1 * Field.radix_value 10 (d :: digits)));
      [|f_equal; lia].
    exact (Core (-1) (or_intror eq_refl)).
Qed.

(** The text [1e3], a valid content of a number field. *)
Lemma the_field_1e3_reads_as_1 :
  forallb Field.is_white_space [] = true /\
  (@nil Z = [] \/ @nil Z = [43] \/ @nil Z = [45]) /\
  [1] <> [] /\ Forall (fun d => 0 <= d <= 9) [1] /\
  Field.radix_value 10 [1] < 2 ^ 53 /\
  Field.starts_with_digit (Field.code_units "e3") = false /\
  Field.hex_prefix (map (Z.add 48) [1] ++ Field.code_units "e3") = false /\
  [] ++ [] ++ map (Z.add 48) [1] ++ Field.code_units "e3" =
    Field.code_units "1e3" /\
  Field.read ([] ++ [] ++ map (Z.add 48) [1] ++ Field.code_units "e3") =
  Some (Field.radix_value 10 [1]).
Proof.
  split; [reflexivity|]. split; [now left|]. split; [discriminate|].
  split; [repeat constructor; lia|]. split; [reflexivity|].
  split; [reflexivity|]. split; [reflexivity|]. split; [reflexivity|].
  apply (field_is_read_up_to_the_first_non_digit [] [] [1]
           (Field.code_units "e3")).
  - reflexivity.
  - now left.
  - discriminate.
  - repeat constructor; lia.
  - reflexivity.
  - reflexivity.
  - reflexivity.
Defined.

(** ** The zero-denominator branch *)

(** X27.  In exact arithmetic the branch [if (denominator === 0) return 0]
    of [hypergeometric] is never taken.  Whenever the support check
    passes, [0 <= n <= N]; [binomialCoefficient(N, n)] is then the
    positive integer C(N, n), so the test [denominator === 0] fails, the
    division is performed, and the result is the quotient of the three
    coefficients.  (In binary64 the same needs bounds on the errors of
    [Math.log], [Math.exp] and the running sums of [logFactorial], which
    are not established here.) *)
Theorem exact_zero_denominator_branch_is_not_taken (N K n k : Z) :
  0 <= k /\ k <= Z.min K n /\ Z.max 0 (n - (N - K)) <= k ->
  0 <= n <= N /\
  value (binomialCoefficient (NUM := Exact.number) N n) = IZR (binomial N n) /\
  value (binomialCoefficient (NUM := Exact.number) N n) <> 0%R /\
  Exact.eqb (value (binomialCoefficient (NUM := Exact.number) N n)) 0 = false /\
  In Op_divide (trace (hypergeometric (NUM := Exact.number) N K n k)) /\
  value (hypergeometric (NUM := Exact.number) N K n k) =
    (value (binomialCoefficient (NUM := Exact.number) K k) *
     value (binomialCoefficient (NUM := Exact.number) (N - K) (n - k)) /
     value (binomialCoefficient (NUM := Exact.number) N n))%R.
Proof.
  intros H.
  assert (S : out_of_support N K n k = false).
  { apply out_of_support_false. lia. }
  assert (P : (0 < IZR (binomial N n))%R).
  { apply IZR_lt, binomial_pos. lia. }
  assert (NZ : value (binomialCoefficient (NUM := Exact.number) N n) <> 0%R).
  { rewrite exact_binomialCoefficient. apply Rgt_not_eq, P. }
  assert (E : Exact.eqb
                (value (binomialCoefficient (NUM := Exact.number) N n)) 0 = false).
  { apply exact_eqb_false. exact NZ. }
  split; [lia|]. split; [apply exact_binomialCoefficient|].
  split; [exact NZ|]. split; [exact E|]. split.
  - apply hypergeometric_divides; assumption.
  - rewrite hypergeometric_value_in_support by exact S.
    cbv zeta. cbn [strict_eq of_int Exact.number]. rewrite E. reflexivity.
Qed.

(** Scenario 2 of the specification: N = 10, K = 2, n = 5, k = 2. *)
Lemma exact_zero_denominator_branch_10_2_5_2 :
  (0 <= 2 /\ 2 <= Z.min 2 5 /\ Z.max 0 (5 - (10 - 2)) <= 2) /\
  (0 <= 5 <= 10 /\
   value (binomialCoefficient (NUM := Exact.number) 10 5) = IZR (binomial 10 5) /\
   value (binomialCoefficient (NUM := Exact.number) 10 5) <> 0%R /\
   Exact.eqb (value (binomialCoefficient (NUM := Exact.number) 10 5)) 0 = false /\
   In Op_divide (trace (hypergeometric (NUM := Exact.number) 10 2 5 2)) /\
   value (hypergeometric (NUM := Exact.number) 10 2 5 2) =
     (value (binomialCoefficient (NUM := Exact.number) 2 2) *
      value (binomialCoefficient (NUM := Exact.number) (10 - 2) (5 - 2)) /
      value (binomialCoefficient (NUM := Exact.number) 10 5))%R).
Proof.
  split.
  - repeat split; discriminate.
  - apply (exact_zero_denominator_branch_is_not_taken 10 2 5 2).
    repeat split; discriminate.
Defined.

(** ** The two readings of the script *)

Lemma calculateAll_remainingDeck {num : Type} {NUM : Number num} (i : Inputs) :
  match value (calculateAll i) with
  | Errors N _ | Results N _ _ => N = effectiveDeck i
  end.
Proof.
  unfold calculateAll. cbv zeta.
  destruct (0 <? List.length (validate i))%nat; [reflexivity|].
  rewrite !value_bind. reflexivity.
Qed.

(** X28.  The integer reading is the script on safe inputs.  In binary64,
    on every engine: for inputs whose four values, [turn*2] and
    [deckSize - turn*2] are safe integers, with a remaining deck below
    [2^53 - 1] and fuel for that many rounds, the script read with nothing
    but Numbers computes the same [N], finds the same validation errors,
    makes the same calls in the same order, produces the same statistics
    and chart, and writes the same page, the remaining deck and the turn
    printed as Numbers included. *)
Theorem readings_agree_on_safe_inputs
        (log exp : float -> float) (shortest : float -> string)
        (fuel : nat) (i : Inputs) :
  safe_inputs i -> effectiveDeck i < 2 ^ 53 - 1 ->
  (Z.to_nat (effectiveDeck i) + 2 <= fuel)%nat ->
  Machine.effectiveDeck (inputs_as_Numbers i) = Float64.of_Z (effectiveDeck i) /\
  Machine.validate (inputs_as_Numbers i) = validate i /\
  Machine.calculateAll log exp fuel (inputs_as_Numbers i) =
    Some (page_as_Numbers
            (value (calculateAll (NUM := Float64.number log exp) i)),
          map event_as_Numbers
            (trace (calculateAll (NUM := Float64.number log exp) i))) /\
  Machine.screen log exp shortest fuel (inputs_as_Numbers i) =
    Some (screen (NUM := Float64.number log exp)
                 (PRES := Float64Text.presentation)
                 (TXT := Float64Text.text shortest) i).
Proof.
  intros S B F.
  assert (SN1 : safe_integer (effectiveDeck i + 1)).
  { destruct S as (_ & _ & _ & _ & _ & HN). fold (effectiveDeck i) in HN.
    unfold safe_integer in *. lia. }
  assert (C := machine_calculateAll log exp fuel i S SN1 F).
  unfold agree in C.
  split; [apply machine_effectiveDeck, S|].
  split; [apply machine_validate, S|].
  split; [exact C|].
  unfold Machine.screen, screen. rewrite C. f_equal.
  apply machine_display.
  - apply S.
  - assert (R := calculateAll_remainingDeck (NUM := Float64.number log exp) i).
    destruct S as (_ & _ & _ & _ & _ & HN). fold (effectiveDeck i) in HN.
    destruct (value (calculateAll i)); subst; exact HN.
Qed.

(** Seven cards from a deck of 48 with three targets, on the reference
    platform. *)
Lemma readings_agree_on_a_deck_of_48 :
  safe_inputs {| deckSize := 48; turn := 0; sampleSize := 7; targets := 3 |} /\
  effectiveDeck {| deckSize := 48; turn := 0; sampleSize := 7; targets := 3 |}
    < 2 ^ 53 - 1 /\
  (Z.to_nat
     (effectiveDeck
        {| deckSize := 48; turn := 0; sampleSize := 7; targets := 3 |}) + 2
   <= 50)%nat /\
  Machine.effectiveDeck
    (inputs_as_Numbers
       {| deckSize := 48; turn := 0; sampleSize := 7; targets := 3 |}) =
    Float64.of_Z 48 /\
  Machine.validate
    (inputs_as_Numbers
       {| deckSize := 48; turn := 0; sampleSize := 7; targets := 3 |}) = [] /\
  Machine.calculateAll Reference.log Reference.exp 50
    (inputs_as_Numbers
       {| deckSize := 48; turn := 0; sampleSize := 7; targets := 3 |}) =
    Some (page_as_Numbers
            (value (calculateAll (NUM := Reference.number)
                      {| deckSize := 48; turn := 0; sampleSize := 7;
                         targets := 3 |})),
          map event_as_Numbers
            (trace (calculateAll (NUM := Reference.number)
                      {| deckSize := 48; turn := 0; sampleSize := 7;
                         targets := 3 |}))) /\
  Machine.screen Reference.log Reference.exp (fun _ => EmptyString) 50
    (inputs_as_Numbers
       {| deckSize := 48; turn := 0; sampleSize := 7; targets := 3 |}) =
    Some (screen (NUM := Reference.number)
                 (PRES := Float64Text.presentation)
                 (TXT := Float64Text.text (fun _ => EmptyString))
                 {| deckSize := 48; turn := 0; sampleSize := 7; targets := 3 |}).
Proof.
  assert (S : safe_inputs
                {| deckSize := 48; turn := 0; sampleSize := 7; targets := 3 |})
    by (repeat split; reflexivity).
  assert (B : effectiveDeck
                {| deckSize := 48; turn := 0; sampleSize := 7; targets := 3 |}
              < 2 ^ 53 - 1) by reflexivity.
  assert (F : (Z.to_nat
                 (effectiveDeck
                    {| deckSize := 48; turn := 0; sampleSize := 7;
                       targets := 3 |}) + 2 <= 50)%nat)
    by (vm_compute; lia).
  split; [exact S | split; [exact B | split; [exact F|]]].
  exact (readings_agree_on_safe_inputs Reference.log Reference.exp
           (fun _ => EmptyString) 50
           {| deckSize := 48; turn := 0; sampleSize := 7; targets := 3 |}
           S B F).
Defined.

(** X29.  The three core functions and the loop of [renderChart], one by
    one.  In binary64, on every engine: on safe integers below [2^53 - 1],
    with fuel for that many rounds, each function read with nothing but
    Numbers returns the value of the integer reading after the same calls.
    For [hypergeometric] the differences [N - K] and [n - (N - K)] have to
    be safe integers too. *)
Theorem core_readings_agree_on_safe_integers
        (log exp : float -> float) (fuel : nat) :
  (forall n : Z,
     safe_integer n -> n < 2 ^ 53 - 1 -> (Z.to_nat n <= fuel)%nat ->
     Machine.logFactorial log fuel (Float64.of_Z n) =
     Some (value (logFactorial (NUM := Float64.number log exp) n),
           map event_as_Numbers
             (trace (logFactorial (NUM := Float64.number log exp) n)))) /\
  (forall n k : Z,
     safe_integer n -> safe_integer k -> n < 2 ^ 53 - 1 ->
     (Z.to_nat n <= fuel)%nat ->
     Machine.binomialCoefficient log exp fuel (Float64.of_Z n) (Float64.of_Z k) =
     Some (value (binomialCoefficient (NUM := Float64.number log exp) n k),
           map event_as_Numbers
             (trace (binomialCoefficient (NUM := Float64.number log exp) n k)))) /\
  (forall N K n k : Z,
     safe_arguments N K n k -> N < 2 ^ 53 - 1 -> (Z.to_nat N <= fuel)%nat ->
     Machine.hypergeometric log exp fuel (Float64.of_Z N) (Float64.of_Z K)
       (Float64.of_Z n) (Float64.of_Z k) =
     Some (value (hypergeometric (NUM := Float64.number log exp) N K n k),
           map event_as_Numbers
             (trace (hypergeometric (NUM := Float64.number log exp) N K n k)))) /\
  (forall N K n : Z,
     safe_integer N -> safe_integer K -> safe_integer n ->
     K <= N -> n <= N -> N < 2 ^ 53 - 1 -> (Z.to_nat N + 2 <= fuel)%nat ->
     Machine.renderChart log exp fuel (Float64.of_Z N) (Float64.of_Z K)
       (Float64.of_Z n) =
     Some (value (renderChart (NUM := Float64.number log exp) N K n),
           map event_as_Numbers
             (trace (renderChart (NUM := Float64.number log exp) N K n)))).
Proof.
  assert (Up : forall z : Z, safe_integer z -> z < 2 ^ 53 - 1 ->
                             safe_integer (z + 1))
    by (unfold safe_integer; intros; lia).
  split; [|split; [|split]].
  - intros n Hn B F. apply machine_logFactorial; auto.
  - intros n k Hn Hk B F. apply machine_binomialCoefficient; auto.
  - intros N K n k (HN & HK & Hn & Hk & H1 & H2) B F.
    apply machine_hypergeometric; auto.
  - intros N K n HN HK Hn LK Ln B F. apply machine_renderChart; auto.
Qed.
